(** * next-svgl: the [add] command and its markup helper

    A shallow embedding of the [add] command and of [extractSvgContent]
    (the text of [src/commands/add.ts], which the sources carry behind the
    descriptor types in [src/types/index.ts]; line numbers below are those
    of that file).

    Strings.  A JavaScript string is modelled as a [string] whose characters
    are the code units [0..255] (the Latin-1 range); on such strings
    [toLowerCase], [trim] and the regular expressions of the source are
    modelled exactly.  Text with code units above 255 is outside the model;
    there [toLowerCase] can even give an ASCII letter (the Kelvin sign
    U+212A becomes [k]), which no code unit of the model does.

    Directory listings.  [fs.readdir] is modelled with the order it has
    through libuv on POSIX systems: the names sorted by [strcmp].

    Effects.  The network ([axios.get]), the prompt ([inquirer]) and the
    outcome of [fs.writeFile] are read from an environment [Env]; the
    component directory, the tracking array [createdComponents] and the
    console are threaded through a small state-and-exception monad. *)

From Stdlib Require Import Ascii NArith Bool Lia.
From Stdlib Require String.
From stdpp Require Import gmap strings list fin_maps pretty sorting.

Local Open Scope stdpp_scope.

(** [simpl] unfolds a concatenation whose left operand starts with a
    constructor. *)
#[local] Arguments String.append !s1 s2 : simpl nomatch.

(** ** Characters *)

Module Char.

Definition code (c : ascii) : N := N_of_ascii c.

Definition between (lo hi : N) (c : ascii) : bool :=
  (lo <=? code c)%N && (code c <=? hi)%N.

(** [[0-9]] *)
Definition is_digit : ascii -> bool := between 48 57.
(** [[A-Z]] *)
Definition is_upper : ascii -> bool := between 65 90.
(** [[a-z]] *)
Definition is_lower : ascii -> bool := between 97 122.
(** [[a-z0-9]] *)
Definition is_lower_alnum (c : ascii) : bool := is_lower c || is_digit c.
(** [[a-zA-Z0-9]] *)
Definition is_alnum (c : ascii) : bool :=
  is_lower c || is_upper c || is_digit c.
(** [\w], that is [[A-Za-z0-9_]] *)
Definition is_word (c : ascii) : bool := is_alnum c || (code c =? 95)%N.

(** White space and line terminators removed by [String.prototype.trim],
    among the code units below 256: TAB, LF, VT, FF, CR, SP and NBSP. *)
Definition is_space (c : ascii) : bool :=
  between 9 13 c || (code c =? 32)%N || (code c =? 160)%N.

(** Letters with a lower-case mapping among the code units below 256:
    [A-Z], and U+00C0..U+00DE without the multiplication sign U+00D7. *)
Definition has_lower (c : ascii) : bool :=
  is_upper c || (between 192 222 c && negb (code c =? 215)%N).

Definition toLowerCase (c : ascii) : ascii :=
  if has_lower c then ascii_of_N (code c + 32) else c.

Definition eqb (a b : ascii) : bool := Ascii.eqb a b.

(** The double quote, U+0022. *)
Definition dquote : ascii := "034"%char.
(** The hyphen, U+002D. *)
Definition dash : ascii := "-"%char.

End Char.

Arguments Char.eqb : simpl never.
Arguments Char.is_lower_alnum : simpl never.
Arguments Char.is_alnum : simpl never.
Arguments Char.is_word : simpl never.
Arguments Char.is_space : simpl never.
Arguments Char.toLowerCase : simpl never.

(** ** Strings: the [String.prototype] methods and regular expressions used *)

Module Str.

Fixpoint map (f : ascii -> ascii) (s : string) : string :=
  match s with
  | EmptyString => EmptyString
  | String c s' => String (f c) (map f s')
  end.

Fixpoint filter (p : ascii -> bool) (s : string) : string :=
  match s with
  | EmptyString => EmptyString
  | String c s' => if p c then String c (filter p s') else filter p s'
  end.

Fixpoint forallb (p : ascii -> bool) (s : string) : bool :=
  match s with
  | EmptyString => true
  | String c s' => p c && forallb p s'
  end.

Definition is_empty (s : string) : bool :=
  match s with EmptyString => true | _ => false end.

(** [s.toLowerCase()] *)
Definition toLowerCase (s : string) : string := map Char.toLowerCase s.

(** [strip_prefix p s = Some r] when [s = p ++ r]. *)
Fixpoint strip_prefix (p s : string) : option string :=
  match p with
  | EmptyString => Some s
  | String a p' =>
      match s with
      | EmptyString => None
      | String b s' => if Char.eqb a b then strip_prefix p' s' else None
      end
  end.

Definition startsWith (p s : string) : bool :=
  match strip_prefix p s with Some _ => true | None => false end.

(** [s.includes(p)] *)
Fixpoint includes (p s : string) : bool :=
  startsWith p s ||
  match s with
  | EmptyString => false
  | String _ s' => includes p s'
  end.

(** [s.endsWith(p)] *)
Fixpoint endsWith (p s : string) : bool :=
  String.eqb s p ||
  match s with
  | EmptyString => false
  | String _ s' => endsWith p s'
  end.

(** [s.replace(p, r)] for a string pattern [p], and for a regular
    expression that is a literal without flags: the leftmost occurrence
    of [p] is replaced ([r] holds no [$] pattern at any call site). *)
Fixpoint replace_first (p r s : string) : string :=
  match strip_prefix p s with
  | Some rest => r +:+ rest
  | None =>
      match s with
      | EmptyString => EmptyString
      | String c s' => String c (replace_first p r s')
      end
  end.

(** [s.trimStart()] *)
Fixpoint trimStart (s : string) : string :=
  match s with
  | EmptyString => EmptyString
  | String c s' => if Char.is_space c then trimStart s' else s
  end.

(** [s.trimEnd()] *)
Fixpoint trimEnd (s : string) : string :=
  match s with
  | EmptyString => EmptyString
  | String c s' =>
      let r := trimEnd s' in
      if Char.is_space c && is_empty r then EmptyString else String c r
  end.

(** [s.trim()] *)
Definition trim (s : string) : string := trimEnd (trimStart s).

(** [l.join(sep)] *)
Fixpoint join (sep : string) (l : list string) : string :=
  match l with
  | [] => EmptyString
  | [x] => x
  | x :: l' => x +:+ sep +:+ join sep l'
  end.

End Str.

(** ** The regular expressions of [add.ts] *)

Module Regex.

(** [s.replace(/[^a-z0-9]+/g, '-')]: every maximal run of characters
    outside [[a-z0-9]] becomes one hyphen.  [in_run] tells that the
    previous character belonged to a run that was already replaced. *)
Fixpoint replace_runs (in_run : bool) (s : string) : string :=
  match s with
  | EmptyString => EmptyString
  | String c s' =>
      if Char.is_lower_alnum c then String c (replace_runs false s')
      else if in_run then replace_runs true s'
      else String Char.dash (replace_runs true s')
  end.

(** The alternative [^-] of [/^-|-$/g]: a hyphen at index 0. *)
Definition drop_leading_dash (s : string) : string :=
  match s with
  | String c s' => if Char.eqb c Char.dash then s' else s
  | EmptyString => EmptyString
  end.

(** The alternative [-$] of [/^-|-$/g]: a hyphen at the last index. *)
Fixpoint drop_trailing_dash (s : string) : string :=
  match s with
  | EmptyString => EmptyString
  | String c EmptyString =>
      if Char.eqb c Char.dash then EmptyString else s
  | String c s' => String c (drop_trailing_dash s')
  end.

(** [s.replace(/^-|-$/g, '')]: the scan removes a hyphen at index 0,
    goes on behind it, and removes a hyphen that ends the string. *)
Definition trim_dashes (s : string) : string :=
  drop_trailing_dash (drop_leading_dash s).

(** Below, [DQ] stands for the double quote character.
    [[^DQ]*DQ] anchored at the head of [s]: the text behind the first
    double quote of [s], when there is one. *)
Fixpoint after_quote (s : string) : option string :=
  match s with
  | EmptyString => None
  | String c s' => if Char.eqb c Char.dquote then Some s' else after_quote s'
  end.

(** The opening [key=DQ] of an attribute. *)
Definition attr_open (key : string) : string :=
  key +:+ String "="%char (String Char.dquote EmptyString).

(** [/key=DQ[^DQ]*DQ/] anchored at the head of [s]: the text behind the
    match.  The greedy [[^DQ]*] stops at the first double quote. *)
Definition attr_here (key s : string) : option string :=
  match Str.strip_prefix (attr_open key) s with
  | Some r => after_quote r
  | None => None
  end.

(** [s.replace(/key=DQ[^DQ]*DQ/, '')]: the leftmost match is removed. *)
Fixpoint remove_attr (key s : string) : string :=
  match attr_here key s with
  | Some rest => rest
  | None =>
      match s with
      | EmptyString => EmptyString
      | String c s' => String c (remove_attr key s')
      end
  end.

(** The longest prefix of [\w] characters, and the rest. *)
Fixpoint span_word (s : string) : string * string :=
  match s with
  | EmptyString => (EmptyString, EmptyString)
  | String c s' =>
      if Char.is_word c
      then let '(w, r) := span_word s' in (String c w, r)
      else (EmptyString, s)
  end.

(** [/export const (\w+):/] anchored at the head of [s]: group 1. *)
Definition export_here (s : string) : option string :=
  match Str.strip_prefix "export const " s with
  | Some r =>
      let '(w, rest) := span_word r in
      if negb (Str.is_empty w) && Str.startsWith ":" rest
      then Some w else None
  | None => None
  end.

(** [s.match(/export const (\w+):/)]: group 1 of the leftmost match. *)
Fixpoint match_export (s : string) : option string :=
  match export_here s with
  | Some w => Some w
  | None =>
      match s with
      | EmptyString => None
      | String _ s' => match_export s'
      end
  end.

End Regex.

(** ** Descriptors ([src/types/index.ts]) *)

Record Category := { category : string; total : nat }.

Record ThemeOptions := { dark : string; light : string }.

(** [string | ThemeOptions], told apart by [typeof r === 'string']. *)
Inductive Route :=
  | RouteString (locator : string)
  | RouteTheme (theme : ThemeOptions).

(** [iSVG]; its field [category: Category | Category[]] is [categories]. *)
Record iSVG := {
  svgId : option nat;
  title : string;
  categories : Category + list Category;
  route : Route;
  wordmark : option Route;
  brandUrl : option string;
  url : string;
}.

Definition isString (r : Route) : bool :=
  match r with RouteString _ => true | RouteTheme _ => false end.

(** JavaScript truthiness of [svg.wordmark]: [undefined] and the empty
    string are falsy, every object is truthy. *)
Definition truthy (w : option Route) : bool :=
  match w with
  | None => false
  | Some (RouteString s) => negb (Str.is_empty s)
  | Some (RouteTheme _) => true
  end.

(** ** Derived identifiers *)

(** [title.toLowerCase().replace(/[^a-z0-9]+/g, '-').replace(/^-|-$/g, '')],
    the [kebabName] of the filter and the [fileName] of the generator. *)
Definition kebabName (title : string) : string :=
  Regex.trim_dashes (Regex.replace_runs false (Str.toLowerCase title)).

(** [svg.title.replace(/[^a-zA-Z0-9]/g, '')] *)
Definition componentName (svg : iSVG) : string :=
  Str.filter Char.is_alnum (title svg).

(** ** The markup helper *)

(** [extractSvgContent]: trim, then remove the first fixed width and the
    first fixed height. *)
Definition extractSvgContent (svgString : string) : string :=
  Regex.remove_attr "height" (Regex.remove_attr "width" (Str.trim svgString)).

(** ** Exact-match selection and its report *)

Definition requestedNames (args : list string) : list string :=
  List.map Str.toLowerCase args.

(** The body of [requestedNames.some] inside the filter. *)
Definition nameMatches (svg : iSVG) (name : string) : bool :=
  String.eqb (kebabName (title svg)) (Str.toLowerCase name)
  || String.eqb (Str.toLowerCase (title svg)) (Str.toLowerCase name).

(** [svgs.filter(svg => requestedNames.some(...))] *)
Definition selectExact (svgs : list iSVG) (args : list string) : list iSVG :=
  List.filter (fun svg => existsb (nameMatches svg) (requestedNames args)) svgs.

(** [selectedSVGs.map(svg => [svg.title.toLowerCase(), kebabName]).flat()] *)
Definition foundNames (selectedSVGs : list iSVG) : list string :=
  flat_map (fun svg => [Str.toLowerCase (title svg); kebabName (title svg)])
    selectedSVGs.

(** [requestedNames.filter(name => !foundNames.some(f => f === name.toLowerCase()))] *)
Definition notFound (selectedSVGs : list iSVG) (args : list string)
  : list string :=
  List.filter
    (fun name =>
       negb (existsb (fun foundName => String.eqb foundName (Str.toLowerCase name))
               (foundNames selectedSVGs)))
    (requestedNames args).

(** ** Component sources *)

(** [markup.replace(/<svg/, '<svg className={className} ...')], the props
    on one line (lines 174, 262, 296 and 298). *)
Definition injectProps (markup : string) : string :=
  Str.replace_first "<svg"
    "<svg className={className} width={width} height={height} {...props}"
    markup.

(** The same replacement with one prop per line (lines 216 and 218). *)
Definition injectPropsLines (markup : string) : string :=
  Str.replace_first "<svg"
    "<svg
      className={className}
      width={width}
      height={height}
      {...props}"
    markup.

(** [componentContent] for a single route (lines 159-177). *)
Definition singleContent (componentName svgMarkup : string) : string :=
  "import React from 'react';

interface "
    +:+ componentName
    +:+ "Props {
  className?: string;
  width?: number | string;
  height?: number | string;
}

export const "
    +:+ componentName
    +:+ ": React.FC<"
    +:+ componentName
    +:+ "Props> = ({
  className,
  width = 24,
  height = 24,
  ...props
}) => {
  return (
    "
    +:+ injectProps svgMarkup
    +:+ "
  );
};
".

(** [componentContent] for a light/dark route (lines 189-221). *)
Definition themedContent (componentName darkSvgMarkup lightSvgMarkup : string)
  : string :=
  "import React, { useEffect, useState } from 'react';
import { useTheme } from 'next-themes';

interface "
    +:+ componentName
    +:+ "Props {
  className?: string;
  width?: number | string;
  height?: number | string;
}

export const "
    +:+ componentName
    +:+ ": React.FC<"
    +:+ componentName
    +:+ "Props> = ({
  className,
  width = 24,
  height = 24,
  ...props
}) => {
  const { resolvedTheme } = useTheme();
  // Add client-side only rendering to avoid hydration mismatch
  const [mounted, setMounted] = useState(false);
  
  useEffect(() => {
    setMounted(true);
  }, []);
  
  // During SSR and initial client render, default to light theme
  const isDark = mounted && resolvedTheme === 'dark';

  return isDark ? (
    "
    +:+ injectPropsLines darkSvgMarkup
    +:+ "
  ) : (
    "
    +:+ injectPropsLines lightSvgMarkup
    +:+ "
  );
};
".

(** [wordmarkContent] for a single wordmark (lines 247-265). *)
Definition wordmarkSingleContent (componentName wordmarkSvgMarkup : string)
  : string :=
  "import React from 'react';

interface "
    +:+ componentName
    +:+ "WordmarkProps {
  className?: string;
  width?: number | string;
  height?: number | string;
}

export const "
    +:+ componentName
    +:+ "Wordmark: React.FC<"
    +:+ componentName
    +:+ "WordmarkProps> = ({
  className,
  width = 100,
  height = 24,
  ...props
}) => {
  return (
    "
    +:+ injectProps wordmarkSvgMarkup
    +:+ "
  );
};
".

(** [wordmarkContent] for a light/dark wordmark (lines 277-301). *)
Definition wordmarkThemedContent
  (componentName darkWordmarkMarkup lightWordmarkMarkup : string) : string :=
  "import React from 'react';
import { useTheme } from 'next-themes';

interface "
    +:+ componentName
    +:+ "WordmarkProps {
  className?: string;
  width?: number | string;
  height?: number | string;
}

export const "
    +:+ componentName
    +:+ "Wordmark: React.FC<"
    +:+ componentName
    +:+ "WordmarkProps> = ({
  className,
  width = 100,
  height = 24,
  ...props
}) => {
  const { resolvedTheme } = useTheme();
  const isDark = resolvedTheme === 'dark';

  return isDark ? (
    "
    +:+ injectProps darkWordmarkMarkup
    +:+ "
  ) : (
    "
    +:+ injectProps lightWordmarkMarkup
    +:+ "
  );
};
".

(** An entry of [createdComponents] and of [allComponents]; the records
    pushed for a base component carry no [isWordmark] property. *)
Record Component := {
  name : string;
  fileName : string;
  hasDarkLight : bool;
  isWordmark : option bool;
}.

Definition importLine (comp : Component) : string :=
  "import { " +:+ name comp +:+ " } from './" +:+ fileName comp +:+ "';".

(** [indexContent]: one import line per record, then one re-export. *)
Definition indexContent (allComponents : list Component) : string :=
  "
import React from 'react';

"
    +:+ Str.join "
" (List.map importLine allComponents)
    +:+ "

export {
  "
    +:+ Str.join ",
  " (List.map name allComponents)
    +:+ "
};
".

(** ** The world of the command *)

Inductive Output :=
  | ConsoleError (text : string)
  | ConsoleLog (text : string)
  | SpinnerStart (text : string)
  | SpinnerStop
  | SpinnerText (text : string)
  | SpinnerSucceed (text : string).

(** What an awaited request gives: its data, or the error it throws. *)
Inductive Fetched (A : Type) :=
  | Resolved (data : A)
  | Rejected (error : string).
Arguments Resolved {A} data.
Arguments Rejected {A} error.

Record Choice := { choiceName : string; choiceValue : iSVG }.

(** The collaborators of the command.
    - [api]: [axios.get('https://api.svgl.app')] and its [data] ([None]
      when the body holds no list);
    - [axiosGet]: [axios.get(locator)] and its [data], the markup;
    - [writeError]: the error [fs.writeFile] throws for a file of the
      component directory, if it throws;
    - [prompt]: the answer of the check-box prompt.
    [fs.ensureDir], [fs.readdir] and [fs.readFile] of a listed file are
    taken to succeed. *)
Record Env := {
  api : Fetched (option (list iSVG));
  axiosGet : string -> Fetched string;
  writeError : string -> option string;
  prompt : list Choice -> list iSVG;
}.

(** The directory [components/svgl] (file name to content), the tracking
    array of the run, and what was printed. *)
Record State := {
  dir : gmap string string;
  createdComponents : list Component;
  console : list Output;
}.

Definition initial (d : gmap string string) : State :=
  {| dir := d; createdComponents := []; console := [] |}.

(** ** A state monad with exceptions *)

Inductive Outcome (A : Type) :=
  | Done (value : A)
  | Thrown (error : string).
Arguments Done {A} value.
Arguments Thrown {A} error.

Definition M (A : Type) : Type := State -> Outcome A * State.

Definition ret {A} (a : A) : M A := fun s => (Done a, s).

Definition bind {A B} (m : M A) (k : A -> M B) : M B :=
  fun s =>
    match m s with
    | (Done a, s') => k a s'
    | (Thrown e, s') => (Thrown e, s')
    end.

(** [try { m } catch (e) { handler e }]: the state reached when [m] threw
    is kept. *)
Definition tryCatch {A} (m : M A) (handler : string -> M A) : M A :=
  fun s =>
    match m s with
    | (Done a, s') => (Done a, s')
    | (Thrown e, s') => handler e s'
    end.

Notation "x <- m ;; k" := (bind m (fun x => k))
  (at level 100, m at next level, right associativity).
Notation "m ;;; k" := (bind m (fun _ => k))
  (at level 100, right associativity).

Definition emit (o : Output) : M unit :=
  fun s =>
    (Done tt,
     {| dir := dir s;
        createdComponents := createdComponents s;
        console := console s ++ [o] |}).

Definition await {A} (r : Fetched A) : M A :=
  fun s =>
    match r with
    | Resolved d => (Done d, s)
    | Rejected e => (Thrown e, s)
    end.

(** [await fs.writeFile(path.join(componentsDir, file), content)] *)
Definition writeFile (env : Env) (file content : string) : M unit :=
  fun s =>
    match writeError env file with
    | Some e => (Thrown e, s)
    | None =>
        (Done tt,
         {| dir := <[file := content]> (dir s);
            createdComponents := createdComponents s;
            console := console s |})
    end.

(** [createdComponents.push(comp)] *)
Definition push (comp : Component) : M unit :=
  fun s =>
    (Done tt,
     {| dir := dir s;
        createdComponents := createdComponents s ++ [comp];
        console := console s |}).

(** The order in which [strcmp] puts two file names: by code unit, a
    proper prefix first. *)
Definition nameLe (a b : string) : Prop := String.leb a b = true.

#[global] Instance nameLe_dec : RelDecision nameLe :=
  fun a b => decide (String.leb a b = true).

(** The names of the files of a directory, in the order of [fs.readdir]:
    Node returns what [scandir] of libuv returns, which sorts the names
    with [strcmp]. *)
Definition sortedNames (d : gmap string string) : list string :=
  merge_sort nameLe ((map_to_list d).*1).

(** [await fs.readdir(componentsDir)] *)
Definition readdir : M (list string) :=
  fun s => (Done (sortedNames (dir s)), s).

(** [await fs.readFile(path.join(componentsDir, file), 'utf8')] *)
Definition readFile (file : string) : M string :=
  fun s =>
    match dir s !! file with
    | Some content => (Done content, s)
    | None => (Thrown ("ENOENT: no such file or directory: " +:+ file), s)
    end.

Definition getCreated : M (list Component) :=
  fun s => (Done (createdComponents s), s).

(** [for (const x of l) body x] *)
Fixpoint forEach {A} (l : list A) (body : A -> M unit) : M unit :=
  match l with
  | [] => ret tt
  | x :: l' => body x ;;; forEach l' body
  end.

(** A [for] loop that updates a local variable. *)
Fixpoint foldM {A B} (body : B -> A -> M B) (l : list A) (b : B) : M B :=
  match l with
  | [] => ret b
  | x :: l' => b' <- body b x ;; foldM body l' b'
  end.

(** ** The generator: the loop over [selectedSVGs] *)

(** [extractSvgContent((await axios.get(locator)).data)] *)
Definition fetchMarkup (env : Env) (locator : string) : M string :=
  svgContent <- await (axiosGet env locator) ;;
  ret (extractSvgContent svgContent).

(** [componentContent], by the shape of [svg.route]. *)
Definition componentContent (env : Env) (cname : string) (r : Route)
  : M string :=
  match r with
  | RouteString locator =>
      svgMarkup <- fetchMarkup env locator ;;
      ret (singleContent cname svgMarkup)
  | RouteTheme t =>
      lightSvgMarkup <- fetchMarkup env (light t) ;;
      darkSvgMarkup <- fetchMarkup env (dark t) ;;
      ret (themedContent cname darkSvgMarkup lightSvgMarkup)
  end.

(** [wordmarkContent], by the shape of [svg.wordmark]. *)
Definition wordmarkContent (env : Env) (cname : string) (w : Route)
  : M string :=
  match w with
  | RouteString locator =>
      wordmarkSvgMarkup <- fetchMarkup env locator ;;
      ret (wordmarkSingleContent cname wordmarkSvgMarkup)
  | RouteTheme t =>
      lightWordmarkMarkup <- fetchMarkup env (light t) ;;
      darkWordmarkMarkup <- fetchMarkup env (dark t) ;;
      ret (wordmarkThemedContent cname darkWordmarkMarkup lightWordmarkMarkup)
  end.

(** The record pushed for the base component of [svg]. *)
Definition baseRecord (svg : iSVG) : Component :=
  {| name := componentName svg;
     fileName := kebabName (title svg);
     hasDarkLight := negb (isString (route svg));
     isWordmark := None |}.

(** The record pushed for the wordmark [w] of [svg]. *)
Definition wordmarkRecord (svg : iSVG) (w : Route) : Component :=
  {| name := componentName svg +:+ "Wordmark";
     fileName := kebabName (title svg) +:+ "-wordmark";
     hasDarkLight := negb (isString w);
     isWordmark := Some true |}.

(** [if (svg.wordmark) { ... }] *)
Definition createWordmark (env : Env) (svg : iSVG) : M unit :=
  match wordmark svg with
  | Some w =>
      if truthy (wordmark svg) then
        let wordmarkFileName := kebabName (title svg) +:+ "-wordmark" in
        content <- wordmarkContent env (componentName svg) w ;;
        writeFile env (wordmarkFileName +:+ ".tsx") content ;;;
        emit (SpinnerText ("Created: " +:+ wordmarkFileName +:+ ".tsx")) ;;;
        push (wordmarkRecord svg w)
      else ret tt
  | None => ret tt
  end.

(** The body of the [try] of one iteration. *)
Definition createComponent (env : Env) (svg : iSVG) : M unit :=
  let file := kebabName (title svg) in
  content <- componentContent env (componentName svg) (route svg) ;;
  writeFile env (file +:+ ".tsx") content ;;;
  emit (SpinnerText ("Created: " +:+ file +:+ ".tsx")) ;;;
  push (baseRecord svg) ;;;
  createWordmark env svg.

(** One iteration: [try { ... } catch (error) { console.error(...) }]. *)
Definition processSVG (env : Env) (svg : iSVG) : M unit :=
  tryCatch (createComponent env svg)
    (fun error =>
       emit (ConsoleError
               ("Failed to create component for " +:+ title svg +:+ ": "
                +:+ error))).

(** ** The aggregate export: [index.tsx] *)

(** One iteration of the loop over [componentFiles]. *)
Definition scanFile (allComponents : list Component) (file : string)
  : M (list Component) :=
  if Str.endsWith ".tsx" file && negb (String.eqb file "index.tsx") then
    let slug := Str.replace_first ".tsx" "" file in
    match List.find (fun comp => String.eqb (fileName comp) slug)
            allComponents with
    | Some _ => ret allComponents
    | None =>
        fileContent <- readFile file ;;
        match Regex.match_export fileContent with
        | Some exported =>
            if negb (Str.is_empty exported) then
              ret (allComponents ++
                   [{| name := exported;
                       fileName := slug;
                       hasDarkLight := Str.includes "useTheme" fileContent;
                       isWordmark := Some (Str.includes "-wordmark" slug) |}])
            else ret allComponents
        | None => ret allComponents
        end
    end
  else ret allComponents.

(** [createdComponents[0]?.name || 'ComponentName'] *)
Definition firstName (created : list Component) : string :=
  match created with
  | comp :: _ => if Str.is_empty (name comp) then "ComponentName" else name comp
  | [] => "ComponentName"
  end.

Definition rebuildIndex (env : Env) : M unit :=
  componentFiles <- readdir ;;
  created <- getCreated ;;
  allComponents <- foldM scanFile componentFiles created ;;
  writeFile env "index.tsx" (indexContent allComponents) ;;;
  emit (SpinnerSucceed
          ("Created " +:+ pretty (length created)
           +:+ " new React components and exported all "
           +:+ pretty (length allComponents)
           +:+ " components in components/svgl/")) ;;;
  emit (ConsoleLog "
To use your SVG icons:") ;;;
  emit (ConsoleLog
          ("import { " +:+ firstName created +:+ " } from 'components/svgl';")) ;;;
  emit (ConsoleLog ("<" +:+ firstName created +:+ " width={32} height={32} />")).

(** [const createdComponents = []] *)
Definition newCreated : M unit :=
  fun s =>
    (Done tt,
     {| dir := dir s; createdComponents := []; console := console s |}).

(** From the second spinner to the end of the loop over [selectedSVGs]. *)
Definition createAll (env : Env) (selectedSVGs : list iSVG) : M unit :=
  emit (SpinnerStart "Creating React components...") ;;;
  newCreated ;;;
  forEach selectedSVGs (processSVG env).

(** [if (selectedSVGs.length > 0) { ... }] *)
Definition generate (env : Env) (selectedSVGs : list iSVG) : M unit :=
  match selectedSVGs with
  | [] => ret tt
  | _ :: _ => createAll env selectedSVGs ;;; rebuildIndex env
  end.

(** ** The catalog resolver *)

(** Exact-match mode; [None] is the early [return]. *)
Definition selectByName (svgs : list iSVG) (args : list string)
  : M (option (list iSVG)) :=
  let selectedSVGs := selectExact svgs args in
  match selectedSVGs with
  | [] =>
      emit (ConsoleError "None of the requested SVGs were found.") ;;;
      emit (ConsoleLog "Available SVGs:") ;;;
      emit (ConsoleLog
              (Str.join ", "
                 (List.map (fun svg => kebabName (title svg)) (take 10 svgs))
               +:+ "...")) ;;;
      ret None
  | _ :: _ =>
      let n := length selectedSVGs in
      emit (ConsoleLog
              ("Found " +:+ pretty n +:+ " exact match"
               +:+ (if Nat.eqb n 1 then "" else "es") +:+ ": "
               +:+ Str.join ", " (List.map title selectedSVGs))) ;;;
      match notFound selectedSVGs args with
      | [] => ret tt
      | missing =>
          emit (ConsoleLog
                  ("Could not find exact matches for: "
                   +:+ Str.join ", " missing))
      end ;;;
      ret (Some selectedSVGs)
  end.

(** A [Category] inside a template literal prints as an object does. *)
Definition categoryText (c : Category + list Category) : string :=
  match c with
  | inl _ => "[object Object]"
  | inr cs => Str.join "," (List.map (fun _ => "[object Object]") cs)
  end.

Definition choices (svgs : list iSVG) : list Choice :=
  List.map
    (fun svg =>
       {| choiceName :=
            title svg +:+ " (" +:+ categoryText (categories svg) +:+ ") - "
            +:+ url svg;
          choiceValue := svg |})
    svgs.

(** Interactive mode. *)
Definition selectInteractive (env : Env) (svgs : list iSVG)
  : M (option (list iSVG)) :=
  ret (Some (prompt env (choices svgs))).

(** ** The command *)

Definition add (env : Env) (args : option (list string)) : M unit :=
  tryCatch
    (emit (SpinnerStart "Fetching SVGs...") ;;;
     svgs <- await (api env) ;;
     emit SpinnerStop ;;;
     match svgs with
     | None | Some [] => emit (ConsoleError "No SVGs found in the repository.")
     | Some svgs =>
         selected <-
           match args with
           | Some ((_ :: _) as names) => selectByName svgs names
           | _ => selectInteractive env svgs
           end ;;
         match selected with
         | None => ret tt
         | Some selectedSVGs => generate env selectedSVGs
         end
     end)
    (fun err =>
       emit (ConsoleError ("Failed to fetch or process SVGs: " +:+ err))).

(** The state in which [add] leaves a component directory [d]. *)
Definition run (env : Env) (args : option (list string))
  (d : gmap string string) : State :=
  snd (add env args (initial d)).

(** * Properties *)

(** ** Characters *)

Lemma char_eqb_eq (a b : ascii) : Char.eqb a b = true <-> a = b.
Proof. apply Ascii.eqb_eq. Qed.

Lemma char_eqb_refl (a : ascii) : Char.eqb a a = true.
Proof. apply Ascii.eqb_refl. Qed.

Ltac each_char c := destruct c as [[] [] [] [] [] [] [] []].

Lemma char_toLowerCase_idem (c : ascii) :
  Char.toLowerCase (Char.toLowerCase c) = Char.toLowerCase c.
Proof. each_char c; reflexivity. Qed.

Lemma char_lower_alnum_fixed (c : ascii) :
  Char.is_lower_alnum c = true -> Char.toLowerCase c = c.
Proof. each_char c; (reflexivity || discriminate). Qed.

Lemma char_dash_not_alnum (c : ascii) :
  Char.eqb c Char.dash = true -> Char.is_lower_alnum c = false.
Proof. intros H%char_eqb_eq. subst. reflexivity. Qed.

(** The characters of a file slug: [[a-z0-9]] and the hyphen. *)
Definition slug_char (c : ascii) : bool :=
  Char.is_lower_alnum c || Char.eqb c Char.dash.

Lemma char_slug_fixed (c : ascii) :
  slug_char c = true -> Char.toLowerCase c = c.
Proof. each_char c; (reflexivity || discriminate). Qed.

(** ** Strings *)

Lemma str_app_nil_r (s : string) : s +:+ "" = s.
Proof. induction s as [|c s IH]; simpl; [reflexivity | now rewrite IH]. Qed.

Lemma str_app_assoc (a b c : string) : (a +:+ b) +:+ c = a +:+ b +:+ c.
Proof. induction a as [|x a IH]; simpl; [reflexivity | now rewrite IH]. Qed.

Lemma str_length_app (a b : string) :
  String.length (a +:+ b) = String.length a + String.length b.
Proof. induction a as [|x a IH]; simpl; [reflexivity | now rewrite IH]. Qed.

Lemma toLowerCase_idem (s : string) :
  Str.toLowerCase (Str.toLowerCase s) = Str.toLowerCase s.
Proof.
  unfold Str.toLowerCase.
  induction s as [|c s IH]; simpl; [reflexivity|].
  now rewrite char_toLowerCase_idem, IH.
Qed.

Lemma toLowerCase_slug_chars (s : string) :
  Str.forallb slug_char s = true -> Str.toLowerCase s = s.
Proof.
  unfold Str.toLowerCase.
  induction s as [|c s IH]; simpl; [reflexivity|].
  intros [Hc Hs]%andb_true_iff.
  now rewrite char_slug_fixed, IH.
Qed.

Lemma strip_prefix_spec (p s r : string) :
  Str.strip_prefix p s = Some r <-> s = p +:+ r.
Proof.
  revert s. induction p as [|a p IH]; intros s; simpl.
  - split; congruence.
  - destruct s as [|b s]; [split; discriminate|].
    destruct (Char.eqb a b) eqn:E.
    + apply char_eqb_eq in E. subst b. rewrite IH. split; congruence.
    + split; [discriminate|]. intros [= -> _].
      now rewrite char_eqb_refl in E.
Qed.

Lemma strip_prefix_app (p r : string) : Str.strip_prefix p (p +:+ r) = Some r.
Proof. now apply strip_prefix_spec. Qed.

(** ** C5: the file slug *)

(** No hyphen follows a hyphen, and every character is a slug character;
    [after_dash] tells that the character before [s] is a hyphen. *)
Fixpoint slug_body (after_dash : bool) (s : string) : bool :=
  match s with
  | EmptyString => true
  | String c s' =>
      if Char.is_lower_alnum c then slug_body false s'
      else Char.eqb c Char.dash && negb after_dash && slug_body true s'
  end.

Lemma replace_runs_body (s : string) (b : bool) :
  slug_body b (Regex.replace_runs b s) = true.
Proof.
  revert b. induction s as [|c s IH]; intros b; simpl; [reflexivity|].
  destruct (Char.is_lower_alnum c) eqn:E; simpl.
  - now rewrite E.
  - destruct b; simpl; [apply IH|]. now rewrite IH.
Qed.

Lemma replace_runs_fixed (s : string) (b : bool) :
  slug_body b s = true -> Regex.replace_runs b s = s.
Proof.
  revert b. induction s as [|c s IH]; intros b; simpl; [reflexivity|].
  destruct (Char.is_lower_alnum c) eqn:E.
  - intros H. now rewrite IH.
  - intros [[Hc Hb%negb_true_iff]%andb_true_iff Hs]%andb_true_iff.
    subst b. apply char_eqb_eq in Hc. subst c. now rewrite IH.
Qed.

Lemma slug_body_weaken (s : string) (b : bool) :
  slug_body b s = true -> slug_body false s = true.
Proof.
  destruct s as [|c s]; simpl; [reflexivity|].
  destruct (Char.is_lower_alnum c); [easy|].
  intros [[Hc _]%andb_true_iff Hs]%andb_true_iff. now rewrite Hc, Hs.
Qed.

Lemma slug_body_chars (s : string) (b : bool) :
  slug_body b s = true -> Str.forallb slug_char s = true.
Proof.
  revert b. induction s as [|c s IH]; intros b; simpl; [reflexivity|].
  unfold slug_char. destruct (Char.is_lower_alnum c); simpl.
  - intros H. eauto.
  - intros [[Hc _]%andb_true_iff Hs]%andb_true_iff. rewrite Hc. eauto.
Qed.

Lemma slug_body_no_double_dash (s : string) (b : bool) :
  slug_body b s = true -> Str.includes "--" s = false.
Proof.
  revert b. induction s as [|c s IH]; intros b; [reflexivity|].
  cbn [slug_body Str.includes]. intros H.
  assert (Hs : Str.includes "--" s = false).
  { destruct (Char.is_lower_alnum c); [eauto|].
    apply andb_true_iff in H as [_ H]. eauto. }
  rewrite Hs, orb_false_r. unfold Str.startsWith. simpl.
  destruct (Char.eqb "-" c) eqn:Ec; [|reflexivity].
  apply char_eqb_eq in Ec. subst c. simpl in H.
  destruct s as [|c' s]; [reflexivity|].
  destruct (Char.eqb "-" c') eqn:Ec'; [|reflexivity].
  apply char_eqb_eq in Ec'. subst c'. simpl in H.
  now rewrite andb_false_r in H.
Qed.

Lemma char_eqb_sym (a b : ascii) : Char.eqb a b = Char.eqb b a.
Proof. apply Ascii.eqb_sym. Qed.

Lemma startsWith_dash_cons (c : ascii) (s : string) :
  Str.startsWith "-" (String c s) = Char.eqb c Char.dash.
Proof.
  unfold Str.startsWith, Char.dash. simpl. rewrite (char_eqb_sym c).
  now destruct (Char.eqb "-" c).
Qed.

Lemma endsWith_dash_single (c : ascii) :
  Str.endsWith "-" (String c "") = Char.eqb c Char.dash.
Proof.
  simpl. unfold Char.eqb, Char.dash.
  destruct (Ascii.eqb c "-"); reflexivity.
Qed.

Lemma endsWith_dash_cons (c c' : ascii) (s : string) :
  Str.endsWith "-" (String c (String c' s)) = Str.endsWith "-" (String c' s).
Proof.
  change (Str.endsWith "-" (String c (String c' s)))
    with (String.eqb (String c (String c' s)) "-"
          || Str.endsWith "-" (String c' s)).
  destruct (String.eqb_spec (String c (String c' s)) "-") as [E|E];
    [discriminate E | reflexivity].
Qed.

Lemma slug_body_after_dash (s : string) :
  slug_body true s = true -> Str.startsWith "-" s = false.
Proof.
  destruct s as [|c s]; [reflexivity|]. rewrite startsWith_dash_cons. simpl.
  destruct (Char.eqb c Char.dash) eqn:E; [|reflexivity].
  rewrite (char_dash_not_alnum _ E). simpl. discriminate.
Qed.

Lemma drop_leading_dash_body (s : string) :
  slug_body false s = true ->
  slug_body false (Regex.drop_leading_dash s) = true
  /\ Str.startsWith "-" (Regex.drop_leading_dash s) = false.
Proof.
  destruct s as [|c s]; [easy|]. intros H. unfold Regex.drop_leading_dash.
  destruct (Char.eqb c Char.dash) eqn:E.
  - simpl in H. rewrite (char_dash_not_alnum _ E), E in H. simpl in H.
    split; [eapply slug_body_weaken; eassumption|].
    now apply slug_body_after_dash.
  - split; [assumption|]. now rewrite startsWith_dash_cons.
Qed.

Lemma drop_trailing_dash_body (s : string) (b : bool) :
  slug_body b s = true -> slug_body b (Regex.drop_trailing_dash s) = true.
Proof.
  revert b. induction s as [|c s IH]; intros b H; [reflexivity|].
  destruct s as [|c' s].
  - simpl. destruct (Char.eqb c Char.dash); [reflexivity | assumption].
  - change (Regex.drop_trailing_dash (String c (String c' s)))
      with (String c (Regex.drop_trailing_dash (String c' s))).
    cbn [slug_body] in H |- *.
    destruct (Char.is_lower_alnum c); [now apply IH|].
    apply andb_true_iff in H as [H1 H2]. rewrite H1. now apply IH.
Qed.

Lemma drop_trailing_dash_start (s : string) :
  Str.startsWith "-" s = false ->
  Str.startsWith "-" (Regex.drop_trailing_dash s) = false.
Proof.
  destruct s as [|c [|c' s]]; [easy| |].
  - rewrite startsWith_dash_cons. intros E. simpl. rewrite E.
    now rewrite startsWith_dash_cons.
  - change (Regex.drop_trailing_dash (String c (String c' s)))
      with (String c (Regex.drop_trailing_dash (String c' s))).
    now rewrite !startsWith_dash_cons.
Qed.

Lemma drop_trailing_dash_end (s : string) (b : bool) :
  slug_body b s = true ->
  Str.endsWith "-" (Regex.drop_trailing_dash s) = false.
Proof.
  revert b. induction s as [|c s IH]; intros b H; [reflexivity|].
  destruct s as [|c' s].
  - simpl Regex.drop_trailing_dash.
    destruct (Char.eqb c Char.dash) eqn:E; [reflexivity|].
    now rewrite endsWith_dash_single.
  - change (Regex.drop_trailing_dash (String c (String c' s)))
      with (String c (Regex.drop_trailing_dash (String c' s))).
    assert (H' : exists b', slug_body b' (String c' s) = true).
    { cbn [slug_body] in H. destruct (Char.is_lower_alnum c); [eauto|].
      apply andb_true_iff in H as [_ H]. eauto. }
    destruct H' as [b' H']. specialize (IH b' H').
    destruct (Regex.drop_trailing_dash (String c' s)) as [|x r] eqn:Er.
    + rewrite endsWith_dash_single.
      destruct (Char.eqb c Char.dash) eqn:E; [|reflexivity].
      exfalso. destruct s as [|c'' s]; [|discriminate Er].
      simpl in Er. destruct (Char.eqb c' Char.dash) eqn:E'; [|discriminate].
      cbn [slug_body] in H.
      rewrite (char_dash_not_alnum _ E), (char_dash_not_alnum _ E'), E' in H.
      simpl in H. now rewrite andb_false_r in H.
    + now rewrite endsWith_dash_cons.
Qed.

Lemma drop_leading_dash_fixed (s : string) :
  Str.startsWith "-" s = false -> Regex.drop_leading_dash s = s.
Proof.
  destruct s as [|c s]; [reflexivity|]. rewrite startsWith_dash_cons.
  intros E. simpl. now rewrite E.
Qed.

Lemma drop_trailing_dash_fixed (s : string) :
  Str.endsWith "-" s = false -> Regex.drop_trailing_dash s = s.
Proof.
  induction s as [|c s IH]; [reflexivity|]. destruct s as [|c' s].
  - rewrite endsWith_dash_single. intros E. simpl. now rewrite E.
  - rewrite endsWith_dash_cons. intros E.
    change (Regex.drop_trailing_dash (String c (String c' s)))
      with (String c (Regex.drop_trailing_dash (String c' s))).
    now rewrite IH.
Qed.

(** The shape of a file slug: slug characters only, no two hyphens in a
    row, no hyphen at either end. *)
Definition is_slug (s : string) : bool :=
  Str.forallb slug_char s
  && negb (Str.includes "--" s)
  && negb (Str.startsWith "-" s)
  && negb (Str.endsWith "-" s).

Lemma kebabName_facts (title : string) :
  slug_body false (kebabName title) = true
  /\ Str.startsWith "-" (kebabName title) = false
  /\ Str.endsWith "-" (kebabName title) = false.
Proof.
  unfold kebabName, Regex.trim_dashes.
  pose proof (replace_runs_body (Str.toLowerCase title) false) as H.
  apply drop_leading_dash_body in H as [H1 H2].
  split; [now apply drop_trailing_dash_body|].
  split; [now apply drop_trailing_dash_start|].
  eapply drop_trailing_dash_end; eassumption.
Qed.

Lemma kebabName_is_slug (title : string) : is_slug (kebabName title) = true.
Proof.
  destruct (kebabName_facts title) as (Hb & Hs & He). unfold is_slug.
  rewrite (slug_body_chars _ _ Hb), (slug_body_no_double_dash _ _ Hb), Hs, He.
  reflexivity.
Qed.

Lemma kebabName_fixed (s : string) :
  slug_body false s = true -> Str.startsWith "-" s = false ->
  Str.endsWith "-" s = false -> kebabName s = s.
Proof.
  intros Hb Hs He. unfold kebabName, Regex.trim_dashes.
  rewrite (toLowerCase_slug_chars s) by (eapply slug_body_chars; eassumption).
  rewrite replace_runs_fixed by assumption.
  rewrite drop_leading_dash_fixed by assumption.
  now apply drop_trailing_dash_fixed.
Qed.

(** C5. The file slug of a title ([kebabName], the [fileName] of the
    generator) is a function of the title, it is a fixed point of the
    derivation (deriving the slug of a slug gives the slug back), and it
    holds lower-case alphanumerics and hyphens only, with no two hyphens in
    a row and no hyphen at either end; runs of other characters become one
    hyphen each. *)
Theorem kebabName_idempotent_and_clean (title : string) :
  kebabName (kebabName title) = kebabName title
  /\ Str.forallb slug_char (kebabName title) = true
  /\ Str.includes "--" (kebabName title) = false
  /\ Str.startsWith "-" (kebabName title) = false
  /\ Str.endsWith "-" (kebabName title) = false
  /\ kebabName "  Next.js  &  Co. (Beta) " = "next-js-co-beta".
Proof.
  destruct (kebabName_facts title) as (Hb & Hs & He).
  split; [now apply kebabName_fixed|].
  split; [eapply slug_body_chars; eassumption|].
  split; [eapply slug_body_no_double_dash; eassumption|].
  split; [assumption|]. split; [assumption|]. vm_compute. reflexivity.
Qed.

(** ** C3 and C9: exact-match selection and the report of unmatched names *)

(** Catalog entries used in the examples. *)
Module Sample.

Definition entry (t : string) (r : Route) (w : option Route) : iSVG :=
  {| svgId := None;
     title := t;
     categories := inl {| category := "Software"; total := 1 |};
     route := r;
     wordmark := w;
     brandUrl := None;
     url := "https://example.org" |}.

Definition github : iSVG :=
  entry "GitHub" (RouteString "https://svgl.app/library/github.svg") None.

Definition copilot : iSVG :=
  entry "GitHub Copilot"
    (RouteString "https://svgl.app/library/copilot.svg") None.

End Sample.

Lemma nameMatches_spec (svg : iSVG) (name : string) :
  nameMatches svg name = true <->
  kebabName (title svg) = Str.toLowerCase name
  \/ Str.toLowerCase (title svg) = Str.toLowerCase name.
Proof.
  unfold nameMatches. now rewrite orb_true_iff, !String.eqb_eq.
Qed.

Lemma selectExact_spec (svgs : list iSVG) (args : list string) (svg : iSVG) :
  In svg (selectExact svgs args) <->
  In svg svgs /\ exists token, In token args /\ nameMatches svg token = true.
Proof.
  unfold selectExact, requestedNames.
  rewrite filter_In, existsb_exists. split.
  - intros (Hin & name & (token & <- & Htok)%in_map_iff & Hm).
    split; [assumption|]. exists token. split; [assumption|].
    apply nameMatches_spec. apply nameMatches_spec in Hm.
    now rewrite toLowerCase_idem in Hm.
  - intros (Hin & token & Htok & Hm). split; [assumption|].
    exists (Str.toLowerCase token). split; [now apply in_map|].
    apply nameMatches_spec. apply nameMatches_spec in Hm.
    now rewrite toLowerCase_idem.
Qed.

(** C3. In exact-match mode an icon of the catalog is selected exactly when
    some caller token, lower-cased, equals the icon's file slug or its
    lower-cased title.  The comparison is of whole strings: the token
    [github] selects the entry titled [GitHub] and leaves out the entry
    titled [GitHub Copilot]. *)
Theorem selectExact_slug_or_title :
  (forall (svgs : list iSVG) (args : list string) (svg : iSVG),
     In svg (selectExact svgs args) <->
     In svg svgs
     /\ exists token, In token args
        /\ (Str.toLowerCase token = kebabName (title svg)
            \/ Str.toLowerCase token = Str.toLowerCase (title svg)))
  /\ selectExact [Sample.github; Sample.copilot] ["github"] = [Sample.github]
  /\ selectExact [Sample.copilot; Sample.github] ["GITHUB"] = [Sample.github]
  /\ selectExact [Sample.copilot] ["github"] = [].
Proof.
  split; [|repeat split; vm_compute; reflexivity].
  intros svgs args svg. rewrite selectExact_spec.
  split; intros (Hin & token & Htok & H); (split; [assumption|]);
    exists token; (split; [assumption|]).
  - apply nameMatches_spec in H. destruct H; [left | right]; congruence.
  - apply nameMatches_spec. destruct H; [left | right]; congruence.
Qed.

(** The selection filter's test for one lower-cased token, over the whole
    catalog: some icon has the token as its file slug or as its lower-cased
    title. *)
Definition matchesCatalog (svgs : list iSVG) (token : string) : bool :=
  existsb
    (fun svg =>
       String.eqb (kebabName (title svg)) token
       || String.eqb (Str.toLowerCase (title svg)) token)
    svgs.

Lemma found_iff_matchesCatalog (svgs : list iSVG) (args : list string)
  (name : string) :
  In name (requestedNames args) ->
  existsb (fun foundName => String.eqb foundName (Str.toLowerCase name))
    (foundNames (selectExact svgs args))
  = matchesCatalog svgs name.
Proof.
  intros Hname.
  assert (Hlow : Str.toLowerCase name = name).
  { unfold requestedNames in Hname.
    apply in_map_iff in Hname as (token & <- & _). apply toLowerCase_idem. }
  rewrite Hlow. apply eq_true_iff_eq. unfold matchesCatalog, foundNames.
  rewrite !existsb_exists. split.
  - intros (f & (svg & Hsvg & Hf)%in_flat_map & ->%String.eqb_eq).
    apply filter_In in Hsvg as [Hsvg _]. exists svg. split; [assumption|].
    apply orb_true_iff. rewrite !String.eqb_eq.
    destruct Hf as [Hf | [Hf | []]]; auto.
  - intros (svg & Hsvg & [H | H]%orb_true_iff); apply String.eqb_eq in H.
    + exists (kebabName (title svg)). split; [|now apply String.eqb_eq].
      apply in_flat_map. exists svg. split; [|simpl; auto].
      apply filter_In. split; [assumption|]. apply existsb_exists.
      exists name. split; [assumption|]. apply nameMatches_spec.
      left. now rewrite Hlow.
    + exists (Str.toLowerCase (title svg)).
      split; [|now apply String.eqb_eq].
      apply in_flat_map. exists svg. split; [|simpl; auto].
      apply filter_In. split; [assumption|]. apply existsb_exists.
      exists name. split; [assumption|]. apply nameMatches_spec.
      right. now rewrite Hlow.
Qed.

(** C9. The reporting pass agrees with the selection filter: the names it
    reports as not found are the lower-cased tokens, in order, that match no
    icon of the catalog under the filter's slug-or-title equality; so a
    token is reported exactly when no catalog icon has it as file slug or
    lower-cased title. *)
Theorem notFound_agrees_with_filter (svgs : list iSVG) (args : list string) :
  notFound (selectExact svgs args) args
  = List.filter (fun token => negb (matchesCatalog svgs token))
      (List.map Str.toLowerCase args)
  /\ forall token,
       In token (notFound (selectExact svgs args) args) <->
       In token (List.map Str.toLowerCase args)
       /\ forall svg, In svg svgs ->
            kebabName (title svg) <> token
            /\ Str.toLowerCase (title svg) <> token.
Proof.
  assert (E : notFound (selectExact svgs args) args
              = List.filter (fun token => negb (matchesCatalog svgs token))
                  (List.map Str.toLowerCase args)).
  { unfold notFound. apply filter_ext_in. intros name Hname.
    now rewrite found_iff_matchesCatalog. }
  split; [exact E|]. intros token. rewrite E, filter_In.
  apply and_iff_compat_l. rewrite negb_true_iff.
  unfold matchesCatalog. split.
  - intros H svg Hsvg.
    assert (Hs : String.eqb (kebabName (title svg)) token
                 || String.eqb (Str.toLowerCase (title svg)) token = false).
    { destruct (String.eqb (kebabName (title svg)) token
                || String.eqb (Str.toLowerCase (title svg)) token) eqn:Es;
        [|reflexivity].
      rewrite <- H. symmetry. apply existsb_exists. eauto. }
    apply orb_false_iff in Hs as [H1 H2].
    now rewrite !String.eqb_neq in *.
  - intros H. apply not_true_iff_false. intros (svg & Hsvg & Hm)%existsb_exists.
    destruct (H svg Hsvg) as [H1 H2].
    apply orb_true_iff in Hm as [Hm | Hm]; apply String.eqb_eq in Hm; auto.
Qed.

(** ** C4: the markup sanitizer *)

(** A value of an attribute: no double quote inside. *)
Definition no_quote (v : string) : bool :=
  Str.forallb (fun c => negb (Char.eqb c Char.dquote)) v.

(** The text of the attribute [key] with the value [v]. *)
Definition attr (key v : string) : string :=
  Regex.attr_open key +:+ v +:+ String Char.dquote "".

(** [s] holds the attribute [key] with the value [v] between [pre] and
    [post]. *)
Definition attr_at (key s pre v post : string) : Prop :=
  s = pre +:+ Regex.attr_open key +:+ v +:+ String Char.dquote post
  /\ no_quote v = true.

(** The occurrence between [pre] and [post] is the leftmost one. *)
Definition first_attr (key s pre v post : string) : Prop :=
  attr_at key s pre v post
  /\ forall pre' v' post',
       attr_at key s pre' v' post' -> String.length pre <= String.length pre'.

(** [out] is [s] without its first attribute [key]; it is [s] when [s]
    holds no such attribute. *)
Definition without_first_attr (key s out : string) : Prop :=
  (exists pre v post, first_attr key s pre v post /\ out = pre +:+ post)
  \/ ((forall pre v post, ~ attr_at key s pre v post) /\ out = s).

Definition head_space (s : string) : bool :=
  match s with
  | String c _ => Char.is_space c
  | EmptyString => false
  end.

Fixpoint last_space (s : string) : bool :=
  match s with
  | EmptyString => false
  | String c EmptyString => Char.is_space c
  | String _ s' => last_space s'
  end.

Lemma after_quote_spec (r rest : string) :
  Regex.after_quote r = Some rest <->
  exists v, no_quote v = true /\ r = v +:+ String Char.dquote rest.
Proof.
  split.
  - induction r as [|c r IH]; simpl; [discriminate|].
    destruct (Char.eqb c Char.dquote) eqn:E.
    + intros [= ->]. apply char_eqb_eq in E. subst c. now exists "".
    + intros (v & Hv & ->)%IH. exists (String c v). split; [|reflexivity].
      unfold no_quote in *. simpl. now rewrite E, Hv.
  - intros (v & Hv & ->). induction v as [|c v IH]; simpl.
    + reflexivity.
    + unfold no_quote in Hv. simpl in Hv.
      apply andb_true_iff in Hv as [Hc%negb_true_iff Hv].
      rewrite Hc. now apply IH.
Qed.

Lemma attr_here_spec (key s rest : string) :
  Regex.attr_here key s = Some rest <-> exists v, attr_at key s "" v rest.
Proof.
  unfold Regex.attr_here, attr_at. split.
  - destruct (Str.strip_prefix (Regex.attr_open key) s) as [r|] eqn:E;
      [|discriminate].
    apply strip_prefix_spec in E. intros (v & Hv & ->)%after_quote_spec.
    exists v. now split.
  - intros (v & Hs & Hv). simpl in Hs. subst s.
    rewrite strip_prefix_app. apply after_quote_spec. now exists v.
Qed.

Lemma remove_attr_eq (key s : string) :
  Regex.remove_attr key s =
  match Regex.attr_here key s with
  | Some rest => rest
  | None =>
      match s with
      | EmptyString => EmptyString
      | String c s' => String c (Regex.remove_attr key s')
      end
  end.
Proof. destruct s; reflexivity. Qed.

Lemma attr_at_cons (key : string) (c : ascii) (s pre v post : string) :
  Regex.attr_here key (String c s) = None ->
  attr_at key (String c s) pre v post ->
  exists pre', pre = String c pre' /\ attr_at key s pre' v post.
Proof.
  intros Hnone H. destruct pre as [|c' pre].
  - assert (Hs : Regex.attr_here key (String c s) = Some post)
      by (apply attr_here_spec; eauto).
    congruence.
  - destruct H as [Hs Hv]. simpl in Hs. injection Hs as -> ->.
    exists pre. repeat split; assumption.
Qed.

Lemma remove_attr_spec (key s : string) :
  without_first_attr key s (Regex.remove_attr key s).
Proof.
  induction s as [|c s IH]; rewrite remove_attr_eq.
  - destruct (Regex.attr_here key "") as [rest|] eqn:E.
    + apply attr_here_spec in E as (v & Hv). left. exists "", v, rest.
      repeat split; [apply Hv.. | simpl; lia].
    + right. split; [|reflexivity]. intros [|c pre] v post H.
      * assert (Hs : Regex.attr_here key "" = Some post)
          by (apply attr_here_spec; eauto).
        congruence.
      * destruct H as [H _]. discriminate H.
  - destruct (Regex.attr_here key (String c s)) as [rest|] eqn:E.
    + apply attr_here_spec in E as (v & Hv). left. exists "", v, rest.
      repeat split; [apply Hv.. | simpl; lia].
    + destruct IH as [(pre & v & post & [Hat Hmin] & ->) | [Hno ->]].
      * left. exists (String c pre), v, post. split; [|reflexivity]. split.
        -- destruct Hat as [-> Hv]. now split.
        -- intros pre' v' post' H'.
           destruct (attr_at_cons _ _ _ _ _ _ E H') as (p & -> & Hp).
           simpl. apply Hmin in Hp. lia.
      * right. split; [|reflexivity]. intros pre v post H.
        destruct (attr_at_cons _ _ _ _ _ _ E H) as (p & -> & Hp).
        exact (Hno _ _ _ Hp).
Qed.

Lemma trimStart_spec (s : string) :
  exists lead,
    s = lead +:+ Str.trimStart s
    /\ Str.forallb Char.is_space lead = true
    /\ head_space (Str.trimStart s) = false.
Proof.
  induction s as [|c s (lead & Hs & Hl & Hh)]; [now exists ""|]. simpl.
  destruct (Char.is_space c) eqn:E.
  - exists (String c lead). simpl. rewrite E, Hl. now rewrite <- Hs.
  - now exists "".
Qed.

Lemma trimEnd_spec (s : string) :
  exists trail,
    s = Str.trimEnd s +:+ trail
    /\ Str.forallb Char.is_space trail = true
    /\ last_space (Str.trimEnd s) = false
    /\ head_space (Str.trimEnd s) = head_space s && negb (Str.is_empty (Str.trimEnd s)).
Proof.
  induction s as [|c s (trail & Hs & Ht & Hl & _)]; [now exists ""|]. simpl.
  destruct (Char.is_space c && Str.is_empty (Str.trimEnd s)) eqn:E.
  - apply andb_true_iff in E as [Ec Ee].
    destruct (Str.trimEnd s); [|discriminate]. simpl in Hs. subst s.
    exists (String c trail). simpl. now rewrite Ec, Ht, andb_false_r.
  - exists trail. split; [simpl; now rewrite <- Hs|].
    split; [assumption|]. split.
    + destruct (Str.trimEnd s) as [|c' r]; [|exact Hl].
      simpl. now rewrite andb_true_r in E.
    + simpl. now rewrite andb_true_r.
Qed.

Lemma trim_spec (s : string) :
  exists lead trail,
    s = lead +:+ Str.trim s +:+ trail
    /\ Str.forallb Char.is_space lead = true
    /\ Str.forallb Char.is_space trail = true
    /\ head_space (Str.trim s) = false
    /\ last_space (Str.trim s) = false.
Proof.
  destruct (trimStart_spec s) as (lead & Hs & Hl & Hh).
  destruct (trimEnd_spec (Str.trimStart s)) as (trail & Hs' & Ht & Hls & Hhs).
  exists lead, trail. unfold Str.trim.
  repeat split; [congruence | assumption.. | | assumption].
  now rewrite Hhs, Hh.
Qed.

(** What the helper removes, as text.  [extractSvgContent] trims white space
    from both ends of the markup, removes the leftmost text of the form
    width, equals sign, value between double quotes from the trimmed text,
    wherever that text stands, and then the leftmost such text for height
    from what is left; everything else, later occurrences included, is kept.
    On an [svg] element with width 24 and height 24 around a [path] element,
    neither attribute text is left and the [path] element is kept. *)
Lemma extractSvgContent_trims_and_removes_first :
  (forall svgString : string,
     exists lead trail stripped,
       svgString = lead +:+ Str.trim svgString +:+ trail
       /\ Str.forallb Char.is_space lead = true
       /\ Str.forallb Char.is_space trail = true
       /\ head_space (Str.trim svgString) = false
       /\ last_space (Str.trim svgString) = false
       /\ without_first_attr "width" (Str.trim svgString) stripped
       /\ without_first_attr "height" stripped (extractSvgContent svgString))
  /\ (let out :=
        extractSvgContent
          ("<svg " +:+ attr "width" "24" +:+ " " +:+ attr "height" "24"
           +:+ "><path/></svg>") in
      out = "<svg  ><path/></svg>"
      /\ Str.includes (attr "width" "24") out = false
      /\ Str.includes (attr "height" "24") out = false
      /\ Str.includes "<path/>" out = true)
  /\ extractSvgContent
       ("  <svg " +:+ attr "width" "1" +:+ " " +:+ attr "width" "2" +:+ ">
")
     = "<svg  " +:+ attr "width" "2" +:+ ">".
Proof.
  split; [|split; [repeat split|]; vm_compute; reflexivity].
  intros svgString.
  destruct (trim_spec svgString) as (lead & trail & Hs & Hl & Ht & Hh & Hls).
  exists lead, trail, (Regex.remove_attr "width" (Str.trim svgString)).
  repeat split; try assumption; apply remove_attr_spec.
Qed.


(** The sanitizer as the claim words it: what is removed is an attribute,
    that is a name that stands where an attribute starts (behind white
    space), an equals sign, and a value between two double quotes or two
    single quotes. *)
Module Claimed.

(** The text behind the first [q] of [s]. *)
Fixpoint after_char (q : ascii) (s : string) : option string :=
  match s with
  | EmptyString => None
  | String c s' => if Char.eqb c q then Some s' else after_char q s'
  end.

(** The attribute [key] at the head of [s]: the text behind it. *)
Definition attribute_here (key s : string) : option string :=
  match Str.strip_prefix (key +:+ "=") s with
  | Some (String q r) =>
      if Char.eqb q Char.dquote || Char.eqb q "'" then after_char q r
      else None
  | _ => None
  end.

(** [s] without its first attribute [key]; [after_space] tells that the
    previous character is white space. *)
Fixpoint removeAttribute (key : string) (after_space : bool) (s : string)
  : string :=
  match s with
  | EmptyString => EmptyString
  | String c s' =>
      match (if after_space then attribute_here key s else None) with
      | Some rest => rest
      | None => String c (removeAttribute key (Char.is_space c) s')
      end
  end.

(** Trimmed, and without the first fixed width and the first fixed height. *)
Definition sanitize (svgString : string) : string :=
  removeAttribute "height" false
    (removeAttribute "width" false (Str.trim svgString)).

End Claimed.

Lemma digit_is_plain (c : ascii) :
  Char.is_digit c = true ->
  Char.eqb "w" c = false /\ Char.eqb "h" c = false
  /\ Char.is_space c = false /\ Char.eqb c Char.dquote = false.
Proof. each_char c; intros H; try discriminate H; repeat split. Qed.

Lemma digits_no_quote (v : string) :
  Str.forallb Char.is_digit v = true -> no_quote v = true.
Proof.
  unfold no_quote. induction v as [|c v IH]; [reflexivity|]. simpl.
  intros [Hc Hv]%andb_true_iff.
  destruct (digit_is_plain c Hc) as (_ & _ & _ & ->). now apply IH.
Qed.

Lemma after_char_dquote (s : string) :
  Claimed.after_char Char.dquote s = Regex.after_quote s.
Proof. induction s as [|c s IH]; [reflexivity|]. simpl. now rewrite IH. Qed.

(** The two removals pass over a value of digits and the quote behind it. *)
Lemma remove_attr_digits (key v tail : string) :
  key = "width" \/ key = "height" ->
  Str.forallb Char.is_digit v = true ->
  Regex.remove_attr key (v +:+ String Char.dquote tail)
  = v +:+ String Char.dquote (Regex.remove_attr key tail).
Proof.
  intros Hk. induction v as [|c v IH].
  - intros _. destruct Hk as [-> | ->]; reflexivity.
  - intros [Hc Hv]%andb_true_iff.
    destruct (digit_is_plain c Hc) as (Hw & Hh & _).
    change (String c v +:+ String Char.dquote tail)
      with (String c (v +:+ String Char.dquote tail)).
    rewrite remove_attr_eq. unfold Regex.attr_here.
    destruct Hk as [-> | ->]; simpl Str.strip_prefix.
    + rewrite Hw. simpl. now rewrite IH.
    + rewrite Hh. simpl. now rewrite IH.
Qed.

Lemma removeAttribute_digits (key v tail : string) (b : bool) :
  key = "width" \/ key = "height" ->
  Str.forallb Char.is_digit v = true ->
  Claimed.removeAttribute key b (v +:+ String Char.dquote tail)
  = v +:+ String Char.dquote (Claimed.removeAttribute key false tail).
Proof.
  intros Hk. revert b. induction v as [|c v IH]; intros b.
  - intros _. destruct Hk as [-> | ->]; destruct b; reflexivity.
  - intros [Hc Hv]%andb_true_iff.
    destruct (digit_is_plain c Hc) as (Hw & Hh & Hs & _).
    change (String c v +:+ String Char.dquote tail)
      with (String c (v +:+ String Char.dquote tail)).
    assert (Hnone : Claimed.attribute_here key
                      (String c (v +:+ String Char.dquote tail)) = None).
    { unfold Claimed.attribute_here.
      destruct Hk as [-> | ->]; simpl Str.strip_prefix;
        [now rewrite Hw | now rewrite Hh]. }
    cbn [Claimed.removeAttribute]. rewrite Hnone, Hs.
    destruct b; simpl; now rewrite IH.
Qed.

Lemma after_quote_value (v rest : string) :
  no_quote v = true ->
  Regex.after_quote (v +:+ String Char.dquote rest) = Some rest.
Proof. intros Hv. apply after_quote_spec. now exists v. Qed.

Lemma remove_attr_here (key v tail : string) :
  no_quote v = true -> Regex.remove_attr key (attr key v +:+ tail) = tail.
Proof.
  intros Hv. rewrite remove_attr_eq.
  assert (H : Regex.attr_here key (attr key v +:+ tail) = Some tail).
  { apply attr_here_spec. exists v. split; [|assumption].
    unfold attr. now rewrite !str_app_assoc. }
  now rewrite H.
Qed.

Lemma attribute_here_value (key v tail : string) :
  no_quote v = true ->
  Claimed.attribute_here key (attr key v +:+ tail) = Some tail.
Proof.
  intros Hv. unfold Claimed.attribute_here, attr, Regex.attr_open.
  rewrite !str_app_assoc.
  change (String "=" (String Char.dquote "") +:+ v +:+ String Char.dquote ""
          +:+ tail)
    with ("=" +:+ String Char.dquote (v +:+ String Char.dquote tail)).
  rewrite <- str_app_assoc, strip_prefix_app.
  change (Char.eqb Char.dquote Char.dquote || Char.eqb Char.dquote "'")
    with true.
  cbv iota. rewrite after_char_dquote. now apply after_quote_value.
Qed.

Lemma removeAttribute_here (key v tail : string) :
  no_quote v = true ->
  Claimed.removeAttribute key true (attr key v +:+ tail) = tail.
Proof.
  intros Hv. pose proof (attribute_here_value key v tail Hv) as H.
  destruct (attr key v +:+ tail) as [|c s] eqn:E.
  - apply (f_equal String.length) in E. unfold attr, Regex.attr_open in E.
    rewrite !str_length_app in E. simpl in E. lia.
  - cbn [Claimed.removeAttribute]. now rewrite H.
Qed.

(** The helper, on an element that carries stroke-width before width. *)
Lemma remove_width_behind_stroke (v w rest : string) :
  Str.forallb Char.is_digit v = true ->
  Str.forallb Char.is_digit w = true ->
  Regex.remove_attr "height"
    (Regex.remove_attr "width"
       ("<svg stroke-" +:+ attr "width" v +:+ " " +:+ attr "width" w
        +:+ rest))
  = "<svg stroke- " +:+ attr "width" w +:+ Regex.remove_attr "height" rest.
Proof.
  intros Hv Hw.
  change (Regex.remove_attr "width"
            ("<svg stroke-" +:+ attr "width" v +:+ " " +:+ attr "width" w
             +:+ rest))
    with ("<svg stroke-"
          +:+ Regex.remove_attr "width"
                (attr "width" v +:+ " " +:+ attr "width" w +:+ rest)).
  rewrite remove_attr_here by now apply digits_no_quote.
  unfold attr, Regex.attr_open. rewrite !str_app_assoc.
  change (Regex.remove_attr "height"
            ("<svg stroke-" +:+ " " +:+ "width"
             +:+ String "=" (String Char.dquote "") +:+ w
             +:+ String Char.dquote "" +:+ rest))
    with ("<svg stroke- width="
          +:+ String Char.dquote
                (Regex.remove_attr "height" (w +:+ String Char.dquote rest))).
  rewrite (remove_attr_digits "height" w rest (or_intror eq_refl) Hw).
  reflexivity.
Qed.

(** The sanitizer of the claim, on the same element. *)
Lemma removeAttribute_behind_stroke (v w rest : string) :
  Str.forallb Char.is_digit v = true ->
  Str.forallb Char.is_digit w = true ->
  Claimed.removeAttribute "height" false
    (Claimed.removeAttribute "width" false
       ("<svg stroke-" +:+ attr "width" v +:+ " " +:+ attr "width" w
        +:+ rest))
  = "<svg stroke-" +:+ attr "width" v +:+ " "
    +:+ Claimed.removeAttribute "height" true rest.
Proof.
  intros Hv Hw.
  unfold attr at 1, Regex.attr_open at 1. rewrite !str_app_assoc.
  change (Claimed.removeAttribute "width" false
            ("<svg stroke-" +:+ "width"
             +:+ String "=" (String Char.dquote "") +:+ v
             +:+ String Char.dquote "" +:+ " " +:+ attr "width" w +:+ rest))
    with ("<svg stroke-width="
          +:+ String Char.dquote
                (Claimed.removeAttribute "width" false
                   (v +:+ String Char.dquote
                            (" " +:+ attr "width" w +:+ rest)))).
  rewrite (removeAttribute_digits "width" v _ false (or_introl eq_refl) Hv).
  change (Claimed.removeAttribute "width" false
            (" " +:+ attr "width" w +:+ rest))
    with (String " "
            (Claimed.removeAttribute "width" true (attr "width" w +:+ rest))).
  rewrite (removeAttribute_here "width" w rest (digits_no_quote w Hw)).
  change (Claimed.removeAttribute "height" false
            ("<svg stroke-width="
             +:+ String Char.dquote
                   (v +:+ String Char.dquote (String " " rest))))
    with ("<svg stroke-width="
          +:+ String Char.dquote
                (Claimed.removeAttribute "height" false
                   (v +:+ String Char.dquote (String " " rest)))).
  rewrite (removeAttribute_digits "height" v _ false (or_intror eq_refl) Hv).
  unfold attr, Regex.attr_open. rewrite !str_app_assoc. reflexivity.
Qed.

(** C4, the defect.  The pattern of the helper is not anchored where an
    attribute starts.  In markup whose [svg] element carries the attributes
    stroke-width and width, in this order and with values of digits, the
    first replacement takes the tail of stroke-width for the fixed width:
    the helper returns the markup with the attribute stroke-width cut down
    to its first seven characters and with the attribute width in place.
    The sanitizer of the claim removes the attribute width and keeps
    stroke-width, so the two results differ. *)
Theorem extractSvgContent_removes_text_inside_a_name
  (svgString v w rest : string) :
  Str.forallb Char.is_digit v = true ->
  Str.forallb Char.is_digit w = true ->
  Str.trim svgString
  = "<svg stroke-" +:+ attr "width" v +:+ " " +:+ attr "width" w +:+ rest ->
  extractSvgContent svgString
  = "<svg stroke- " +:+ attr "width" w +:+ Regex.remove_attr "height" rest
  /\ Claimed.sanitize svgString
     = "<svg stroke-" +:+ attr "width" v +:+ " "
       +:+ Claimed.removeAttribute "height" true rest
  /\ extractSvgContent svgString <> Claimed.sanitize svgString.
Proof.
  intros Hv Hw Htrim.
  assert (E1 : extractSvgContent svgString
               = "<svg stroke- " +:+ attr "width" w
                 +:+ Regex.remove_attr "height" rest).
  { unfold extractSvgContent. rewrite Htrim.
    now apply remove_width_behind_stroke. }
  assert (E2 : Claimed.sanitize svgString
               = "<svg stroke-" +:+ attr "width" v +:+ " "
                 +:+ Claimed.removeAttribute "height" true rest).
  { unfold Claimed.sanitize. rewrite Htrim.
    now apply removeAttribute_behind_stroke. }
  split; [exact E1|]. split; [exact E2|].
  rewrite E1, E2. unfold attr, Regex.attr_open. simpl. intros H.
  discriminate H.
Qed.

(** An element with stroke-width 2, width 10 and height 10: the helper
    leaves the width and cuts into stroke-width.  Values between single
    quotes are left in place.  On the element of the claim, with width 24
    and height 24 between double quotes, the helper and the sanitizer of
    the claim agree. *)
Lemma extractSvgContent_removes_text_inside_a_name_witness :
  let svgString :=
    "  <svg stroke-" +:+ attr "width" "2" +:+ " " +:+ attr "width" "10"
    +:+ " " +:+ attr "height" "10" +:+ "><path/></svg>
" in
  extractSvgContent svgString
  = "<svg stroke- " +:+ attr "width" "10" +:+ " ><path/></svg>"
  /\ Claimed.sanitize svgString
     = "<svg stroke-" +:+ attr "width" "2" +:+ "  ><path/></svg>"
  /\ extractSvgContent svgString <> Claimed.sanitize svgString
  /\ extractSvgContent "<svg width='24' height='24'><path/></svg>"
     = "<svg width='24' height='24'><path/></svg>"
  /\ Claimed.sanitize "<svg width='24' height='24'><path/></svg>"
     = "<svg  ><path/></svg>"
  /\ extractSvgContent
       ("<svg " +:+ attr "width" "24" +:+ " " +:+ attr "height" "24"
        +:+ "><path/></svg>")
     = Claimed.sanitize
         ("<svg " +:+ attr "width" "24" +:+ " " +:+ attr "height" "24"
          +:+ "><path/></svg>").
Proof.
  intros svgString.
  destruct (extractSvgContent_removes_text_inside_a_name svgString "2" "10"
              (" " +:+ attr "height" "10" +:+ "><path/></svg>")
              eq_refl eq_refl ltac:(vm_compute; reflexivity))
    as (_ & _ & Hdiff).
  split; [vm_compute; reflexivity|]. split; [vm_compute; reflexivity|].
  split; [exact Hdiff|]. repeat split; vm_compute; reflexivity.
Defined.

(** ** The generator, one descriptor at a time *)

(** What a computation that leaves the state alone returns. *)
Definition outcome {A : Type} (m : M A) : Outcome A := fst (m (initial ∅)).

Lemma fetchMarkup_pure (env : Env) (locator : string) (s : State) :
  fetchMarkup env locator s = (outcome (fetchMarkup env locator), s).
Proof.
  unfold outcome, fetchMarkup, bind, await, ret.
  now destruct (axiosGet env locator).
Qed.

Lemma componentContent_pure (env : Env) (cname : string) (r : Route)
  (s : State) :
  componentContent env cname r s = (outcome (componentContent env cname r), s).
Proof.
  unfold outcome, componentContent, bind. destruct r as [u|t].
  - rewrite (fetchMarkup_pure env u s), (fetchMarkup_pure env u (initial ∅)).
    now destruct (outcome (fetchMarkup env u)).
  - rewrite (fetchMarkup_pure env (light t) s),
      (fetchMarkup_pure env (light t) (initial ∅)).
    destruct (outcome (fetchMarkup env (light t))); [|reflexivity].
    rewrite (fetchMarkup_pure env (dark t) s),
      (fetchMarkup_pure env (dark t) (initial ∅)).
    now destruct (outcome (fetchMarkup env (dark t))).
Qed.

Lemma wordmarkContent_pure (env : Env) (cname : string) (w : Route)
  (s : State) :
  wordmarkContent env cname w s = (outcome (wordmarkContent env cname w), s).
Proof.
  unfold outcome, wordmarkContent, bind. destruct w as [u|t].
  - rewrite (fetchMarkup_pure env u s), (fetchMarkup_pure env u (initial ∅)).
    now destruct (outcome (fetchMarkup env u)).
  - rewrite (fetchMarkup_pure env (light t) s),
      (fetchMarkup_pure env (light t) (initial ∅)).
    destruct (outcome (fetchMarkup env (light t))); [|reflexivity].
    rewrite (fetchMarkup_pure env (dark t) s),
      (fetchMarkup_pure env (dark t) (initial ∅)).
    now destruct (outcome (fetchMarkup env (dark t))).
Qed.

(** The state behind the base component of [svg]: its file written, the
    spinner updated, its record pushed. *)
Definition withBase (svg : iSVG) (content : string) (s : State) : State :=
  {| dir := <[kebabName (title svg) +:+ ".tsx" := content]> (dir s);
     createdComponents := createdComponents s ++ [baseRecord svg];
     console :=
       console s
       ++ [SpinnerText ("Created: " +:+ kebabName (title svg) +:+ ".tsx")] |}.

(** The state behind the wordmark [w] of [svg]. *)
Definition withWordmark (svg : iSVG) (w : Route) (content : string)
  (s : State) : State :=
  {| dir :=
       <[(kebabName (title svg) +:+ "-wordmark") +:+ ".tsx" := content]> (dir s);
     createdComponents := createdComponents s ++ [wordmarkRecord svg w];
     console :=
       console s
       ++ [SpinnerText
             ("Created: " +:+ (kebabName (title svg) +:+ "-wordmark")
              +:+ ".tsx")] |}.

(** The state behind the [catch] of one iteration. *)
Definition withFailure (svg : iSVG) (error : string) (s : State) : State :=
  {| dir := dir s;
     createdComponents := createdComponents s;
     console :=
       console s
       ++ [ConsoleError
             ("Failed to create component for " +:+ title svg +:+ ": "
              +:+ error)] |}.

Lemma createComponent_fetch_fails (env : Env) (svg : iSVG) (s : State)
  (e : string) :
  outcome (componentContent env (componentName svg) (route svg)) = Thrown e ->
  createComponent env svg s = (Thrown e, s).
Proof.
  intros H. unfold createComponent, bind.
  now rewrite componentContent_pure, H.
Qed.

Lemma createComponent_write_fails (env : Env) (svg : iSVG) (s : State)
  (content e : string) :
  outcome (componentContent env (componentName svg) (route svg))
  = Done content ->
  writeError env (kebabName (title svg) +:+ ".tsx") = Some e ->
  createComponent env svg s = (Thrown e, s).
Proof.
  intros H Hw. unfold createComponent, bind, writeFile.
  now rewrite componentContent_pure, H, Hw.
Qed.

Lemma createComponent_base (env : Env) (svg : iSVG) (s : State)
  (content : string) :
  outcome (componentContent env (componentName svg) (route svg))
  = Done content ->
  writeError env (kebabName (title svg) +:+ ".tsx") = None ->
  createComponent env svg s = createWordmark env svg (withBase svg content s).
Proof.
  intros H Hw. unfold createComponent, bind, writeFile, emit, push.
  now rewrite componentContent_pure, H, Hw.
Qed.

Lemma createWordmark_absent (env : Env) (svg : iSVG) (s : State) :
  truthy (wordmark svg) = false -> createWordmark env svg s = (Done tt, s).
Proof.
  intros H. unfold createWordmark. rewrite H. now destruct (wordmark svg).
Qed.

Lemma createWordmark_fetch_fails (env : Env) (svg : iSVG) (w : Route)
  (s : State) (e : string) :
  wordmark svg = Some w -> truthy (wordmark svg) = true ->
  outcome (wordmarkContent env (componentName svg) w) = Thrown e ->
  createWordmark env svg s = (Thrown e, s).
Proof.
  intros Hw Ht H. unfold createWordmark, bind. rewrite Ht, Hw.
  now rewrite wordmarkContent_pure, H.
Qed.

Lemma createWordmark_write_fails (env : Env) (svg : iSVG) (w : Route)
  (s : State) (content e : string) :
  wordmark svg = Some w -> truthy (wordmark svg) = true ->
  outcome (wordmarkContent env (componentName svg) w) = Done content ->
  writeError env ((kebabName (title svg) +:+ "-wordmark") +:+ ".tsx")
  = Some e ->
  createWordmark env svg s = (Thrown e, s).
Proof.
  intros Hw Ht H He. unfold createWordmark, bind, writeFile. rewrite Ht, Hw.
  now rewrite wordmarkContent_pure, H, He.
Qed.

Lemma createWordmark_written (env : Env) (svg : iSVG) (w : Route)
  (s : State) (content : string) :
  wordmark svg = Some w -> truthy (wordmark svg) = true ->
  outcome (wordmarkContent env (componentName svg) w) = Done content ->
  writeError env ((kebabName (title svg) +:+ "-wordmark") +:+ ".tsx") = None ->
  createWordmark env svg s = (Done tt, withWordmark svg w content s).
Proof.
  intros Hw Ht H He. unfold createWordmark, bind, writeFile, emit, push.
  rewrite Ht, Hw. now rewrite wordmarkContent_pure, H, He.
Qed.

Lemma processSVG_done (env : Env) (svg : iSVG) (s : State) :
  fst (processSVG env svg s) = Done tt.
Proof.
  unfold processSVG, tryCatch.
  now destruct (createComponent env svg s) as [[[]|e] s'].
Qed.

Lemma processSVG_caught (env : Env) (svg : iSVG) (s s' : State) (e : string) :
  createComponent env svg s = (Thrown e, s') ->
  processSVG env svg s = (Done tt, withFailure svg e s').
Proof. intros H. unfold processSVG, tryCatch. now rewrite H. Qed.

Lemma processSVG_completed (env : Env) (svg : iSVG) (s s' : State) :
  createComponent env svg s = (Done tt, s') ->
  processSVG env svg s = (Done tt, s').
Proof. intros H. unfold processSVG, tryCatch. now rewrite H. Qed.

(** ** The text of the emitted components *)

(** The declaration of the exported component: its symbol and the defaults
    of its [width] and [height] props. *)
Definition signature (symbol width height : string) : string :=
  "export const " +:+ symbol +:+ ": React.FC<" +:+ symbol +:+ "Props> = ({
  className,
  width = " +:+ width +:+ ",
  height = " +:+ height +:+ ",
  ...props
}) => {".

(** The props interface of [symbol]. *)
Definition propsInterface (symbol : string) : string :=
  "interface " +:+ symbol +:+ "Props {
  className?: string;
  width?: number | string;
  height?: number | string;
}

".

Definition singleContent_imports : string :=
  "import React from 'react';

".

Definition singleContent_body (m : string) : string :=
  "
  return (
    " +:+ injectProps m +:+ "
  );
};
".

Lemma singleContent_shape (cname m : string) :
  singleContent cname m
  = singleContent_imports +:+ propsInterface cname
    +:+ signature cname "24" "24" +:+ singleContent_body m.
Proof.
  unfold singleContent, singleContent_imports, propsInterface, signature, singleContent_body.
  rewrite !str_app_assoc. reflexivity.
Qed.

Definition themedContent_imports : string :=
  "import React, { useEffect, useState } from 'react';
import { useTheme } from 'next-themes';

".

Definition themedContent_body (d l : string) : string :=
  "
  const { resolvedTheme } = useTheme();
  // Add client-side only rendering to avoid hydration mismatch
  const [mounted, setMounted] = useState(false);
  
  useEffect(() => {
    setMounted(true);
  }, []);
  
  // During SSR and initial client render, default to light theme
  const isDark = mounted && resolvedTheme === 'dark';

  return isDark ? (
    " +:+ injectPropsLines d +:+ "
  ) : (
    " +:+ injectPropsLines l +:+ "
  );
};
".

Lemma themedContent_shape (cname d l : string) :
  themedContent cname d l
  = themedContent_imports +:+ propsInterface cname
    +:+ signature cname "24" "24" +:+ themedContent_body d l.
Proof.
  unfold themedContent, themedContent_imports, propsInterface, signature, themedContent_body.
  rewrite !str_app_assoc. reflexivity.
Qed.

Definition wordmarkSingleContent_imports : string :=
  "import React from 'react';

".

Definition wordmarkSingleContent_body (m : string) : string :=
  "
  return (
    " +:+ injectProps m +:+ "
  );
};
".

Lemma wordmarkSingleContent_shape (cname m : string) :
  wordmarkSingleContent cname m
  = wordmarkSingleContent_imports +:+ propsInterface (cname +:+ "Wordmark")
    +:+ signature (cname +:+ "Wordmark") "100" "24" +:+ wordmarkSingleContent_body m.
Proof.
  unfold wordmarkSingleContent, wordmarkSingleContent_imports, propsInterface, signature, wordmarkSingleContent_body.
  rewrite !str_app_assoc. reflexivity.
Qed.

Definition wordmarkThemedContent_imports : string :=
  "import React from 'react';
import { useTheme } from 'next-themes';

".

Definition wordmarkThemedContent_body (d l : string) : string :=
  "
  const { resolvedTheme } = useTheme();
  const isDark = resolvedTheme === 'dark';

  return isDark ? (
    " +:+ injectProps d +:+ "
  ) : (
    " +:+ injectProps l +:+ "
  );
};
".

Lemma wordmarkThemedContent_shape (cname d l : string) :
  wordmarkThemedContent cname d l
  = wordmarkThemedContent_imports +:+ propsInterface (cname +:+ "Wordmark")
    +:+ signature (cname +:+ "Wordmark") "100" "24" +:+ wordmarkThemedContent_body d l.
Proof.
  unfold wordmarkThemedContent, wordmarkThemedContent_imports, propsInterface, signature, wordmarkThemedContent_body.
  rewrite !str_app_assoc. reflexivity.
Qed.

Lemma includes_eq (p s : string) :
  Str.includes p s =
  Str.startsWith p s
  || match s with
     | EmptyString => false
     | String _ s' => Str.includes p s'
     end.
Proof. destruct s; reflexivity. Qed.

Lemma includes_app (p pre post : string) :
  Str.includes p (pre +:+ p +:+ post) = true.
Proof.
  induction pre as [|c pre IH]; rewrite includes_eq.
  - simpl. unfold Str.startsWith. now rewrite strip_prefix_app.
  - simpl. rewrite IH. apply orb_true_r.
Qed.

Lemma componentContent_signature (env : Env) (cname : string) (r : Route)
  (content : string) :
  outcome (componentContent env cname r) = Done content ->
  Str.includes (signature cname "24" "24") content = true.
Proof.
  unfold outcome, componentContent, bind, ret. destruct r as [u|t].
  - rewrite fetchMarkup_pure.
    destruct (outcome (fetchMarkup env u)); [|discriminate].
    intros [= <-]. rewrite singleContent_shape, <- str_app_assoc.
    apply includes_app.
  - rewrite fetchMarkup_pure.
    destruct (outcome (fetchMarkup env (light t))); [|discriminate].
    rewrite fetchMarkup_pure.
    destruct (outcome (fetchMarkup env (dark t))); [|discriminate].
    intros [= <-]. rewrite themedContent_shape, <- str_app_assoc.
    apply includes_app.
Qed.

Lemma wordmarkContent_signature (env : Env) (cname : string) (w : Route)
  (content : string) :
  outcome (wordmarkContent env cname w) = Done content ->
  Str.includes (signature (cname +:+ "Wordmark") "100" "24") content = true.
Proof.
  unfold outcome, wordmarkContent, bind, ret. destruct w as [u|t].
  - rewrite fetchMarkup_pure.
    destruct (outcome (fetchMarkup env u)); [|discriminate].
    intros [= <-]. rewrite wordmarkSingleContent_shape, <- str_app_assoc.
    apply includes_app.
  - rewrite fetchMarkup_pure.
    destruct (outcome (fetchMarkup env (light t))); [|discriminate].
    rewrite fetchMarkup_pure.
    destruct (outcome (fetchMarkup env (dark t))); [|discriminate].
    intros [= <-]. rewrite wordmarkThemedContent_shape, <- str_app_assoc.
    apply includes_app.
Qed.

Lemma wordmark_file_differs (slug : string) :
  slug +:+ ".tsx" <> (slug +:+ "-wordmark") +:+ ".tsx".
Proof.
  rewrite str_app_assoc. intros H.
  apply (inj (String.app slug)) in H. discriminate H.
Qed.

(** ** Sample worlds *)

Module World.

Definition markup : string :=
  "<svg " +:+ attr "width" "24" +:+ " " +:+ attr "height" "24"
  +:+ "><path/></svg>".

(** An icon with a single route and a themed wordmark. *)
Definition acme : iSVG :=
  Sample.entry "Acme Corp" (RouteString "acme.svg")
    (Some (RouteTheme {| dark := "acme-wordmark-dark.svg";
                         light := "acme-wordmark-light.svg" |})).

(** An icon with a light/dark route. *)
Definition duo : iSVG :=
  Sample.entry "Duo" (RouteTheme {| dark := "duo-dark.svg";
                                    light := "duo-light.svg" |}) None.

(** Two icons with different file slugs and the same symbol name. *)
Definition spaced : iSVG := Sample.entry "A B" (RouteString "a-b.svg") None.
Definition joined : iSVG := Sample.entry "AB" (RouteString "ab.svg") None.

Definition catalog : list iSVG :=
  [Sample.github; Sample.copilot; acme; duo; spaced; joined].

(** Every request and every write succeeds. *)
Definition online : Env :=
  {| api := Resolved (Some catalog);
     axiosGet := fun _ => Resolved markup;
     writeError := fun _ => None;
     prompt := fun _ => [] |}.

(** The catalog cannot be fetched. *)
Definition offline : Env :=
  {| api := Rejected "Error: connect ECONNREFUSED";
     axiosGet := fun _ => Rejected "Error: connect ECONNREFUSED";
     writeError := fun _ => None;
     prompt := fun _ => catalog |}.

(** The dark wordmark of [acme] and the markup of [github] are missing. *)
Definition flaky : Env :=
  {| api := Resolved (Some catalog);
     axiosGet := fun locator =>
       if String.eqb locator "acme-wordmark-dark.svg"
          || String.eqb locator "https://svgl.app/library/github.svg"
       then Rejected "AxiosError: Request failed with status code 404"
       else Resolved markup;
     writeError := fun _ => None;
     prompt := fun _ => [] |}.

End World.

(** ** C8: no catalog, no files *)

(** C8. When the request for the catalog fails, or answers with no list or
    an empty list, the command prints one error, leaves the component
    directory as it was, and neither the name tokens nor the prompt are
    consulted: the outcome is the same for every argument list and every
    environment with the same catalog answer. *)
Theorem add_stops_without_catalog (env : Env) (args : option (list string))
  (d : gmap string string) :
  (exists e, api env = Rejected e)
  \/ api env = Resolved None \/ api env = Resolved (Some []) ->
  dir (run env args d) = d
  /\ createdComponents (run env args d) = []
  /\ ((exists e,
         api env = Rejected e
         /\ console (run env args d)
            = [SpinnerStart "Fetching SVGs...";
               ConsoleError ("Failed to fetch or process SVGs: " +:+ e)])
      \/ console (run env args d)
         = [SpinnerStart "Fetching SVGs..."; SpinnerStop;
            ConsoleError "No SVGs found in the repository."])
  /\ forall env' args', api env' = api env -> run env' args' d = run env args d.
Proof.
  intros H. unfold run, add, tryCatch, bind, emit, await, initial.
  destruct H as [[e H] | [H | H]].
  - rewrite H. simpl. repeat split; [left; eauto|].
    intros env' args' Heq. now rewrite Heq.
  - rewrite H. simpl. repeat split; [now right|].
    intros env' args' Heq. now rewrite Heq.
  - rewrite H. simpl. repeat split; [now right|].
    intros env' args' Heq. now rewrite Heq.
Qed.

Lemma add_stops_without_catalog_witness :
  dir (run World.offline (Some ["github"]) ∅) = ∅
  /\ createdComponents (run World.offline (Some ["github"]) ∅) = []
  /\ ((exists e,
         api World.offline = Rejected e
         /\ console (run World.offline (Some ["github"]) ∅)
            = [SpinnerStart "Fetching SVGs...";
               ConsoleError ("Failed to fetch or process SVGs: " +:+ e)])
      \/ console (run World.offline (Some ["github"]) ∅)
         = [SpinnerStart "Fetching SVGs..."; SpinnerStop;
            ConsoleError "No SVGs found in the repository."])
  /\ forall env' args',
       api env' = api World.offline ->
       run env' args' ∅ = run World.offline (Some ["github"]) ∅.
Proof.
  apply (add_stops_without_catalog World.offline (Some ["github"]) ∅).
  left. exists "Error: connect ECONNREFUSED". reflexivity.
Defined.

(** ** The loop as a whole *)

(** [s'] comes after [s] in a run: the tracking array grew at its end and
    no file of the directory went away. *)
Definition grows (s s' : State) : Prop :=
  (exists more, createdComponents s' = createdComponents s ++ more)
  /\ forall file, is_Some (dir s !! file) -> is_Some (dir s' !! file).

Lemma grows_refl (s : State) : grows s s.
Proof. split; [exists []; now rewrite app_nil_r | auto]. Qed.

Lemma grows_trans (s1 s2 s3 : State) : grows s1 s2 -> grows s2 s3 -> grows s1 s3.
Proof.
  intros [[m1 H1] F1] [[m2 H2] F2]. split; [|auto].
  exists (m1 ++ m2). now rewrite H2, H1, app_assoc.
Qed.

Lemma grows_withBase (svg : iSVG) (content : string) (s : State) :
  grows s (withBase svg content s).
Proof.
  split; [now exists [baseRecord svg]|]. intros file H. simpl.
  apply lookup_insert_is_Some'. now right.
Qed.

Lemma grows_withWordmark (svg : iSVG) (w : Route) (content : string)
  (s : State) :
  grows s (withWordmark svg w content s).
Proof.
  split; [now exists [wordmarkRecord svg w]|]. intros file H. simpl.
  apply lookup_insert_is_Some'. now right.
Qed.

Lemma grows_withFailure (svg : iSVG) (e : string) (s : State) :
  grows s (withFailure svg e s).
Proof. split; [exists []; simpl; now rewrite app_nil_r | auto]. Qed.

(** The four ways one iteration can end. *)
Lemma processSVG_cases (env : Env) (svg : iSVG) (s : State) :
  (exists e, processSVG env svg s = (Done tt, withFailure svg e s))
  \/ (exists content,
        processSVG env svg s = (Done tt, withBase svg content s))
  \/ (exists content e,
        processSVG env svg s
        = (Done tt, withFailure svg e (withBase svg content s)))
  \/ (exists content w wcontent,
        processSVG env svg s
        = (Done tt, withWordmark svg w wcontent (withBase svg content s))).
Proof.
  destruct (outcome (componentContent env (componentName svg) (route svg)))
    as [content|e] eqn:Hc.
  2:{ left. exists e. apply processSVG_caught.
      now apply createComponent_fetch_fails. }
  destruct (writeError env (kebabName (title svg) +:+ ".tsx")) as [e|] eqn:Hw.
  { left. exists e. apply processSVG_caught.
    eapply createComponent_write_fails; eassumption. }
  right. pose proof (createComponent_base env svg s content Hc Hw) as Hb.
  destruct (truthy (wordmark svg)) eqn:Ht.
  2:{ left. exists content. apply processSVG_completed. rewrite Hb.
      now apply createWordmark_absent. }
  right. destruct (wordmark svg) as [w|] eqn:Hwm; [|discriminate Ht].
  destruct (outcome (wordmarkContent env (componentName svg) w))
    as [wcontent|e] eqn:Hwc.
  2:{ left. exists content, e. apply processSVG_caught. rewrite Hb.
      eapply createWordmark_fetch_fails; eauto; now rewrite Hwm. }
  destruct (writeError env
              ((kebabName (title svg) +:+ "-wordmark") +:+ ".tsx"))
    as [e|] eqn:Hww.
  { left. exists content, e. apply processSVG_caught. rewrite Hb.
    eapply createWordmark_write_fails; eauto; now rewrite Hwm. }
  right. exists content, w, wcontent. apply processSVG_completed. rewrite Hb.
  eapply createWordmark_written; eauto; now rewrite Hwm.
Qed.

Lemma processSVG_grows (env : Env) (svg : iSVG) (s : State) :
  grows s (snd (processSVG env svg s)).
Proof.
  destruct (processSVG_cases env svg s)
    as [[e ->] | [[c ->] | [(c & e & ->) | (c & w & wc & ->)]]]; simpl.
  - apply grows_withFailure.
  - apply grows_withBase.
  - eapply grows_trans; [apply grows_withBase | apply grows_withFailure].
  - eapply grows_trans; [apply grows_withBase | apply grows_withWordmark].
Qed.

Lemma forEach_cons (env : Env) (svg : iSVG) (rest : list iSVG) (s : State) :
  forEach (svg :: rest) (processSVG env) s
  = forEach rest (processSVG env) (snd (processSVG env svg s)).
Proof.
  simpl. unfold bind. pose proof (processSVG_done env svg s) as H.
  now destruct (processSVG env svg s) as [[[]|e] s'].
Qed.

Lemma forEach_done (env : Env) (l : list iSVG) (s : State) :
  fst (forEach l (processSVG env) s) = Done tt.
Proof.
  revert s. induction l as [|svg l IH]; intros s; [reflexivity|].
  rewrite forEach_cons. apply IH.
Qed.

Lemma forEach_app (env : Env) (l1 l2 : list iSVG) (s : State) :
  forEach (l1 ++ l2) (processSVG env) s
  = forEach l2 (processSVG env) (snd (forEach l1 (processSVG env) s)).
Proof.
  revert s. induction l1 as [|svg l1 IH]; intros s; [reflexivity|].
  rewrite <- app_comm_cons, !forEach_cons. apply IH.
Qed.

Lemma forEach_grows (env : Env) (l : list iSVG) (s : State) :
  grows s (snd (forEach l (processSVG env) s)).
Proof.
  revert s. induction l as [|svg l IH]; intros s; [apply grows_refl|].
  rewrite forEach_cons.
  eapply grows_trans; [apply processSVG_grows | apply IH].
Qed.

(** The state in which the loop starts. *)
Definition loopStart (s : State) : State :=
  {| dir := dir s;
     createdComponents := [];
     console := console s ++ [SpinnerStart "Creating React components..."] |}.

Lemma createAll_eq (env : Env) (selectedSVGs : list iSVG) (s : State) :
  createAll env selectedSVGs s
  = forEach selectedSVGs (processSVG env) (loopStart s).
Proof. reflexivity. Qed.

Lemma createAll_done (env : Env) (selectedSVGs : list iSVG) (s : State) :
  fst (createAll env selectedSVGs s) = Done tt.
Proof. rewrite createAll_eq. apply forEach_done. Qed.

(** ** The scan of the component directory *)

(** A file the scan looks at: [file.endsWith('.tsx') && file !== 'index.tsx']. *)
Definition eligible (file : string) : bool :=
  Str.endsWith ".tsx" file && negb (String.eqb file "index.tsx").

(** [file.replace('.tsx', '')] *)
Definition slugOf (file : string) : string := Str.replace_first ".tsx" "" file.

(** The record the scan adds for a file with the content [fileContent]
    and the exported symbol [exported]. *)
Definition scannedRecord (file fileContent exported : string) : Component :=
  {| name := exported;
     fileName := slugOf file;
     hasDarkLight := Str.includes "useTheme" fileContent;
     isWordmark := Some (Str.includes "-wordmark" (slugOf file)) |}.

(** What one iteration of the scan makes of [allComponents], in the
    directory [d]. *)
Definition scanStep (d : gmap string string) (allComponents : list Component)
  (file : string) : list Component :=
  if eligible file then
    match List.find (fun comp => String.eqb (fileName comp) (slugOf file))
            allComponents with
    | Some _ => allComponents
    | None =>
        match d !! file with
        | Some fileContent =>
            match Regex.match_export fileContent with
            | Some exported =>
                if negb (Str.is_empty exported)
                then allComponents ++ [scannedRecord file fileContent exported]
                else allComponents
            | None => allComponents
            end
        | None => allComponents
        end
    end
  else allComponents.

Lemma scanFile_pure (allComponents : list Component) (file : string)
  (s : State) :
  is_Some (dir s !! file) ->
  scanFile allComponents file s
  = (Done (scanStep (dir s) allComponents file), s).
Proof.
  intros [content Hc]. unfold scanFile, scanStep, eligible, slugOf.
  destruct (Str.endsWith ".tsx" file && negb (String.eqb file "index.tsx"));
    [|reflexivity].
  destruct (List.find _ allComponents); [reflexivity|].
  unfold bind, readFile, ret. rewrite Hc.
  destruct (Regex.match_export content) as [exported|]; [|reflexivity].
  now destruct (negb (Str.is_empty exported)).
Qed.

Lemma foldM_scanFile (files : list string) (allComponents : list Component)
  (s : State) :
  (forall file, In file files -> is_Some (dir s !! file)) ->
  foldM scanFile files allComponents s
  = (Done (fold_left (scanStep (dir s)) files allComponents), s).
Proof.
  revert allComponents. induction files as [|file files IH];
    intros allComponents H; [reflexivity|].
  simpl. unfold bind. rewrite scanFile_pure by (apply H; now left).
  apply IH. intros f Hf. apply H. now right.
Qed.

(** The listing of the directory: the files it holds, as [readdir] gives
    them. *)
Definition listing (d : gmap string string) : list string := sortedNames d.

Lemma listing_spec (d : gmap string string) (file : string) :
  In file (listing d) <-> is_Some (d !! file).
Proof.
  unfold listing, sortedNames.
  rewrite <- list_elem_of_In, merge_sort_Permutation, list_elem_of_fmap. split.
  - intros ([f c] & -> & H%elem_of_map_to_list). simpl. eauto.
  - intros [c H]. exists (file, c). split; [reflexivity|].
    now apply elem_of_map_to_list.
Qed.

#[global] Instance nameLe_total : Total nameLe.
Proof. intros a b. apply String.leb_total. Qed.

(** The listing is in the order of [strcmp], and names no file twice. *)
Lemma listing_sorted (d : gmap string string) :
  Sorted nameLe (listing d) /\ NoDup (listing d).
Proof.
  unfold listing, sortedNames. split; [apply Sorted_merge_sort, _|].
  rewrite merge_sort_Permutation. apply NoDup_fst_map_to_list.
Qed.

(** [allComponents] when the scan is over: the records behind
    [index.tsx]. *)
Definition exportedComponents (s : State) : list Component :=
  fold_left (scanStep (dir s)) (listing (dir s)) (createdComponents s).

(** The state behind a rebuilt [index.tsx]. *)
Definition withIndex (s : State) : State :=
  {| dir := <["index.tsx" := indexContent (exportedComponents s)]> (dir s);
     createdComponents := createdComponents s;
     console :=
       console s
       ++ [SpinnerSucceed
             ("Created " +:+ pretty (length (createdComponents s))
              +:+ " new React components and exported all "
              +:+ pretty (length (exportedComponents s))
              +:+ " components in components/svgl/");
           ConsoleLog "
To use your SVG icons:";
           ConsoleLog
             ("import { " +:+ firstName (createdComponents s)
              +:+ " } from 'components/svgl';");
           ConsoleLog
             ("<" +:+ firstName (createdComponents s)
              +:+ " width={32} height={32} />")] |}.

Lemma rebuildIndex_written (env : Env) (s : State) :
  writeError env "index.tsx" = None ->
  rebuildIndex env s = (Done tt, withIndex s).
Proof.
  intros Hw. unfold rebuildIndex, bind, readdir, getCreated.
  rewrite foldM_scanFile by (intros file; apply listing_spec).
  unfold writeFile, emit. rewrite Hw. simpl. unfold withIndex.
  f_equal. f_equal. now rewrite <- !app_assoc.
Qed.

Lemma rebuildIndex_write_fails (env : Env) (s : State) (e : string) :
  writeError env "index.tsx" = Some e ->
  rebuildIndex env s = (Thrown e, s).
Proof.
  intros Hw. unfold rebuildIndex, bind, readdir, getCreated.
  rewrite foldM_scanFile by (intros file; apply listing_spec).
  unfold writeFile. now rewrite Hw.
Qed.

Lemma generate_written (env : Env) (selectedSVGs : list iSVG) (s : State) :
  selectedSVGs <> [] ->
  writeError env "index.tsx" = None ->
  generate env selectedSVGs s
  = (Done tt, withIndex (snd (createAll env selectedSVGs s))).
Proof.
  intros Hne Hw. destruct selectedSVGs as [|svg rest]; [congruence|].
  unfold generate, bind. pose proof (createAll_done env (svg :: rest) s) as H.
  destruct (createAll env (svg :: rest) s) as [[[]|e] s']; [|discriminate H].
  now apply rebuildIndex_written.
Qed.

Lemma find_fileName_none (slug : string) (l : list Component) :
  List.find (fun comp => String.eqb (fileName comp) slug) l = None ->
  ~ In slug (List.map fileName l).
Proof.
  intros H (comp & Hc & Hin)%in_map_iff.
  apply (find_none _ _ H) in Hin. rewrite Hc in Hin.
  now rewrite String.eqb_refl in Hin.
Qed.

Lemma find_fileName_some (slug : string) (l : list Component)
  (comp : Component) :
  List.find (fun comp => String.eqb (fileName comp) slug) l = Some comp ->
  In comp l /\ fileName comp = slug.
Proof. intros [H1 H2%String.eqb_eq]%find_some. now split. Qed.

(** A record found by the scan, for a file of [files] in the directory
    [d]. *)
Definition discoveredIn (d : gmap string string) (files : list string)
  (r : Component) : Prop :=
  exists file fileContent,
    In file files
    /\ d !! file = Some fileContent
    /\ eligible file = true
    /\ Regex.match_export fileContent = Some (name r)
    /\ r = scannedRecord file fileContent (name r).

(** The scan: what it adds, and what it leaves out. *)
Lemma scan_spec (d : gmap string string) (files : list string)
  (allComponents : list Component) :
  exists discovered,
    fold_left (scanStep d) files allComponents = allComponents ++ discovered
    /\ (forall r, In r discovered ->
          discoveredIn d files r
          /\ ~ In (fileName r) (List.map fileName allComponents))
    /\ NoDup (List.map fileName discovered)
    /\ (forall file fileContent exported,
          In file files -> d !! file = Some fileContent ->
          eligible file = true ->
          Regex.match_export fileContent = Some exported ->
          Str.is_empty exported = false ->
          In (slugOf file)
            (List.map fileName (allComponents ++ discovered))).
Proof.
  revert allComponents. induction files as [|file files IH];
    intros allComponents.
  { exists []. rewrite app_nil_r. split; [reflexivity|].
    split; [intros r []|]. split; [constructor|]. intros f c x []. }
  simpl fold_left.
  destruct (IH (scanStep d allComponents file))
    as (disc & Hfold & Hdisc & Hnodup & Hall).
  assert (Hkeep : scanStep d allComponents file = allComponents ->
          (forall fileContent exported,
             d !! file = Some fileContent -> eligible file = true ->
             Regex.match_export fileContent = Some exported ->
             Str.is_empty exported = false ->
             In (slugOf file) (List.map fileName allComponents)) ->
          exists discovered,
            fold_left (scanStep d) files (scanStep d allComponents file)
            = allComponents ++ discovered
            /\ (forall r, In r discovered ->
                  discoveredIn d (file :: files) r
                  /\ ~ In (fileName r) (List.map fileName allComponents))
            /\ NoDup (List.map fileName discovered)
            /\ (forall f fileContent exported,
                  In f (file :: files) -> d !! f = Some fileContent ->
                  eligible f = true ->
                  Regex.match_export fileContent = Some exported ->
                  Str.is_empty exported = false ->
                  In (slugOf f)
                    (List.map fileName (allComponents ++ discovered)))).
  { intros Heq Hthis. rewrite Heq in *. exists disc.
    split; [assumption|]. split; [|split; [assumption|]].
    - intros r Hr. destruct (Hdisc r Hr) as [(f & c & Hf & Hrest) Hnot].
      split; [|assumption]. exists f, c. split; [now right | assumption].
    - intros f c x [<- | Hf] Hc He Hm Hx; [|eauto].
      rewrite List.map_app. apply in_or_app. left. eauto. }
  unfold scanStep in Hfold, Hdisc, Hall, Hkeep |- *.
  destruct (eligible file) eqn:He.
  2:{ apply Hkeep; [reflexivity | congruence]. }
  destruct (List.find _ allComponents) as [comp|] eqn:Hfind.
  { apply Hkeep; [reflexivity|]. intros _ _ _ _ _ _.
    apply find_fileName_some in Hfind as [Hin <-]. now apply in_map. }
  destruct (d !! file) as [content|] eqn:Hc.
  2:{ apply Hkeep; [reflexivity | congruence]. }
  destruct (Regex.match_export content) as [exported|] eqn:Hm.
  2:{ apply Hkeep; [reflexivity | congruence]. }
  destruct (Str.is_empty exported) eqn:Hx; simpl negb in *; cbv iota in *.
  { apply Hkeep; [reflexivity | congruence]. }
  apply find_fileName_none in Hfind.
  exists (scannedRecord file content exported :: disc).
  split; [now rewrite Hfold, <- app_assoc|].
  split; [|split].
  - intros r [<- | Hr].
    + split; [|exact Hfind]. exists file, content.
      repeat split; [now left | assumption..].
    + destruct (Hdisc r Hr) as [(f & c & Hf & Hrest) Hnot].
      split.
      * exists f, c. split; [now right | assumption].
      * intros Hin. apply Hnot. rewrite List.map_app. apply in_or_app.
        now left.
  - simpl. constructor; [|assumption].
    intros (r & Hr & Hin)%list_elem_of_In%in_map_iff.
    destruct (Hdisc r Hin) as [_ Hnot].
    apply Hnot. rewrite List.map_app. apply in_or_app. right.
    simpl. left. now rewrite Hr.
  - intros f c x [<- | Hf] Hfc Hfe Hfm Hfx.
    + rewrite List.map_app. apply in_or_app. right. simpl. now left.
    + specialize (Hall f c x Hf Hfc Hfe Hfm Hfx).
      now rewrite <- app_assoc in Hall.
Qed.

Lemma match_export_eq (s : string) :
  Regex.match_export s =
  match Regex.export_here s with
  | Some w => Some w
  | None =>
      match s with
      | EmptyString => None
      | String _ s' => Regex.match_export s'
      end
  end.
Proof. destruct s; reflexivity. Qed.

Lemma export_here_nonempty (s w : string) :
  Regex.export_here s = Some w -> Str.is_empty w = false.
Proof.
  unfold Regex.export_here.
  destruct (Str.strip_prefix "export const " s) as [r|]; [|discriminate].
  destruct (Regex.span_word r) as [x rest].
  destruct (Str.is_empty x) eqn:E; simpl; [discriminate|].
  destruct (Str.startsWith ":" rest); [|discriminate]. now intros [= <-].
Qed.

Lemma match_export_nonempty (s w : string) :
  Regex.match_export s = Some w -> Str.is_empty w = false.
Proof.
  induction s as [|c s IH]; rewrite match_export_eq.
  - destruct (Regex.export_here "") eqn:E; [|discriminate].
    intros [= <-]. eapply export_here_nonempty; eassumption.
  - destruct (Regex.export_here (String c s)) eqn:E; [|exact IH].
    intros [= <-]. eapply export_here_nonempty; eassumption.
Qed.

(** ** C6: the wordmark of an icon *)

(** C6. For an icon with a wordmark whose requests and writes succeed, one
    iteration of the generator writes, besides the base component (defaults
    24 and 24), a second file named by the slug with the suffix [-wordmark];
    its component is declared under the symbol with the suffix [Wordmark]
    with the defaults 100 for [width] and 24 for [height], and it is pushed
    as a record of its own, with [isWordmark] set, behind the base record. *)
Theorem wordmark_is_a_second_component (env : Env) (svg : iSVG) (w : Route)
  (content wcontent : string) (s : State) :
  wordmark svg = Some w ->
  truthy (wordmark svg) = true ->
  outcome (componentContent env (componentName svg) (route svg))
  = Done content ->
  writeError env (kebabName (title svg) +:+ ".tsx") = None ->
  outcome (wordmarkContent env (componentName svg) w) = Done wcontent ->
  writeError env ((kebabName (title svg) +:+ "-wordmark") +:+ ".tsx") = None ->
  let s' := snd (processSVG env svg s) in
  fst (processSVG env svg s) = Done tt
  /\ dir s'
     = <[(kebabName (title svg) +:+ "-wordmark") +:+ ".tsx" := wcontent]>
         (<[kebabName (title svg) +:+ ".tsx" := content]> (dir s))
  /\ dir s' !! ((kebabName (title svg) +:+ "-wordmark") +:+ ".tsx")
     = Some wcontent
  /\ dir s' !! (kebabName (title svg) +:+ ".tsx") = Some content
  /\ createdComponents s'
     = createdComponents s
       ++ [baseRecord svg;
           {| name := componentName svg +:+ "Wordmark";
              fileName := kebabName (title svg) +:+ "-wordmark";
              hasDarkLight := negb (isString w);
              isWordmark := Some true |}]
  /\ isWordmark (baseRecord svg) = None
  /\ fileName (baseRecord svg) = kebabName (title svg)
  /\ Str.includes (signature (componentName svg +:+ "Wordmark") "100" "24")
       wcontent = true
  /\ Str.includes (signature (componentName svg) "24" "24") content = true.
Proof.
  intros Hw Ht Hc Hwr Hwc Hwwr s'.
  assert (E : processSVG env svg s
              = (Done tt, withWordmark svg w wcontent (withBase svg content s))).
  { apply processSVG_completed.
    rewrite (createComponent_base env svg s content Hc Hwr).
    now apply createWordmark_written. }
  subst s'. rewrite E. simpl.
  split; [reflexivity|]. split; [reflexivity|].
  split; [apply lookup_insert_eq|].
  split.
  { rewrite lookup_insert_ne by (apply not_eq_sym, wordmark_file_differs).
    apply lookup_insert_eq. }
  split; [now rewrite <- app_assoc|].
  split; [reflexivity|]. split; [reflexivity|].
  split; [eapply wordmarkContent_signature | eapply componentContent_signature];
    eassumption.
Qed.

Lemma wordmark_is_a_second_component_witness :
  exists content wcontent,
    let s' := snd (processSVG World.online World.acme (initial ∅)) in
    fst (processSVG World.online World.acme (initial ∅)) = Done tt
    /\ dir s'
       = <[("acme-corp" +:+ "-wordmark") +:+ ".tsx" := wcontent]>
           (<["acme-corp" +:+ ".tsx" := content]> ∅)
    /\ createdComponents s'
       = [baseRecord World.acme;
          {| name := "AcmeCorpWordmark";
             fileName := "acme-corp-wordmark";
             hasDarkLight := true;
             isWordmark := Some true |}]
    /\ Str.includes (signature "AcmeCorpWordmark" "100" "24") wcontent = true.
Proof.
  eexists _, _.
  pose proof (wordmark_is_a_second_component World.online World.acme
                (RouteTheme {| dark := "acme-wordmark-dark.svg";
                               light := "acme-wordmark-light.svg" |})
                _ _ (initial ∅)
                eq_refl eq_refl eq_refl eq_refl eq_refl eq_refl)
    as (H1 & H2 & _ & _ & H5 & _ & _ & H8 & _).
  split; [exact H1|]. split; [exact H2|]. split; [exact H5|]. exact H8.
Defined.

(** ** C10 and C7: failures inside one iteration *)

Lemma createAll_keeps (env : Env) (svg : iSVG) (selectedSVGs : list iSVG)
  (s : State) (r : Component) (file : string) :
  In svg selectedSVGs ->
  (forall s0,
     In r (createdComponents (snd (processSVG env svg s0)))
     /\ is_Some (dir (snd (processSVG env svg s0)) !! file)) ->
  In r (createdComponents (snd (createAll env selectedSVGs s)))
  /\ is_Some (dir (snd (createAll env selectedSVGs s)) !! file)
  /\ In r (exportedComponents (snd (createAll env selectedSVGs s))).
Proof.
  intros (before & after & ->)%in_split Hitem.
  rewrite createAll_eq, forEach_app, forEach_cons.
  set (s0 := snd (forEach before (processSVG env) (loopStart s))).
  destruct (Hitem s0) as [Hr Hf].
  destruct (forEach_grows env after (snd (processSVG env svg s0)))
    as [[more Hmore] Hfiles].
  set (s1 := snd (forEach after (processSVG env) (snd (processSVG env svg s0))))
    in *.
  assert (Hin : In r (createdComponents s1)).
  { rewrite Hmore. apply in_or_app. now left. }
  split; [exact Hin|]. split; [now apply Hfiles|].
  unfold exportedComponents.
  destruct (scan_spec (dir s1) (listing (dir s1)) (createdComponents s1))
    as (disc & -> & _).
  apply in_or_app. now left.
Qed.

(** C10. When the base component of an icon is fetched and written and its
    wordmark then fails (a request or the write), the iteration ends in the
    [catch]: the base file stays written and its record stays in the
    tracking array, neither the wordmark file nor a wordmark record is
    added, and the failure is printed.  The base record is therefore among
    the records of the run, its file is in the directory when the loop ends,
    and the rebuilt [index.tsx] lists it. *)
Theorem base_component_survives_failed_wordmark (env : Env) (svg : iSVG)
  (w : Route) (content e : string) :
  wordmark svg = Some w ->
  truthy (wordmark svg) = true ->
  outcome (componentContent env (componentName svg) (route svg))
  = Done content ->
  writeError env (kebabName (title svg) +:+ ".tsx") = None ->
  (outcome (wordmarkContent env (componentName svg) w) = Thrown e
   \/ (exists wcontent,
         outcome (wordmarkContent env (componentName svg) w) = Done wcontent)
      /\ writeError env ((kebabName (title svg) +:+ "-wordmark") +:+ ".tsx")
         = Some e) ->
  (forall s,
     let s' := snd (processSVG env svg s) in
     fst (processSVG env svg s) = Done tt
     /\ dir s' = <[kebabName (title svg) +:+ ".tsx" := content]> (dir s)
     /\ createdComponents s' = createdComponents s ++ [baseRecord svg]
     /\ console s'
        = console s
          ++ [SpinnerText ("Created: " +:+ kebabName (title svg) +:+ ".tsx");
              ConsoleError
                ("Failed to create component for " +:+ title svg +:+ ": "
                 +:+ e)])
  /\ (forall selectedSVGs s,
        In svg selectedSVGs ->
        let s1 := snd (createAll env selectedSVGs s) in
        In (baseRecord svg) (createdComponents s1)
        /\ is_Some (dir s1 !! (kebabName (title svg) +:+ ".tsx"))
        /\ In (baseRecord svg) (exportedComponents s1))
  /\ (forall selectedSVGs s,
        In svg selectedSVGs ->
        writeError env "index.tsx" = None ->
        exists allComponents,
          dir (snd (generate env selectedSVGs s)) !! "index.tsx"
          = Some (indexContent allComponents)
          /\ In (baseRecord svg) allComponents).
Proof.
  intros Hw Ht Hc Hwr Hfail.
  assert (E : forall s,
             processSVG env svg s
             = (Done tt, withFailure svg e (withBase svg content s))).
  { intros s. apply processSVG_caught.
    rewrite (createComponent_base env svg s content Hc Hwr).
    destruct Hfail as [Hf | [[wc Hf] Hwe]].
    - now apply (createWordmark_fetch_fails env svg w).
    - now apply (createWordmark_write_fails env svg w _ wc). }
  assert (Hitem : forall s0,
             In (baseRecord svg) (createdComponents (snd (processSVG env svg s0)))
             /\ is_Some (dir (snd (processSVG env svg s0))
                         !! (kebabName (title svg) +:+ ".tsx"))).
  { intros s0. rewrite E. simpl. split.
    - apply in_or_app. right. now left.
    - rewrite lookup_insert_eq. eauto. }
  split; [|split].
  - intros s s'. subst s'. rewrite E. simpl.
    repeat split. now rewrite <- app_assoc.
  - intros selectedSVGs s Hin. now apply (createAll_keeps env svg).
  - intros selectedSVGs s Hin Hidx.
    assert (Hne : selectedSVGs <> []) by (intros ->; destruct Hin).
    rewrite (generate_written env selectedSVGs s Hne Hidx).
    exists (exportedComponents (snd (createAll env selectedSVGs s))).
    split; [apply lookup_insert_eq|].
    now apply (createAll_keeps env svg selectedSVGs s _ _ Hin Hitem).
Qed.

Lemma base_component_survives_failed_wordmark_witness :
  exists content,
    (let s' := snd (processSVG World.flaky World.acme (initial ∅)) in
     dir s' = <["acme-corp" +:+ ".tsx" := content]> ∅
     /\ createdComponents s' = [baseRecord World.acme]
     /\ console s'
        = [SpinnerText "Created: acme-corp.tsx";
           ConsoleError
             "Failed to create component for Acme Corp: AxiosError: Request failed with status code 404"])
    /\ exists allComponents,
         dir (snd (generate World.flaky [World.duo; World.acme] (initial ∅)))
           !! "index.tsx"
         = Some (indexContent allComponents)
         /\ In (baseRecord World.acme) allComponents.
Proof.
  eexists.
  pose proof (base_component_survives_failed_wordmark World.flaky World.acme
                (RouteTheme {| dark := "acme-wordmark-dark.svg";
                               light := "acme-wordmark-light.svg" |})
                _ "AxiosError: Request failed with status code 404"
                eq_refl eq_refl eq_refl eq_refl (or_introl eq_refl))
    as (H1 & _ & H3).
  split.
  - destruct (H1 (initial ∅)) as (_ & Hd & Hc & Hl). repeat split; assumption.
  - apply (H3 [World.duo; World.acme] (initial ∅)); [right; now left|].
    reflexivity.
Defined.

(** The reading of C7 under which a failed item leaves no trace in the
    generated set. *)
Definition failed_item_is_omitted : Prop :=
  forall (env : Env) (svg : iSVG) (s : State) (e : string),
    fst (createComponent env svg s) = Thrown e ->
    createdComponents (snd (processSVG env svg s)) = createdComponents s
    /\ dir (snd (processSVG env svg s)) = dir s.

(** C7, counterexample.  The dark wordmark of [World.acme] cannot be
    fetched: the iteration fails and is caught, and yet the base component
    of the item is written, tracked and exported. *)
Lemma failed_item_is_not_always_omitted :
  fst (createComponent World.flaky World.acme (initial ∅))
  = Thrown "AxiosError: Request failed with status code 404"
  /\ createdComponents (snd (processSVG World.flaky World.acme (initial ∅)))
     = [baseRecord World.acme]
  /\ List.map name
       (exportedComponents (snd (createAll World.flaky [World.acme] (initial ∅))))
     = ["AcmeCorp"]
  /\ ~ failed_item_is_omitted.
Proof.
  split; [vm_compute; reflexivity|]. split; [vm_compute; reflexivity|].
  split; [vm_compute; reflexivity|].
  intros H.
  destruct (H World.flaky World.acme (initial ∅)
              "AxiosError: Request failed with status code 404")
    as [Hc _]; [vm_compute; reflexivity|].
  vm_compute in Hc. discriminate Hc.
Qed.

(** C7, amended.  Every iteration ends normally: an error thrown while a
    component is created is caught and printed with the title of the icon,
    and the state reached when it was thrown is kept.  When the failure is
    in the base component (a request for its markup or the write of its
    file), the item adds no file and no record; the descriptors behind it
    are processed from there, and [index.tsx] is rebuilt from the state the
    loop ends in.  When the failure is in the wordmark, the state kept is
    the one behind the base component. *)
Theorem failure_is_caught_per_item (env : Env) (svg : iSVG) (e : string) :
  (outcome (componentContent env (componentName svg) (route svg)) = Thrown e
   \/ (exists content,
         outcome (componentContent env (componentName svg) (route svg))
         = Done content)
      /\ writeError env (kebabName (title svg) +:+ ".tsx") = Some e) ->
  (forall s,
     let s' := snd (processSVG env svg s) in
     fst (processSVG env svg s) = Done tt
     /\ dir s' = dir s
     /\ createdComponents s' = createdComponents s
     /\ console s'
        = console s
          ++ [ConsoleError
                ("Failed to create component for " +:+ title svg +:+ ": "
                 +:+ e)])
  /\ (forall rest s,
        forEach (svg :: rest) (processSVG env) s
        = forEach rest (processSVG env) (withFailure svg e s))
  /\ (forall before after s,
        writeError env "index.tsx" = None ->
        let s1 :=
          snd (forEach after (processSVG env)
                 (withFailure svg e (snd (createAll env before s)))) in
        snd (createAll env (before ++ svg :: after) s) = s1
        /\ generate env (before ++ svg :: after) s = (Done tt, withIndex s1)
        /\ dir (withIndex s1) !! "index.tsx"
           = Some (indexContent (exportedComponents s1)))
  /\ (forall svg' s', fst (processSVG env svg' s') = Done tt)
  /\ (forall svg' s' e' s'',
        createComponent env svg' s' = (Thrown e', s'') ->
        processSVG env svg' s' = (Done tt, withFailure svg' e' s''))
  /\ (forall svg' w content e' s',
        wordmark svg' = Some w ->
        truthy (wordmark svg') = true ->
        outcome (componentContent env (componentName svg') (route svg'))
        = Done content ->
        writeError env (kebabName (title svg') +:+ ".tsx") = None ->
        outcome (wordmarkContent env (componentName svg') w) = Thrown e' ->
        processSVG env svg' s'
        = (Done tt, withFailure svg' e' (withBase svg' content s'))).
Proof.
  intros Hfail.
  assert (E : forall s, processSVG env svg s = (Done tt, withFailure svg e s)).
  { intros s. apply processSVG_caught. destruct Hfail as [Hf | [[c Hc] Hw]].
    - now apply createComponent_fetch_fails.
    - now apply (createComponent_write_fails env svg s c). }
  split; [|split; [|split; [|split; [|split]]]].
  - intros s s'. subst s'. now rewrite E.
  - intros rest s. now rewrite forEach_cons, E.
  - intros before after s Hidx s1.
    assert (Hs1 : snd (createAll env (before ++ svg :: after) s) = s1).
    { subst s1. now rewrite !createAll_eq, forEach_app, forEach_cons, E. }
    split; [exact Hs1|]. split.
    + rewrite generate_written; [now rewrite Hs1 | | assumption].
      now destruct before.
    + apply lookup_insert_eq.
  - intros svg' s'. apply processSVG_done.
  - intros svg' s' e' s''. apply processSVG_caught.
  - intros svg' w content e' s' Hw Ht Hc Hwr Hwc. apply processSVG_caught.
    rewrite (createComponent_base env svg' s' content Hc Hwr).
    now apply (createWordmark_fetch_fails env svg' w).
Qed.

Lemma failure_is_caught_per_item_witness :
  (let s' := snd (processSVG World.flaky Sample.github (initial ∅)) in
   fst (processSVG World.flaky Sample.github (initial ∅)) = Done tt
   /\ dir s' = ∅
   /\ createdComponents s' = []
   /\ console s'
      = [ConsoleError
           "Failed to create component for GitHub: AxiosError: Request failed with status code 404"])
  /\ List.map name
       (exportedComponents
          (snd (createAll World.flaky [Sample.github; World.duo] (initial ∅))))
     = ["Duo"].
Proof.
  pose proof (failure_is_caught_per_item World.flaky Sample.github
                "AxiosError: Request failed with status code 404"
                (or_introl eq_refl))
    as (H1 & _ & H3 & _).
  split; [exact (H1 (initial ∅))|].
  destruct (H3 [] [World.duo] (initial ∅) eq_refl) as (Hs & _).
  change ([] ++ Sample.github :: [World.duo])
    with [Sample.github; World.duo] in Hs.
  rewrite Hs. vm_compute. reflexivity.
Defined.


(** ** C1: the aggregate export *)

(** No symbol is exported twice, whatever is selected. *)
Definition export_identifiers_are_distinct : Prop :=
  forall (env : Env) (selectedSVGs : list iSVG) (s : State),
    NoDup
      (List.map name (exportedComponents (snd (createAll env selectedSVGs s)))).

(** The titles [A B] and [AB] have the file slugs [a-b] and [ab] and the
    same symbol [AB]: selected together into an empty directory they are
    both written, and [index.tsx] imports and exports [AB] twice.  An icon
    selected twice is listed twice, under one file slug. *)
Lemma export_identifiers_can_repeat :
  dir (run World.online (Some ["a b"; "ab"]) ∅) !! "index.tsx"
  = Some "
import React from 'react';

import { AB } from './a-b';
import { AB } from './ab';

export {
  AB,
  AB
};
"
  /\ List.map name
       (exportedComponents
          (snd (createAll World.online [World.spaced; World.joined] (initial ∅))))
     = ["AB"; "AB"]
  /\ List.map fileName
       (exportedComponents
          (snd (createAll World.online [Sample.github; Sample.github]
                  (initial ∅))))
     = ["github"; "github"]
  /\ ~ export_identifiers_are_distinct.
Proof.
  split; [vm_compute; reflexivity|]. split; [vm_compute; reflexivity|].
  split; [vm_compute; reflexivity|].
  intros H.
  specialize (H World.online [World.spaced; World.joined] (initial ∅)).
  replace (List.map name _) with ["AB"; "AB"] in H
    by (vm_compute; reflexivity).
  inversion H as [|x l Hnot _]. apply Hnot. constructor.
Qed.

Lemma NoDup_app_fileName (created discovered : list Component) :
  NoDup (List.map fileName created) ->
  NoDup (List.map fileName discovered) ->
  (forall r, In r discovered ->
     ~ In (fileName r) (List.map fileName created)) ->
  NoDup (List.map fileName (created ++ discovered)).
Proof.
  intros Hc Hd Hsep. rewrite List.map_app. apply NoDup_app.
  split; [assumption|]. split; [|assumption].
  intros x Hx%list_elem_of_In (r & <- & Hr)%list_elem_of_In%in_map_iff.
  exact (Hsep r Hr Hx).
Qed.

(** No dot in [s]. *)
Definition no_dot (s : string) : bool :=
  Str.forallb (fun c => negb (Char.eqb c ".")) s.

Lemma endsWith_spec (p s : string) :
  Str.endsWith p s = true <-> exists pre, s = pre +:+ p.
Proof.
  induction s as [|c s IH].
  - change (Str.endsWith p "") with (String.eqb "" p || false).
    rewrite orb_false_r, String.eqb_eq. split.
    + intros <-. now exists "".
    + intros ([|a pre] & H); [assumption | discriminate H].
  - change (Str.endsWith p (String c s))
      with (String.eqb (String c s) p || Str.endsWith p s).
    rewrite orb_true_iff, String.eqb_eq, IH. split.
    + intros [<- | [pre ->]]; [now exists "" | now exists (String c pre)].
    + intros ([|a pre] & H); [now left|]. right.
      injection H as _ ->. now exists pre.
Qed.

Lemma no_dot_app (a b : string) :
  no_dot (a +:+ b) = no_dot a && no_dot b.
Proof.
  unfold no_dot. induction a as [|c a IH]; [reflexivity|].
  simpl. now rewrite IH, andb_assoc.
Qed.

Lemma replace_first_eq (p r s : string) :
  Str.replace_first p r s =
  match Str.strip_prefix p s with
  | Some rest => r +:+ rest
  | None =>
      match s with
      | EmptyString => EmptyString
      | String c s' => String c (Str.replace_first p r s')
      end
  end.
Proof. destruct s; reflexivity. Qed.

(** A component file whose slug holds no dot is named by its slug. *)
Lemma eligible_file_of_slug (file : string) :
  Str.endsWith ".tsx" file = true -> no_dot (slugOf file) = true ->
  file = slugOf file +:+ ".tsx".
Proof.
  unfold slugOf. induction file as [|c file IH]; [discriminate|].
  intros He Hd. rewrite replace_first_eq in Hd |- *.
  destruct (Str.strip_prefix ".tsx" (String c file)) as [rest|] eqn:E.
  - apply strip_prefix_spec in E. change ("" +:+ rest) with rest in *.
    apply endsWith_spec in He as [pre Hpre]. rewrite E in Hpre |- *.
    destruct pre as [|a pre].
    + assert (Hl : String.length (".tsx" +:+ rest)
                   = String.length ("" +:+ ".tsx")) by now rewrite Hpre.
      rewrite str_length_app in Hl. destruct rest; [reflexivity|].
      simpl in Hl. lia.
    + exfalso. injection Hpre as _ Hpre.
      assert (Hn : no_dot ("tsx" +:+ rest) = true)
        by (rewrite no_dot_app, Hd; reflexivity).
      change ("tsx" +:+ rest)
        with (String "t" (String "s" (String "x" rest))) in Hn.
      rewrite Hpre, no_dot_app in Hn.
      apply andb_true_iff in Hn as [_ Hn]. discriminate Hn.
  - change (no_dot (String c (Str.replace_first ".tsx" "" file)))
      with (negb (Char.eqb c ".")
            && no_dot (Str.replace_first ".tsx" "" file)) in Hd.
    apply andb_true_iff in Hd as [_ Hd].
    change (String c (Str.replace_first ".tsx" "" file) +:+ ".tsx")
      with (String c (Str.replace_first ".tsx" "" file +:+ ".tsx")).
    f_equal. apply IH; [|exact Hd].
    change (Str.endsWith ".tsx" (String c file))
      with (String.eqb (String c file) ".tsx" || Str.endsWith ".tsx" file)
      in He.
    apply orb_true_iff in He as [He%String.eqb_eq | He]; [|exact He].
    rewrite He in E. discriminate E.
Qed.

(** The records behind [index.tsx].  After a generation with a selection
    that is not empty and a writable [index.tsx], the export file is built
    from these records, in this order: the records written during the run,
    as they are (they are not compared with one another), and then one
    record for each scanned component file whose file slug is not listed
    yet, in the order of the listing.  Each scanned record
    carries the symbol its file exports; the scanned records have file slugs
    that differ from one another and from those of the run; every component
    file of the directory that exports a symbol has its file slug in the
    list, and its own record when no record of the run has its file slug
    and the slug holds no dot; and when the run wrote no file slug twice, no
    file slug is listed twice.  Symbols are not compared. *)
Lemma index_lists_created_then_discovered (env : Env)
  (selectedSVGs : list iSVG) (s : State) :
  0 < length selectedSVGs ->
  writeError env "index.tsx" = None ->
  let s1 := snd (createAll env selectedSVGs s) in
  let final := snd (generate env selectedSVGs s) in
  dir final = <["index.tsx" := indexContent (exportedComponents s1)]> (dir s1)
  /\ exists discovered,
       exportedComponents s1 = createdComponents s1 ++ discovered
       /\ (forall r, In r discovered ->
             (exists file fileContent,
                dir s1 !! file = Some fileContent
                /\ eligible file = true
                /\ Regex.match_export fileContent = Some (name r)
                /\ fileName r = slugOf file
                /\ hasDarkLight r = Str.includes "useTheme" fileContent
                /\ isWordmark r
                   = Some (Str.includes "-wordmark" (slugOf file)))
             /\ ~ In (fileName r) (List.map fileName (createdComponents s1)))
       /\ NoDup (List.map fileName discovered)
       /\ (forall file fileContent exported,
             dir s1 !! file = Some fileContent ->
             eligible file = true ->
             Regex.match_export fileContent = Some exported ->
             In (slugOf file) (List.map fileName (exportedComponents s1)))
       /\ (forall file fileContent exported,
             dir s1 !! file = Some fileContent ->
             eligible file = true ->
             Regex.match_export fileContent = Some exported ->
             ~ In (slugOf file) (List.map fileName (createdComponents s1)) ->
             no_dot (slugOf file) = true ->
             In (scannedRecord file fileContent exported) discovered)
       /\ (NoDup (List.map fileName (createdComponents s1)) ->
           NoDup (List.map fileName (exportedComponents s1))).
Proof.
  intros Hlen Hidx s1 final. subst final.
  assert (Hne : selectedSVGs <> []) by (intros ->; simpl in Hlen; lia).
  rewrite (generate_written env selectedSVGs s Hne Hidx). fold s1.
  split; [reflexivity|].
  unfold exportedComponents.
  destruct (scan_spec (dir s1) (listing (dir s1)) (createdComponents s1))
    as (disc & Hfold & Hdisc & Hnodup & Hall).
  assert (Hlisted : forall file c x,
            dir s1 !! file = Some c -> eligible file = true ->
            Regex.match_export c = Some x ->
            In (slugOf file)
              (List.map fileName (createdComponents s1 ++ disc))).
  { intros file c x Hc He Hm. apply (Hall file c x); try assumption.
    - apply listing_spec. eauto.
    - eapply match_export_nonempty; eassumption. }
  exists disc. rewrite Hfold.
  split; [reflexivity|]. split; [|split; [assumption|split; [|split]]].
  - intros r Hr.
    destruct (Hdisc r Hr) as [(file & c & _ & Hc & He & Hm & Hrec) Hnot].
    split; [|assumption]. exists file, c.
    repeat split; try assumption; rewrite Hrec; reflexivity.
  - exact Hlisted.
  - intros file c x Hc He Hm Hnew Hdot.
    pose proof (Hlisted file c x Hc He Hm) as Hin.
    rewrite List.map_app in Hin. apply in_app_or in Hin as [Hin | Hin];
      [contradiction|].
    apply in_map_iff in Hin as (r & Hslug & Hr).
    destruct (Hdisc r Hr) as [(f & c' & _ & Hc' & He' & Hm' & Hrec) _].
    assert (Hf : f = file).
    { assert (Hs : slugOf f = slugOf file)
        by (rewrite <- Hslug, Hrec; reflexivity).
      unfold eligible in He, He'.
      apply andb_true_iff in He as [He _], He' as [He' _].
      rewrite (eligible_file_of_slug file He Hdot).
      rewrite <- Hs in Hdot |- *. now apply eligible_file_of_slug. }
    subst f. rewrite Hc in Hc'. injection Hc' as <-.
    rewrite Hm in Hm'. injection Hm' as Hx. rewrite Hx. now rewrite <- Hrec.
  - intros Hcreated. apply NoDup_app_fileName; try assumption.
    intros r Hr. now destruct (Hdisc r Hr).
Qed.

(** A second run, for another icon, in the directory a first run left. *)
Lemma index_lists_created_then_discovered_witness :
  let first := run World.online (Some ["github"]) ∅ in
  let s1 := snd (createAll World.online [World.duo] (initial (dir first))) in
  let final := snd (generate World.online [World.duo] (initial (dir first))) in
  dir final = <["index.tsx" := indexContent (exportedComponents s1)]> (dir s1)
  /\ List.map name (exportedComponents s1) = ["Duo"; "GitHub"]
  /\ dir final !! "github.tsx" = dir first !! "github.tsx"
  /\ dir final !! "index.tsx"
     = Some "
import React from 'react';

import { Duo } from './duo';
import { GitHub } from './github';

export {
  Duo,
  GitHub
};
".
Proof.
  intros first.
  destruct (index_lists_created_then_discovered World.online [World.duo]
              (initial (dir first)) ltac:(simpl; lia) eq_refl) as [H _].
  split; [exact H|]. repeat split; vm_compute; reflexivity.
Defined.

(** The error that stops the base component of [svg], if one does: the
    error of the first failing request for its markup, else the error of
    the write of its file. *)
Definition baseError (env : Env) (svg : iSVG) : option string :=
  match outcome (componentContent env (componentName svg) (route svg)) with
  | Thrown e => Some e
  | Done _ => writeError env (kebabName (title svg) +:+ ".tsx")
  end.

(** An iteration whose base component succeeds pushes its record, and
    behind it at most the record of the wordmark. *)
Lemma processSVG_pushes_base (env : Env) (svg : iSVG) (s : State) :
  baseError env svg = None ->
  exists tail,
    createdComponents (snd (processSVG env svg s))
    = createdComponents s ++ baseRecord svg :: tail.
Proof.
  unfold baseError. intros H.
  destruct (outcome (componentContent env (componentName svg) (route svg)))
    as [content|e] eqn:Hc; [|discriminate H].
  pose proof (createComponent_base env svg s content Hc H) as Hb.
  destruct (truthy (wordmark svg)) eqn:Ht.
  2:{ exists []. rewrite (processSVG_completed env svg s (withBase svg content s));
        [reflexivity|]. rewrite Hb. now apply createWordmark_absent. }
  destruct (wordmark svg) as [w|] eqn:Hwm; [|discriminate Ht].
  destruct (outcome (wordmarkContent env (componentName svg) w))
    as [wcontent|e] eqn:Hwc.
  2:{ exists [].
      rewrite (processSVG_caught env svg s (withBase svg content s) e);
        [reflexivity|]. rewrite Hb.
      eapply createWordmark_fetch_fails; eauto; now rewrite Hwm. }
  destruct (writeError env
              ((kebabName (title svg) +:+ "-wordmark") +:+ ".tsx"))
    as [e|] eqn:Hww.
  { exists [].
    rewrite (processSVG_caught env svg s (withBase svg content s) e);
      [reflexivity|]. rewrite Hb.
    eapply createWordmark_write_fails; eauto; now rewrite Hwm. }
  exists [wordmarkRecord svg w].
  rewrite (processSVG_completed env svg s
             (withWordmark svg w wcontent (withBase svg content s))).
  - simpl. now rewrite <- app_assoc.
  - rewrite Hb. eapply createWordmark_written; eauto; now rewrite Hwm.
Qed.

Lemma not_NoDup_twice {A : Type} (l1 l2 l3 : list A) (x : A) :
  ~ NoDup (l1 ++ x :: l2 ++ x :: l3).
Proof.
  intros (_ & _ & H)%NoDup_app. apply NoDup_cons in H as [H _]. apply H.
  apply elem_of_app. right. left.
Qed.

(** Two catalog entries with the file slug [c] and the symbol [C]. *)
Module Clash.

Definition csharp : iSVG := Sample.entry "C#" (RouteString "csharp.svg") None.
Definition cpp : iSVG := Sample.entry "C++" (RouteString "cpp.svg") None.

Definition env : Env :=
  {| api := Resolved (Some [csharp; cpp]);
     axiosGet := fun locator =>
       if String.eqb locator "csharp.svg"
       then Resolved "<svg><title>C#</title></svg>"
       else Resolved "<svg><title>C++</title></svg>";
     writeError := fun _ => None;
     prompt := fun _ => [] |}.

End Clash.

(** C1, the defect.  The records of the run are copied into the list behind
    [index.tsx] as they are (line 330); only the files found by the scan are
    compared with that list, by file slug (lines 338 to 341).  So when two
    selected icons [a] and [b] both get their base component written, both
    records are listed, one behind the other: under one file slug when the
    titles have the same file slug, and under one export identifier when
    they have the same symbol.  The records the scan adds, in contrast,
    have file slugs that differ from one another and from those of the
    run. *)
Theorem created_records_are_listed_unchecked (env : Env)
  (before between after : list iSVG) (a b : iSVG) (s : State) :
  baseError env a = None ->
  baseError env b = None ->
  writeError env "index.tsx" = None ->
  let selectedSVGs := before ++ a :: between ++ b :: after in
  let s1 := snd (createAll env selectedSVGs s) in
  let final := snd (generate env selectedSVGs s) in
  dir final !! "index.tsx" = Some (indexContent (exportedComponents s1))
  /\ (exists l1 l2 l3,
        exportedComponents s1
        = l1 ++ baseRecord a :: l2 ++ baseRecord b :: l3)
  /\ (kebabName (title a) = kebabName (title b) ->
      ~ NoDup (List.map fileName (exportedComponents s1)))
  /\ (componentName a = componentName b ->
      ~ NoDup (List.map name (exportedComponents s1)))
  /\ (exists discovered,
        exportedComponents s1 = createdComponents s1 ++ discovered
        /\ NoDup (List.map fileName discovered)
        /\ forall r, In r discovered ->
             ~ In (fileName r) (List.map fileName (createdComponents s1))).
Proof.
  intros Ha Hb Hidx selectedSVGs s1 final.
  assert (Hne : selectedSVGs <> []) by (subst selectedSVGs; now destruct before).
  assert (Hcreated : exists l1 l2 l3,
             createdComponents s1
             = l1 ++ baseRecord a :: l2 ++ baseRecord b :: l3).
  { subst s1 selectedSVGs. rewrite createAll_eq, forEach_app, forEach_cons.
    set (sa := snd (forEach before (processSVG env) (loopStart s))).
    destruct (processSVG_pushes_base env a sa Ha) as [ta Hta].
    rewrite forEach_app, forEach_cons.
    set (sa' := snd (processSVG env a sa)) in *.
    destruct (forEach_grows env between sa') as [[m1 Hm1] _].
    set (sb := snd (forEach between (processSVG env) sa')) in *.
    destruct (processSVG_pushes_base env b sb Hb) as [tb Htb].
    set (sb' := snd (processSVG env b sb)) in *.
    destruct (forEach_grows env after sb') as [[m2 Hm2] _].
    exists (createdComponents sa), (ta ++ m1), (tb ++ m2).
    rewrite Hm2, Htb, Hm1, Hta.
    repeat first [rewrite <- app_assoc | progress simpl]. reflexivity. }
  destruct (scan_spec (dir s1) (listing (dir s1)) (createdComponents s1))
    as (disc & Hfold & Hdisc & Hnodup & _).
  fold (exportedComponents s1) in Hfold.
  assert (Hlisted : exists l1 l2 l3,
             exportedComponents s1
             = l1 ++ baseRecord a :: l2 ++ baseRecord b :: l3).
  { destruct Hcreated as (l1 & l2 & l3 & Hc). exists l1, l2, (l3 ++ disc).
    rewrite Hfold, Hc.
    repeat first [rewrite <- app_assoc | progress simpl]. reflexivity. }
  split.
  { subst final. rewrite (generate_written env selectedSVGs s Hne Hidx).
    fold s1. simpl. apply lookup_insert_eq. }
  split; [exact Hlisted|].
  destruct Hlisted as (l1 & l2 & l3 & Hl). split; [|split].
  - intros Hslug. rewrite Hl, List.map_app. simpl. rewrite List.map_app.
    simpl. rewrite Hslug. apply not_NoDup_twice.
  - intros Hname. rewrite Hl, List.map_app. simpl. rewrite List.map_app.
    simpl. rewrite Hname. apply not_NoDup_twice.
  - exists disc. split; [exact Hfold|]. split; [exact Hnodup|].
    intros r Hr. now destruct (Hdisc r Hr).
Qed.

(** The command [add c] on a catalog that holds [C#] and [C++], in an empty
    directory: both icons match the token, [c.tsx] is written twice and
    holds the second icon, and [index.tsx] imports and exports [C] twice. *)
Lemma created_records_are_listed_unchecked_witness :
  let s1 :=
    snd (createAll Clash.env [Clash.csharp; Clash.cpp] (initial ∅)) in
  let final := run Clash.env (Some ["c"]) ∅ in
  ~ NoDup (List.map fileName (exportedComponents s1))
  /\ ~ NoDup (List.map name (exportedComponents s1))
  /\ selectExact [Clash.csharp; Clash.cpp] ["c"] = [Clash.csharp; Clash.cpp]
  /\ List.map fileName (createdComponents final) = ["c"; "c"]
  /\ listing (dir final) = ["c.tsx"; "index.tsx"]
  /\ dir final !! "c.tsx"
     = Some (singleContent "C" "<svg><title>C++</title></svg>")
  /\ dir final !! "index.tsx"
     = Some "
import React from 'react';

import { C } from './c';
import { C } from './c';

export {
  C,
  C
};
".
Proof.
  intros s1 final.
  destruct (created_records_are_listed_unchecked Clash.env [] [] []
              Clash.csharp Clash.cpp (initial ∅)
              ltac:(vm_compute; reflexivity) ltac:(vm_compute; reflexivity)
              eq_refl)
    as (_ & _ & Hslug & Hname & _).
  split; [apply Hslug; vm_compute; reflexivity|].
  split; [apply Hname; vm_compute; reflexivity|].
  repeat split; vm_compute; reflexivity.
Defined.

(** ** C2: the emitted themed components at render time *)

(** What a themed component reads when it renders: [resolvedTheme] of
    [useTheme()], and whether the component has mounted.  The state
    [mounted] of the component of [themedContent] starts as [false] (server
    rendering and the first client render) and is set by its effect. *)
Record Render := { resolvedTheme : option string; mounted : bool }.

(** [resolvedTheme === 'dark'] *)
Definition isDarkTheme (r : Render) : bool :=
  match resolvedTheme r with
  | Some theme => String.eqb theme "dark"
  | None => false
  end.

(** The markup returned by the component of [themedContent]:
    [const isDark = mounted && resolvedTheme === 'dark'], and then
    [isDark ? dark : light]. *)
Definition renderThemed (darkSvgMarkup lightSvgMarkup : string) (r : Render)
  : string :=
  let isDark := mounted r && isDarkTheme r in
  if isDark then injectPropsLines darkSvgMarkup
  else injectPropsLines lightSvgMarkup.

(** The markup returned by the component of [wordmarkThemedContent]:
    [const isDark = resolvedTheme === 'dark'], with no [mounted] state. *)
Definition renderThemedWordmark (darkWordmarkMarkup lightWordmarkMarkup : string)
  (r : Render) : string :=
  let isDark := isDarkTheme r in
  if isDark then injectProps darkWordmarkMarkup
  else injectProps lightWordmarkMarkup.

Lemma includes_app_l (p a b : string) :
  Str.includes p a = true -> Str.includes p (a +:+ b) = true.
Proof.
  induction a as [|c a IH]; rewrite includes_eq.
  - rewrite orb_false_r. unfold Str.startsWith.
    destruct (Str.strip_prefix p "") as [r|] eqn:E; [|discriminate].
    apply strip_prefix_spec in E. intros _. simpl.
    destruct p; [|discriminate E]. now destruct b.
  - intros [H | H]%orb_true_iff; rewrite includes_eq; apply orb_true_iff.
    + left. unfold Str.startsWith in *.
      destruct (Str.strip_prefix p (String c a)) as [r|] eqn:E;
        [|discriminate].
      apply strip_prefix_spec in E. rewrite E, str_app_assoc.
      now rewrite strip_prefix_app.
    + right. simpl. now apply IH.
Qed.

Lemma includes_app_r (p a b : string) :
  Str.includes p b = true -> Str.includes p (a +:+ b) = true.
Proof.
  intros H. induction a as [|c a IH]; [exact H|].
  rewrite includes_eq. simpl. rewrite IH. apply orb_true_r.
Qed.

(** C2 (the code departs from the claim).  The component emitted for a
    light/dark route returns the light markup as long as it has not mounted,
    whatever the theme, and the dark markup only when it has mounted and the
    theme is dark.  The component emitted for a light/dark wordmark tests the
    theme alone: rendered before it has mounted under a dark theme, it
    returns the dark markup.  The emitted texts carry exactly these two
    tests. *)
Theorem themed_wordmark_is_dark_before_mount :
  (forall d l theme,
     renderThemed d l {| resolvedTheme := theme; mounted := false |}
     = injectPropsLines l)
  /\ (forall d l,
        renderThemed d l {| resolvedTheme := Some "dark"; mounted := true |}
        = injectPropsLines d)
  /\ (forall d l,
        renderThemedWordmark d l
          {| resolvedTheme := Some "dark"; mounted := false |}
        = injectProps d)
  /\ (forall cname d l,
        Str.includes "const isDark = mounted && resolvedTheme === 'dark';"
          (themedContent cname d l) = true)
  /\ (forall cname d l,
        Str.includes "
  const isDark = resolvedTheme === 'dark';"
          (wordmarkThemedContent cname d l) = true)
  /\ Str.includes "mounted"
       (wordmarkThemedContent "Acme" World.markup World.markup) = false
  /\ Str.includes "useEffect"
       (wordmarkThemedContent "Acme" World.markup World.markup) = false.
Proof.
  split; [reflexivity|]. split; [reflexivity|]. split; [reflexivity|].
  split; [|split; [|split; vm_compute; reflexivity]].
  - intros cname d l. rewrite themedContent_shape.
    do 3 apply includes_app_r. unfold themedContent_body.
    apply includes_app_l. vm_compute. reflexivity.
  - intros cname d l. rewrite wordmarkThemedContent_shape.
    do 3 apply includes_app_r. unfold wordmarkThemedContent_body.
    apply includes_app_l. vm_compute. reflexivity.
Qed.

(** ** The scan reads back what the generator wrote *)

(** [p] and [s] differ at an index both have. *)
Fixpoint mismatch (p s : string) : bool :=
  match p, s with
  | String a p', String b s' => negb (Char.eqb a b) || mismatch p' s'
  | _, _ => false
  end.

(** [p] differs from every non-empty suffix of [pre]. *)
Fixpoint never_starts (p pre : string) : bool :=
  match pre with
  | EmptyString => true
  | String _ pre' => mismatch p pre && never_starts p pre'
  end.

(** [p] holds a character outside [\w]. *)
Fixpoint has_nonword (p : string) : bool :=
  match p with
  | EmptyString => false
  | String a p' => negb (Char.is_word a) || has_nonword p'
  end.

Lemma mismatch_strip_prefix (p s tail : string) :
  mismatch p s = true -> Str.strip_prefix p (s +:+ tail) = None.
Proof.
  revert s. induction p as [|a p IH]; intros [|b s]; simpl; try discriminate.
  destruct (Char.eqb a b); simpl; [apply IH | reflexivity].
Qed.

Lemma export_here_none (s : string) :
  Str.strip_prefix "export const " s = None -> Regex.export_here s = None.
Proof. intros H. unfold Regex.export_here. now rewrite H. Qed.

Lemma match_export_skip (pre rest : string) :
  never_starts "export const " pre = true ->
  Regex.match_export (pre +:+ rest) = Regex.match_export rest.
Proof.
  induction pre as [|c pre IH]; [reflexivity|].
  intros [Hm Hn]%andb_true_iff. rewrite match_export_eq.
  rewrite export_here_none by now apply mismatch_strip_prefix.
  simpl. now apply IH.
Qed.

Lemma word_then_other (p u tail : string) (c : ascii) :
  Str.forallb Char.is_word u = true ->
  has_nonword p = true ->
  Str.forallb (fun a => negb (Char.eqb a c)) p = true ->
  Str.strip_prefix p (u +:+ String c tail) = None.
Proof.
  revert u. induction p as [|a p IH]; intros u Hu Hp Hc; [discriminate Hp|].
  simpl in Hc. apply andb_true_iff in Hc as [Hac Hc].
  destruct u as [|b u]; simpl.
  - apply negb_true_iff in Hac. now rewrite Hac.
  - destruct (Char.eqb a b) eqn:E; [|reflexivity].
    apply char_eqb_eq in E. subst b. simpl in Hu.
    apply andb_true_iff in Hu as [Ha Hu]. simpl in Hp. rewrite Ha in Hp.
    now apply IH.
Qed.

Lemma match_export_skip_word (u tail : string) (c : ascii) :
  Str.forallb Char.is_word u = true ->
  Str.forallb (fun a => negb (Char.eqb a c)) "export const " = true ->
  Regex.match_export (u +:+ String c tail)
  = Regex.match_export (String c tail).
Proof.
  intros Hu Hc. induction u as [|b u IH]; [reflexivity|].
  rewrite match_export_eq.
  rewrite export_here_none
    by (apply (word_then_other _ (String b u)); [assumption | reflexivity | assumption]).
  simpl in Hu. apply andb_true_iff in Hu as [_ Hu]. simpl. now apply IH.
Qed.

Lemma span_word_app (w rest : string) (c : ascii) :
  Str.forallb Char.is_word w = true -> Char.is_word c = false ->
  Regex.span_word (w +:+ String c rest) = (w, String c rest).
Proof.
  intros Hw Hc. induction w as [|b w IH]; simpl.
  - now rewrite Hc.
  - simpl in Hw. apply andb_true_iff in Hw as [Hb Hw]. now rewrite Hb, IH.
Qed.

Lemma export_here_signature (symbol width height body : string) :
  Str.forallb Char.is_word symbol = true ->
  Str.is_empty symbol = false ->
  Regex.export_here (signature symbol width height +:+ body) = Some symbol.
Proof.
  intros Hw Hne. unfold signature, Regex.export_here.
  rewrite !str_app_assoc, strip_prefix_app.
  change (": React.FC<" +:+ ?x) with (String ":" (" React.FC<" +:+ x)).
  rewrite span_word_app by (assumption || reflexivity).
  now rewrite Hne.
Qed.

(** A component file written by the generator exports its symbol: whatever
    the three sets of imports and the body, [/export const (\w+):/] finds
    the symbol of the declaration. *)
Lemma match_export_component (imports symbol width height body : string) :
  never_starts "export const " (imports +:+ "interface ") = true ->
  Str.forallb Char.is_word symbol = true ->
  Str.is_empty symbol = false ->
  Regex.match_export
    (imports +:+ propsInterface symbol +:+ signature symbol width height
     +:+ body)
  = Some symbol.
Proof.
  intros Hi Hw Hne. unfold propsInterface.
  rewrite !str_app_assoc, <- (str_app_assoc imports "interface ").
  rewrite match_export_skip by assumption.
  change ("Props {
  className?: string;
  width?: number | string;
  height?: number | string;
}

" +:+ ?x) with (String "P" ("rops {
  className?: string;
  width?: number | string;
  height?: number | string;
}

" +:+ x)).
  rewrite match_export_skip_word by (assumption || reflexivity).
  change (String "P" ("rops {
  className?: string;
  width?: number | string;
  height?: number | string;
}

" +:+ ?x)) with ("Props {
  className?: string;
  width?: number | string;
  height?: number | string;
}

" +:+ x).
  rewrite match_export_skip by (vm_compute; reflexivity).
  rewrite match_export_eq. now rewrite export_here_signature.
Qed.

Lemma componentName_word (svg : iSVG) :
  Str.forallb Char.is_word (componentName svg) = true.
Proof.
  unfold componentName. induction (title svg) as [|c t IH]; [reflexivity|].
  simpl. destruct (Char.is_alnum c) eqn:E; [|exact IH].
  simpl. rewrite IH, andb_true_r. unfold Char.is_word. now rewrite E.
Qed.

Lemma word_app (a b : string) :
  Str.forallb Char.is_word a = true -> Str.forallb Char.is_word b = true ->
  Str.forallb Char.is_word (a +:+ b) = true.
Proof.
  intros Ha Hb. induction a as [|c a IH]; [exact Hb|].
  simpl in *. apply andb_true_iff in Ha as [Hc Ha]. now rewrite Hc, IH.
Qed.

(** ** A later run lists the components of an earlier one *)

Lemma replace_first_no_dot (s : string) :
  no_dot s = true -> Str.replace_first ".tsx" "" (s +:+ ".tsx") = s.
Proof.
  induction s as [|c s IH]; [reflexivity|].
  change (no_dot (String c s)) with (negb (Char.eqb c ".") && no_dot s).
  intros [Hc Hs]%andb_true_iff. rewrite replace_first_eq.
  change (String c s +:+ ".tsx") with (String c (s +:+ ".tsx")).
  cbn [Str.strip_prefix]. rewrite char_eqb_sym.
  apply negb_true_iff in Hc. rewrite Hc. now rewrite IH.
Qed.

Lemma endsWith_app (p s : string) : Str.endsWith p (s +:+ p) = true.
Proof. apply endsWith_spec. now exists s. Qed.

Lemma slug_char_no_dot (s : string) :
  Str.forallb slug_char s = true -> no_dot s = true.
Proof.
  unfold no_dot. induction s as [|c s IH]; [reflexivity|]. simpl.
  intros [Hc Hs]%andb_true_iff. rewrite (IH Hs), andb_true_r.
  revert Hc. each_char c; (reflexivity || discriminate).
Qed.

Lemma kebabName_no_dot (title : string) : no_dot (kebabName title) = true.
Proof.
  apply slug_char_no_dot.
  destruct (kebabName_facts title) as (Hb & _).
  eapply slug_body_chars; eassumption.
Qed.

(** A file named by a slug without dots, other than [index], whose content
    exports a symbol, and whose slug the run did not write: the scan lists
    its record. *)
Lemma scan_finds_slug_file (s1 : State) (slug content symbol : string) :
  dir s1 !! (slug +:+ ".tsx") = Some content ->
  Regex.match_export content = Some symbol ->
  slug <> "index" ->
  no_dot slug = true ->
  ~ In slug (List.map fileName (createdComponents s1)) ->
  In {| name := symbol;
        fileName := slug;
        hasDarkLight := Str.includes "useTheme" content;
        isWordmark := Some (Str.includes "-wordmark" slug) |}
    (exportedComponents s1).
Proof.
  intros Hc Hm Hidx Hdot Hnew.
  assert (Hslug : slugOf (slug +:+ ".tsx") = slug)
    by now apply replace_first_no_dot.
  assert (He : eligible (slug +:+ ".tsx") = true).
  { unfold eligible. rewrite endsWith_app. simpl. apply negb_true_iff.
    apply String.eqb_neq. intros H. apply Hidx.
    change "index.tsx" with ("index" +:+ ".tsx") in H.
    assert (Hs : slugOf (slug +:+ ".tsx") = slugOf ("index" +:+ ".tsx"))
      by now rewrite H.
    now rewrite Hslug in Hs. }
  unfold exportedComponents.
  destruct (scan_spec (dir s1) (listing (dir s1)) (createdComponents s1))
    as (disc & -> & Hdisc & _ & Hall).
  assert (Hin : In (slugOf (slug +:+ ".tsx"))
                  (List.map fileName (createdComponents s1 ++ disc))).
  { apply (Hall _ content symbol); try assumption.
    - apply listing_spec. eauto.
    - eapply match_export_nonempty; eassumption. }
  rewrite Hslug, List.map_app in Hin.
  apply in_app_or in Hin as [Hin | Hin]; [contradiction|].
  apply in_map_iff in Hin as (r & Hr & Hrin).
  destruct (Hdisc r Hrin) as [(f & c' & _ & Hc' & He' & Hm' & Hrec) _].
  assert (Hf : f = slug +:+ ".tsx").
  { assert (Hs : slugOf f = slug) by (rewrite <- Hr, Hrec; reflexivity).
    unfold eligible in He'. apply andb_true_iff in He' as [He' _].
    rewrite <- Hs in Hdot |- *. now apply eligible_file_of_slug. }
  subst f. rewrite Hc in Hc'. injection Hc' as <-.
  rewrite Hm in Hm'. injection Hm' as Hn.
  apply in_or_app. right.
  replace {| name := symbol; fileName := slug;
             hasDarkLight := Str.includes "useTheme" content;
             isWordmark := Some (Str.includes "-wordmark" slug) |}
    with r; [assumption|].
  rewrite Hrec, <- Hn. unfold scannedRecord. now rewrite Hslug.
Qed.

(** X3. The base component of an icon [old], written by an earlier run and
    not written again, is listed with its symbol by a later run. *)
Lemma earlier_component_is_listed (env : Env) (selectedSVGs : list iSVG)
  (s : State) (old : iSVG) (content : string) :
  dir (snd (createAll env selectedSVGs s)) !! (kebabName (title old) +:+ ".tsx")
  = Some content ->
  ((exists m, content = singleContent (componentName old) m)
   \/ exists d l, content = themedContent (componentName old) d l) ->
  Str.is_empty (componentName old) = false ->
  kebabName (title old) <> "index" ->
  ~ In (kebabName (title old))
      (List.map fileName (createdComponents (snd (createAll env selectedSVGs s)))) ->
  In {| name := componentName old;
        fileName := kebabName (title old);
        hasDarkLight := Str.includes "useTheme" content;
        isWordmark := Some (Str.includes "-wordmark" (kebabName (title old))) |}
    (exportedComponents (snd (createAll env selectedSVGs s))).
Proof.
  intros Hc Hshape Hne Hidx Hnew.
  apply scan_finds_slug_file; try assumption; [|apply kebabName_no_dot].
  pose proof (componentName_word old) as Hw.
  destruct Hshape as [[m ->] | (d & l & ->)].
  - rewrite singleContent_shape. now apply match_export_component.
  - rewrite themedContent_shape. now apply match_export_component.
Qed.

(** ** Two icons into an empty directory *)






Lemma earlier_component_is_listed_witness :
  let first := run World.online (Some ["github"]) ∅ in
  exists content,
    In {| name := componentName Sample.github;
          fileName := kebabName (title Sample.github);
          hasDarkLight := Str.includes "useTheme" content;
          isWordmark :=
            Some (Str.includes "-wordmark" (kebabName (title Sample.github))) |}
      (exportedComponents
         (snd (createAll World.online [World.duo] (initial (dir first))))).
Proof.
  intros first. eexists.
  apply (earlier_component_is_listed World.online [World.duo]
           (initial (dir first)) Sample.github).
  - vm_compute. reflexivity.
  - left. exists (extractSvgContent World.markup). vm_compute. reflexivity.
  - reflexivity.
  - vm_compute. discriminate.
  - vm_compute. intros [H | []]. discriminate H.
Defined.

(** X2. A component file written by the generator is read back by the scan
    under the symbol it declares: the symbol of the icon for a base
    component (when the title holds a letter or a digit), the symbol with
    the suffix [Wordmark] for a wordmark. *)
Theorem generated_files_export_their_symbol (svg : iSVG) :
  (Str.is_empty (componentName svg) = false ->
   (forall m,
      Regex.match_export (singleContent (componentName svg) m)
      = Some (componentName svg))
   /\ (forall d l,
         Regex.match_export (themedContent (componentName svg) d l)
         = Some (componentName svg)))
  /\ (forall m,
        Regex.match_export (wordmarkSingleContent (componentName svg) m)
        = Some (componentName svg +:+ "Wordmark"))
  /\ (forall d l,
        Regex.match_export (wordmarkThemedContent (componentName svg) d l)
        = Some (componentName svg +:+ "Wordmark")).
Proof.
  pose proof (componentName_word svg) as Hw.
  assert (Hww : Str.forallb Char.is_word (componentName svg +:+ "Wordmark")
                = true) by now apply word_app.
  assert (Hne : Str.is_empty (componentName svg +:+ "Wordmark") = false)
    by now destruct (componentName svg).
  split; [intros Hn; split|split].
  - intros m. rewrite singleContent_shape.
    now apply match_export_component.
  - intros d l. rewrite themedContent_shape.
    now apply match_export_component.
  - intros m. rewrite wordmarkSingleContent_shape.
    now apply match_export_component.
  - intros d l. rewrite wordmarkThemedContent_shape.
    now apply match_export_component.
Qed.

Lemma generated_files_export_their_symbol_witness :
  Regex.match_export
    (themedContent (componentName World.duo)
       (extractSvgContent World.markup) (extractSvgContent World.markup))
  = Some "Duo"
  /\ Regex.match_export
       (wordmarkSingleContent (componentName World.acme)
          (extractSvgContent World.markup))
     = Some "AcmeCorpWordmark".
Proof.
  destruct (generated_files_export_their_symbol World.duo) as (H1 & _).
  destruct (generated_files_export_their_symbol World.acme) as (_ & H2 & _).
  split; [apply H1; reflexivity | apply H2].
Defined.

(** * Further properties of the command *)

(** ** Selection by name *)

Lemma kebabName_lower (title : string) :
  Str.toLowerCase (kebabName title) = kebabName title.
Proof.
  apply toLowerCase_slug_chars.
  destruct (kebabName_facts title) as (Hb & _).
  eapply slug_body_chars; eassumption.
Qed.

(** X4. Every icon of the catalog is selected by its own title, by its own
    file slug, and by its title in lower case, given as the only token.  The
    slugs printed as a hint when nothing matched are therefore valid
    tokens. *)
Theorem icon_selected_by_own_title_and_slug (svgs : list iSVG) (svg : iSVG) :
  In svg svgs ->
  In svg (selectExact svgs [title svg])
  /\ In svg (selectExact svgs [kebabName (title svg)])
  /\ In svg (selectExact svgs [Str.toLowerCase (title svg)]).
Proof.
  intros Hin. repeat split; apply selectExact_spec; (split; [assumption|]).
  - exists (title svg). split; [now left|]. apply nameMatches_spec. now right.
  - exists (kebabName (title svg)). split; [now left|].
    apply nameMatches_spec. left. now rewrite kebabName_lower.
  - exists (Str.toLowerCase (title svg)). split; [now left|].
    apply nameMatches_spec. right. now rewrite toLowerCase_idem.
Qed.

Lemma icon_selected_by_own_title_and_slug_witness :
  In Sample.copilot
    (selectExact [Sample.github; Sample.copilot] [title Sample.copilot])
  /\ In Sample.copilot
       (selectExact [Sample.github; Sample.copilot]
          [kebabName (title Sample.copilot)])
  /\ In Sample.copilot
       (selectExact [Sample.github; Sample.copilot]
          [Str.toLowerCase (title Sample.copilot)]).
Proof.
  apply (icon_selected_by_own_title_and_slug
           [Sample.github; Sample.copilot] Sample.copilot).
  simpl. right. now left.
Defined.

Lemma selectExact_ext (svgs : list iSVG) (args1 args2 : list string) :
  (forall t, In t (requestedNames args1) <-> In t (requestedNames args2)) ->
  selectExact svgs args1 = selectExact svgs args2.
Proof.
  intros H. unfold selectExact. apply filter_ext. intros svg.
  apply eq_true_iff_eq. rewrite !existsb_exists.
  split; intros (name & Hn & Hm); exists name; (split; [now apply H | exact Hm]).
Qed.

(** X5. The selection depends on the tokens only through the set of their
    lower-case forms: letter case, order and repetition of the tokens do not
    matter.  It is computed entry by entry, so the selected icons come in
    catalog order, and no token selects anything from an empty catalog or
    with an empty token list. *)
Theorem selectExact_ignores_case_order_repetition (svgs : list iSVG)
  (args1 args2 : list string) :
  (forall t,
     In t (List.map Str.toLowerCase args1)
     <-> In t (List.map Str.toLowerCase args2)) ->
  selectExact svgs args1 = selectExact svgs args2
  /\ selectExact svgs (List.map Str.toLowerCase args1) = selectExact svgs args1
  /\ selectExact svgs (args1 ++ args1) = selectExact svgs args1
  /\ selectExact svgs (rev args1) = selectExact svgs args1
  /\ (forall more,
        selectExact (svgs ++ more) args1
        = selectExact svgs args1 ++ selectExact more args1)
  /\ selectExact svgs [] = []
  /\ selectExact [] args1 = [].
Proof.
  intros H. split; [now apply selectExact_ext|].
  split; [|split; [|split; [|split; [|split]]]].
  - apply selectExact_ext. intros t. unfold requestedNames.
    rewrite List.map_map. rewrite !in_map_iff.
    split; intros (x & <- & Hx); exists x;
      (split; [|assumption]); now rewrite ?toLowerCase_idem.
  - apply selectExact_ext. intros t. unfold requestedNames.
    rewrite List.map_app, in_app_iff. tauto.
  - apply selectExact_ext. intros t. unfold requestedNames.
    rewrite List.map_rev. symmetry. apply in_rev.
  - intros more. unfold selectExact. apply List.filter_app.
  - unfold selectExact. induction svgs as [|svg svgs IH]; [reflexivity|].
    simpl. exact IH.
  - reflexivity.
Qed.

Lemma selectExact_ignores_case_order_repetition_witness :
  selectExact World.catalog ["GitHub"; "duo"]
  = selectExact World.catalog ["DUO"; "github"; "Duo"].
Proof.
  apply (selectExact_ignores_case_order_repetition World.catalog
           ["GitHub"; "duo"] ["DUO"; "github"; "Duo"]).
  intros t. vm_compute. tauto.
Defined.

(** ** The symbol and the file slug of one title *)









(** ** The markup helper and the injection of the props *)

Lemma replace_first_absent (p r s : string) :
  Str.includes p s = false -> Str.replace_first p r s = s.
Proof.
  induction s as [|c s IH]; rewrite includes_eq, replace_first_eq;
    intros [Hs Hi]%orb_false_iff; unfold Str.startsWith in Hs.
  - now destruct (Str.strip_prefix p "").
  - destruct (Str.strip_prefix p (String c s)); [discriminate|].
    now rewrite IH.
Qed.

Lemma remove_attr_absent (key s : string) :
  Str.includes (Regex.attr_open key) s = false -> Regex.remove_attr key s = s.
Proof.
  induction s as [|c s IH]; rewrite includes_eq, remove_attr_eq;
    intros [Hs Hi]%orb_false_iff; unfold Str.startsWith in Hs;
    unfold Regex.attr_here.
  - now destruct (Str.strip_prefix (Regex.attr_open key) "").
  - destruct (Str.strip_prefix (Regex.attr_open key) (String c s));
      [discriminate|].
    now rewrite IH.
Qed.

Lemma remove_attr_length (key s : string) :
  String.length (Regex.remove_attr key s) <= String.length s.
Proof.
  destruct (remove_attr_spec key s)
    as [(pre & v & post & [[Hs _] _] & ->) | [_ ->]]; [|lia].
  rewrite Hs, !str_length_app. simpl. lia.
Qed.

(** The root element survives the removal of a fixed size. *)
Lemma remove_attr_keeps_root (key rest : string) :
  key = "width" \/ key = "height" ->
  Regex.remove_attr key ("<svg" +:+ rest)
  = "<svg" +:+ Regex.remove_attr key rest.
Proof.
  intros [-> | ->]; reflexivity.
Qed.

(** X7. The props reach the root element when the trimmed markup starts
    with the [svg] tag: the helper keeps that tag in front, and the
    replacement puts [className], [width], [height] and the remaining props
    right behind it, before whatever the helper left of the markup.  When
    the markup holds no [svg] tag the replacement changes nothing, and the
    emitted component ignores its props. *)
Theorem props_are_injected_on_the_root (svgString : string) :
  Str.startsWith "<svg" (Str.trim svgString) = true ->
  (exists rest,
     extractSvgContent svgString = "<svg" +:+ rest
     /\ injectProps (extractSvgContent svgString)
        = "<svg className={className} width={width} height={height} {...props}"
          +:+ rest
     /\ injectPropsLines (extractSvgContent svgString)
        = "<svg
      className={className}
      width={width}
      height={height}
      {...props}" +:+ rest)
  /\ (forall markup,
        Str.includes "<svg" markup = false ->
        injectProps markup = markup /\ injectPropsLines markup = markup).
Proof.
  intros H. split.
  - unfold Str.startsWith in H.
    destruct (Str.strip_prefix "<svg" (Str.trim svgString)) as [r|] eqn:E;
      [|discriminate].
    apply strip_prefix_spec in E.
    exists (Regex.remove_attr "height" (Regex.remove_attr "width" r)).
    assert (Hx : extractSvgContent svgString
                 = "<svg" +:+ Regex.remove_attr "height"
                                (Regex.remove_attr "width" r)).
    { unfold extractSvgContent. rewrite E.
      now rewrite !remove_attr_keeps_root by auto. }
    rewrite Hx. repeat split.
  - intros markup Hm.
    split; unfold injectProps, injectPropsLines; now apply replace_first_absent.
Qed.

Lemma props_are_injected_on_the_root_witness :
  exists rest,
    extractSvgContent ("
  " +:+ World.markup +:+ "
") = "<svg" +:+ rest
    /\ injectProps (extractSvgContent ("
  " +:+ World.markup +:+ "
"))
       = "<svg className={className} width={width} height={height} {...props}"
         +:+ rest.
Proof.
  destruct (props_are_injected_on_the_root ("
  " +:+ World.markup +:+ "
") eq_refl) as [(rest & H1 & H2 & _) _].
  exists rest. split; assumption.
Defined.

(** X8. The helper only takes characters away: its result is never longer
    than the markup it is given.  Markup that holds neither the opening of a
    fixed width nor the opening of a fixed height once trimmed is returned
    trimmed and otherwise unchanged, and trimming twice is trimming once. *)
Theorem extractSvgContent_only_removes (svgString : string) :
  String.length (extractSvgContent svgString) <= String.length svgString
  /\ (Str.includes (Regex.attr_open "width") (Str.trim svgString) = false ->
      Str.includes (Regex.attr_open "height") (Str.trim svgString) = false ->
      extractSvgContent svgString = Str.trim svgString)
  /\ Str.trim (Str.trim svgString) = Str.trim svgString.
Proof.
  destruct (trim_spec svgString) as (lead & trail & Hs & Hl & Ht & Hh & Hls).
  split; [|split].
  - unfold extractSvgContent.
    pose proof (remove_attr_length "height"
                  (Regex.remove_attr "width" (Str.trim svgString))) as H1.
    pose proof (remove_attr_length "width" (Str.trim svgString)) as H2.
    assert (H3 : String.length (Str.trim svgString) <= String.length svgString).
    { rewrite Hs at 2. rewrite !str_length_app. lia. }
    lia.
  - intros Hw Hhe. unfold extractSvgContent.
    rewrite (remove_attr_absent "width") by assumption.
    now apply remove_attr_absent.
  - clear Hs Hl Ht lead trail. unfold Str.trim in *.
    set (t := Str.trimEnd (Str.trimStart svgString)) in *.
    assert (Hst : Str.trimStart t = t).
    { destruct t as [|c t']; [reflexivity|]. simpl in Hh |- *. now rewrite Hh. }
    rewrite Hst. clear Hst Hh.
    induction t as [|c t' IH]; [reflexivity|].
    destruct t' as [|c' t''].
    + simpl in Hls |- *. now rewrite Hls.
    + specialize (IH Hls). cbn [Str.trimEnd] in IH |- *. rewrite IH.
      now rewrite andb_false_r.
Qed.

(** ** The command as a whole *)

(** The state behind the fetch of a catalog. *)
Definition afterFetch (s : State) : State :=
  {| dir := dir s;
     createdComponents := createdComponents s;
     console :=
       (console s ++ [SpinnerStart "Fetching SVGs..."]) ++ [SpinnerStop] |}.

(** The state behind the outer [catch]. *)
Definition withFatal (err : string) (s : State) : State :=
  {| dir := dir s;
     createdComponents := createdComponents s;
     console :=
       console s
       ++ [ConsoleError ("Failed to fetch or process SVGs: " +:+ err)] |}.

(** The resolver of [add]: exact-match mode for a token list that is not
    empty, the prompt otherwise. *)
Definition resolve (env : Env) (args : option (list string))
  (svgs : list iSVG) : M (option (list iSVG)) :=
  match args with
  | Some ((_ :: _) as names) => selectByName svgs names
  | _ => selectInteractive env svgs
  end.

(** What [add] does with a catalog that is not empty. *)
Definition withCatalog (env : Env) (args : option (list string))
  (svgs : list iSVG) : M unit :=
  selected <- resolve env args svgs ;;
  match selected with
  | None => ret tt
  | Some selectedSVGs => generate env selectedSVGs
  end.

Lemma add_with_catalog (env : Env) (args : option (list string))
  (svg : iSVG) (svgs : list iSVG) (s : State) :
  api env = Resolved (Some (svg :: svgs)) ->
  add env args s
  = tryCatch (withCatalog env args (svg :: svgs))
      (fun err =>
         emit (ConsoleError ("Failed to fetch or process SVGs: " +:+ err)))
      (afterFetch s).
Proof.
  intros H. unfold add, tryCatch, bind, emit, await. rewrite H. reflexivity.
Qed.

Lemma add_without_catalog (env : Env) (args : option (list string))
  (s : State) :
  (forall svg svgs, api env <> Resolved (Some (svg :: svgs))) ->
  exists s', add env args s = (Done tt, s') /\ dir s' = dir s.
Proof.
  intros H. unfold add, tryCatch, bind, emit, await.
  destruct (api env) as [[[|svg svgs]|]|e] eqn:E; simpl; eauto.
  now destruct (H svg svgs).
Qed.

Lemma selectByName_nothing (svgs : list iSVG) (names : list string)
  (s : State) :
  selectExact svgs names = [] ->
  selectByName svgs names s
  = (Done None,
     {| dir := dir s;
        createdComponents := createdComponents s;
        console :=
          ((console s
            ++ [ConsoleError "None of the requested SVGs were found."])
           ++ [ConsoleLog "Available SVGs:"])
          ++ [ConsoleLog
                (Str.join ", "
                   (List.map (fun svg => kebabName (title svg)) (take 10 svgs))
                 +:+ "...")] |}).
Proof. intros H. unfold selectByName. rewrite H. reflexivity. Qed.

Lemma selectByName_found (svgs : list iSVG) (names : list string) (s : State) :
  selectExact svgs names <> [] ->
  exists s',
    selectByName svgs names s = (Done (Some (selectExact svgs names)), s')
    /\ dir s' = dir s /\ createdComponents s' = createdComponents s.
Proof.
  intros H. unfold selectByName.
  destruct (selectExact svgs names) as [|x sel] eqn:E; [congruence|].
  unfold bind, emit, ret.
  destruct (notFound (x :: sel) names); simpl; eauto.
Qed.

Lemma resolve_keeps_dir (env : Env) (args : option (list string))
  (svgs : list iSVG) (s : State) :
  exists r s',
    resolve env args svgs s = (Done r, s')
    /\ dir s' = dir s /\ createdComponents s' = createdComponents s.
Proof.
  unfold resolve.
  assert (Hi : exists r s',
             selectInteractive env svgs s = (Done r, s')
             /\ dir s' = dir s /\ createdComponents s' = createdComponents s)
    by (unfold selectInteractive, ret; eauto).
  destruct args as [[|n names]|]; try exact Hi.
  destruct (selectExact svgs (n :: names)) as [|x sel] eqn:E.
  - rewrite (selectByName_nothing _ _ _ E). eauto.
  - destruct (selectByName_found svgs (n :: names) s) as (s' & H & Hd);
      [congruence|].
    rewrite H. eauto.
Qed.

(** ** What the command writes, and what it leaves alone *)

(** [d'] holds every file of [d]; it differs from [d] only on files that
    end in [.tsx] and can be written. *)
Definition preserves (env : Env) (d d' : gmap string string) : Prop :=
  (forall file, is_Some (d !! file) -> is_Some (d' !! file))
  /\ (forall file, Str.endsWith ".tsx" file = false -> d' !! file = d !! file)
  /\ (forall file, writeError env file <> None -> d' !! file = d !! file).

Lemma preserves_refl (env : Env) (d : gmap string string) : preserves env d d.
Proof. repeat split; auto. Qed.

Lemma preserves_trans (env : Env) (d1 d2 d3 : gmap string string) :
  preserves env d1 d2 -> preserves env d2 d3 -> preserves env d1 d3.
Proof.
  intros (A1 & B1 & C1) (A2 & B2 & C2). repeat split; [auto | |].
  - intros file H. now rewrite B2, B1.
  - intros file H. now rewrite C2, C1.
Qed.

Lemma preserves_insert (env : Env) (d : gmap string string)
  (file content : string) :
  Str.endsWith ".tsx" file = true -> writeError env file = None ->
  preserves env d (<[file := content]> d).
Proof.
  intros He Hw. repeat split.
  - intros f Hf. apply lookup_insert_is_Some'. now right.
  - intros f Hf. apply lookup_insert_ne. intros <-. congruence.
  - intros f Hf. apply lookup_insert_ne. intros <-. congruence.
Qed.

(** One iteration, with what it needs to have happened. *)
Lemma processSVG_shapes (env : Env) (svg : iSVG) (s : State) :
  (exists e, processSVG env svg s = (Done tt, withFailure svg e s))
  \/ exists content,
       writeError env (kebabName (title svg) +:+ ".tsx") = None
       /\ (processSVG env svg s = (Done tt, withBase svg content s)
           \/ (exists e,
                 processSVG env svg s
                 = (Done tt, withFailure svg e (withBase svg content s)))
           \/ exists w wcontent,
                wordmark svg = Some w
                /\ writeError env
                     ((kebabName (title svg) +:+ "-wordmark") +:+ ".tsx")
                   = None
                /\ processSVG env svg s
                   = (Done tt,
                      withWordmark svg w wcontent (withBase svg content s))).
Proof.
  destruct (outcome (componentContent env (componentName svg) (route svg)))
    as [content|e] eqn:Hc.
  2:{ left. exists e. apply processSVG_caught.
      now apply createComponent_fetch_fails. }
  destruct (writeError env (kebabName (title svg) +:+ ".tsx")) as [e|] eqn:Hw.
  { left. exists e. apply processSVG_caught.
    eapply createComponent_write_fails; eassumption. }
  right. exists content. split; [reflexivity|].
  pose proof (createComponent_base env svg s content Hc Hw) as Hb.
  destruct (truthy (wordmark svg)) eqn:Ht.
  2:{ left. apply processSVG_completed. rewrite Hb.
      now apply createWordmark_absent. }
  right. destruct (wordmark svg) as [w|] eqn:Hwm; [|discriminate Ht].
  destruct (outcome (wordmarkContent env (componentName svg) w))
    as [wcontent|e] eqn:Hwc.
  2:{ left. exists e. apply processSVG_caught. rewrite Hb.
      eapply createWordmark_fetch_fails; eauto; now rewrite Hwm. }
  destruct (writeError env
              ((kebabName (title svg) +:+ "-wordmark") +:+ ".tsx"))
    as [e|] eqn:Hww.
  { left. exists e. apply processSVG_caught. rewrite Hb.
    eapply createWordmark_write_fails; eauto; now rewrite Hwm. }
  right. exists w, wcontent. split; [reflexivity|]. split; [reflexivity|].
  apply processSVG_completed. rewrite Hb.
  eapply createWordmark_written; eauto; now rewrite Hwm.
Qed.

Lemma processSVG_preserves (env : Env) (svg : iSVG) (s : State) :
  preserves env (dir s) (dir (snd (processSVG env svg s))).
Proof.
  destruct (processSVG_shapes env svg s)
    as [[e ->] | (c & Hw & [-> | [[e ->] | (w & wc & _ & Hww & ->)]])]; simpl.
  - apply preserves_refl.
  - apply preserves_insert; [apply endsWith_app | exact Hw].
  - apply preserves_insert; [apply endsWith_app | exact Hw].
  - eapply preserves_trans; apply preserves_insert;
      solve [apply endsWith_app | assumption].
Qed.

Lemma forEach_preserves (env : Env) (l : list iSVG) (s : State) :
  preserves env (dir s) (dir (snd (forEach l (processSVG env) s))).
Proof.
  revert s. induction l as [|svg l IH]; intros s; [apply preserves_refl|].
  rewrite forEach_cons.
  eapply preserves_trans; [apply processSVG_preserves | apply IH].
Qed.

Lemma generate_preserves (env : Env) (selectedSVGs : list iSVG) (s : State) :
  exists o s',
    generate env selectedSVGs s = (o, s')
    /\ preserves env (dir s) (dir s').
Proof.
  destruct selectedSVGs as [|svg rest].
  { exists (Done tt), s. split; [reflexivity | apply preserves_refl]. }
  assert (Hloop : preserves env (dir s)
                    (dir (snd (createAll env (svg :: rest) s)))).
  { rewrite createAll_eq.
    exact (forEach_preserves env (svg :: rest) (loopStart s)). }
  unfold generate, bind.
  pose proof (createAll_done env (svg :: rest) s) as Hd.
  destruct (createAll env (svg :: rest) s) as [[[]|e] s1]; [|discriminate Hd].
  simpl in Hloop.
  destruct (writeError env "index.tsx") as [e|] eqn:Hw.
  - rewrite (rebuildIndex_write_fails env s1 e Hw). eauto.
  - rewrite (rebuildIndex_written env s1 Hw). eexists _, _.
    split; [reflexivity|].
    eapply preserves_trans; [exact Hloop|]. simpl.
    now apply preserves_insert.
Qed.

(** X9. The command always ends normally, whatever fails; it removes no
    file of the component directory; it leaves every file whose name does
    not end in [.tsx] exactly as it was; and it never changes a file whose
    write is refused. *)
Theorem add_preserves_other_files (env : Env) (args : option (list string))
  (d : gmap string string) :
  fst (add env args (initial d)) = Done tt
  /\ (forall file, is_Some (d !! file) ->
        is_Some (dir (run env args d) !! file))
  /\ (forall file, Str.endsWith ".tsx" file = false ->
        dir (run env args d) !! file = d !! file)
  /\ (forall file, writeError env file <> None ->
        dir (run env args d) !! file = d !! file).
Proof.
  assert (H : exists s',
             add env args (initial d) = (Done tt, s')
             /\ preserves env d (dir s')).
  { destruct (api env) as [[[|svg svgs]|]|e] eqn:E.
    1,3,4: destruct (add_without_catalog env args (initial d)) as (s' & H & Hd);
      [intros svg svgs; congruence|];
      exists s'; split; [exact H|]; rewrite Hd; apply preserves_refl.
    rewrite (add_with_catalog env args svg svgs _ E).
    unfold tryCatch, withCatalog, bind.
    destruct (resolve_keeps_dir env args (svg :: svgs) (afterFetch (initial d)))
      as (r & s0 & -> & Hd & _).
    simpl in Hd. destruct r as [sel|].
    2:{ exists s0. split; [reflexivity|]. rewrite Hd. apply preserves_refl. }
    destruct (generate_preserves env sel s0) as (o & s' & -> & Hp).
    rewrite Hd in Hp. destruct o as [[]|err].
    - exists s'. now split.
    - unfold emit. eexists. split; [reflexivity|]. exact Hp. }
  destruct H as (s' & Hadd & Ha & Hb & Hc). unfold run. rewrite Hadd.
  repeat split; assumption.
Qed.

(** ** Records and their files *)

(** Every record of the tracking array has its component file in the
    directory, under its file slug, which holds no dot. *)
Definition tracked (s : State) : Prop :=
  forall r, In r (createdComponents s) ->
    is_Some (dir s !! (fileName r +:+ ".tsx")) /\ no_dot (fileName r) = true.

Lemma tracked_withFailure (svg : iSVG) (e : string) (s : State) :
  tracked s -> tracked (withFailure svg e s).
Proof. intros H r Hr. exact (H r Hr). Qed.

Lemma tracked_withBase (svg : iSVG) (content : string) (s : State) :
  tracked s -> tracked (withBase svg content s).
Proof.
  intros H r [Hr | [<- | []]]%in_app_or; simpl.
  - destruct (H r Hr) as [Hf Hd]. split; [|exact Hd].
    apply lookup_insert_is_Some'. now right.
  - split; [|apply kebabName_no_dot]. rewrite lookup_insert_eq. eauto.
Qed.

Lemma tracked_withWordmark (svg : iSVG) (w : Route) (content : string)
  (s : State) :
  tracked s -> tracked (withWordmark svg w content s).
Proof.
  intros H r [Hr | [<- | []]]%in_app_or; simpl.
  - destruct (H r Hr) as [Hf Hd]. split; [|exact Hd].
    apply lookup_insert_is_Some'. now right.
  - split; [rewrite lookup_insert_eq; eauto|].
    now rewrite no_dot_app, kebabName_no_dot.
Qed.

Lemma processSVG_tracked (env : Env) (svg : iSVG) (s : State) :
  tracked s -> tracked (snd (processSVG env svg s)).
Proof.
  intros H.
  destruct (processSVG_cases env svg s)
    as [[e ->] | [[c ->] | [(c & e & ->) | (c & w & wc & ->)]]]; simpl.
  - now apply tracked_withFailure.
  - now apply tracked_withBase.
  - now apply tracked_withFailure, tracked_withBase.
  - now apply tracked_withWordmark, tracked_withBase.
Qed.

Lemma createAll_tracked (env : Env) (selectedSVGs : list iSVG) (s : State) :
  tracked (snd (createAll env selectedSVGs s)).
Proof.
  rewrite createAll_eq.
  assert (H : tracked (loopStart s)) by (intros r []).
  revert H. generalize (loopStart s). clear s.
  induction selectedSVGs as [|svg l IH]; intros s H; [exact H|].
  rewrite forEach_cons. apply IH. now apply processSVG_tracked.
Qed.

(** X10. Every record behind [index.tsx] has a component file: when the
    generation ends, each import line of the index names the file slug of a
    file that is in the directory and ends in [.tsx], and for the records
    written during the run that file is the slug followed by [.tsx]. *)
Theorem every_listed_record_has_its_file (env : Env)
  (selectedSVGs : list iSVG) (s : State) :
  0 < length selectedSVGs ->
  writeError env "index.tsx" = None ->
  let s1 := snd (createAll env selectedSVGs s) in
  let final := snd (generate env selectedSVGs s) in
  dir final !! "index.tsx" = Some (indexContent (exportedComponents s1))
  /\ (forall r, In r (exportedComponents s1) ->
        exists file,
          is_Some (dir final !! file)
          /\ Str.endsWith ".tsx" file = true
          /\ slugOf file = fileName r)
  /\ (forall r, In r (createdComponents s1) ->
        is_Some (dir final !! (fileName r +:+ ".tsx"))
        /\ slugOf (fileName r +:+ ".tsx") = fileName r).
Proof.
  intros Hlen Hidx s1 final. subst final.
  assert (Hne : selectedSVGs <> []) by (intros ->; simpl in Hlen; lia).
  rewrite (generate_written env selectedSVGs s Hne Hidx). fold s1. simpl.
  pose proof (createAll_tracked env selectedSVGs s) as Ht. fold s1 in Ht.
  assert (Hcreated : forall r, In r (createdComponents s1) ->
            is_Some (<["index.tsx" := indexContent (exportedComponents s1)]>
                       (dir s1) !! (fileName r +:+ ".tsx"))
            /\ slugOf (fileName r +:+ ".tsx") = fileName r).
  { intros r Hr. destruct (Ht r Hr) as [Hf Hd]. split.
    - apply lookup_insert_is_Some'. now right.
    - now apply replace_first_no_dot. }
  split; [apply lookup_insert_eq|]. split; [|exact Hcreated].
  intros r Hr. unfold exportedComponents in Hr.
  destruct (scan_spec (dir s1) (listing (dir s1)) (createdComponents s1))
    as (disc & Hfold & Hdisc & _).
  rewrite Hfold in Hr. apply in_app_or in Hr as [Hr | Hr].
  - exists (fileName r +:+ ".tsx"). destruct (Hcreated r Hr) as [Hf Hs].
    split; [exact Hf|]. split; [apply endsWith_app | exact Hs].
  - destruct (Hdisc r Hr) as [(file & c & _ & Hc & He & _ & Hrec) _].
    exists file. split; [apply lookup_insert_is_Some'; right; eauto|].
    unfold eligible in He. apply andb_true_iff in He as [He _].
    split; [exact He|]. now rewrite Hrec.
Qed.

Lemma every_listed_record_has_its_file_witness :
  let first := run World.online (Some ["acme corp"]) ∅ in
  let s1 := snd (createAll World.online [World.duo] (initial (dir first))) in
  let final := snd (generate World.online [World.duo] (initial (dir first))) in
  List.map fileName (exportedComponents s1)
  = ["duo"; "acme-corp-wordmark"; "acme-corp"]
  /\ forall r, In r (exportedComponents s1) ->
       exists file,
         is_Some (dir final !! file)
         /\ Str.endsWith ".tsx" file = true
         /\ slugOf file = fileName r.
Proof.
  intros first.
  destruct (every_listed_record_has_its_file World.online [World.duo]
              (initial (dir first)) ltac:(simpl; lia) eq_refl) as (_ & H & _).
  split; [vm_compute; reflexivity | exact H].
Defined.

(** ** When the index cannot be written *)

(** X11. When the write of [index.tsx] is refused, the generation throws
    behind the loop: the component files and records of the run stay as the
    loop left them, [index.tsx] keeps the content it had (or stays absent),
    and nothing is printed by the generator after the loop.  Under [add] the
    error reaches the outer [catch], which prints it and ends the command
    normally. *)
Theorem index_write_failure_keeps_components (env : Env)
  (selectedSVGs : list iSVG) (s : State) (e : string) :
  0 < length selectedSVGs ->
  writeError env "index.tsx" = Some e ->
  let s1 := snd (createAll env selectedSVGs s) in
  generate env selectedSVGs s = (Thrown e, s1)
  /\ dir s1 !! "index.tsx" = dir s !! "index.tsx"
  /\ (forall r, In r (createdComponents s1) ->
        is_Some (dir s1 !! (fileName r +:+ ".tsx")))
  /\ tryCatch (generate env selectedSVGs)
       (fun err =>
          emit (ConsoleError ("Failed to fetch or process SVGs: " +:+ err))) s
     = (Done tt, withFatal e s1)
  /\ (forall svg svgs d,
        api env = Resolved (Some (svg :: svgs)) ->
        prompt env (choices (svg :: svgs)) = selectedSVGs ->
        run env None d
        = withFatal e
            (snd (createAll env selectedSVGs (afterFetch (initial d))))).
Proof.
  intros Hlen Hidx s1.
  assert (Hgen : forall s0,
            generate env selectedSVGs s0
            = (Thrown e, snd (createAll env selectedSVGs s0))).
  { intros s0. destruct selectedSVGs as [|svg rest]; [simpl in Hlen; lia|].
    unfold generate, bind.
    pose proof (createAll_done env (svg :: rest) s0) as Hd.
    destruct (createAll env (svg :: rest) s0) as [[[]|e'] s']; [|discriminate Hd].
    now apply rebuildIndex_write_fails. }
  split; [apply Hgen|]. split; [|split; [|split]].
  - subst s1. rewrite createAll_eq.
    destruct (forEach_preserves env selectedSVGs (loopStart s)) as (_ & _ & H).
    simpl in H. apply H. congruence.
  - intros r Hr. now destruct (createAll_tracked env selectedSVGs s r Hr).
  - unfold tryCatch. now rewrite Hgen.
  - intros svg svgs d Hapi Hprompt. unfold run.
    rewrite (add_with_catalog env None svg svgs _ Hapi).
    unfold tryCatch, withCatalog, resolve, selectInteractive, bind, ret.
    now rewrite Hprompt, Hgen.
Qed.

Lemma index_write_failure_keeps_components_witness :
  let env :=
    {| api := api World.online;
       axiosGet := axiosGet World.online;
       writeError := fun file =>
         if String.eqb file "index.tsx" then Some "EACCES: permission denied"
         else None;
       prompt := fun _ => [World.duo] |} in
  let s1 := snd (createAll env [World.duo] (initial ∅)) in
  generate env [World.duo] (initial ∅)
  = (Thrown "EACCES: permission denied", s1)
  /\ dir s1 !! "index.tsx" = None
  /\ is_Some (dir s1 !! "duo.tsx").
Proof.
  intros env.
  destruct (index_write_failure_keeps_components env [World.duo] (initial ∅)
              "EACCES: permission denied" ltac:(simpl; lia) eq_refl)
    as (H1 & H2 & H3 & _).
  split; [exact H1|]. split; [exact H2|].
  apply (H3 (baseRecord World.duo)). vm_compute. now left.
Defined.

(** ** When every item fails *)

(** The line the [catch] of one iteration prints. *)
Definition failureLine (svg : iSVG) (error : string) : Output :=
  ConsoleError
    ("Failed to create component for " +:+ title svg +:+ ": " +:+ error).

Lemma processSVG_base_error (env : Env) (svg : iSVG) (e : string) (s : State) :
  baseError env svg = Some e ->
  processSVG env svg s = (Done tt, withFailure svg e s).
Proof.
  unfold baseError. intros H. apply processSVG_caught.
  destruct (outcome (componentContent env (componentName svg) (route svg)))
    as [content|e'] eqn:Hc.
  - now apply (createComponent_write_fails env svg s content).
  - injection H as <-. now apply createComponent_fetch_fails.
Qed.

Lemma forEach_all_fail (env : Env) (l : list iSVG) (errors : list string)
  (s : State) :
  Forall2 (fun svg e => baseError env svg = Some e) l errors ->
  snd (forEach l (processSVG env) s)
  = {| dir := dir s;
       createdComponents := createdComponents s;
       console := console s ++ zip_with failureLine l errors |}.
Proof.
  intros H. revert s. induction H as [|svg e l errors He H IH]; intros s.
  - simpl. rewrite app_nil_r. now destruct s.
  - rewrite forEach_cons, (processSVG_base_error env svg e s He). simpl snd.
    rewrite IH. simpl. now rewrite <- app_assoc.
Qed.

(** X12. When the base component of every selected icon fails, the loop
    writes no file and tracks no record and prints one line per icon; the
    index is rebuilt all the same, from the component files the directory
    already held, the summary counts zero new components, and the usage
    hint falls back to the name [ComponentName]. *)
Theorem all_items_fail_index_still_rebuilt (env : Env)
  (selectedSVGs : list iSVG) (errors : list string) (s : State) :
  0 < length selectedSVGs ->
  Forall2 (fun svg e => baseError env svg = Some e) selectedSVGs errors ->
  writeError env "index.tsx" = None ->
  let s1 := snd (createAll env selectedSVGs s) in
  let final := snd (generate env selectedSVGs s) in
  let found := fold_left (scanStep (dir s)) (listing (dir s)) [] in
  dir s1 = dir s
  /\ createdComponents s1 = []
  /\ console s1
     = (console s ++ [SpinnerStart "Creating React components..."])
       ++ zip_with failureLine selectedSVGs errors
  /\ dir final = <["index.tsx" := indexContent found]> (dir s)
  /\ createdComponents final = []
  /\ console final
     = console s1
       ++ [SpinnerSucceed
             ("Created 0 new React components and exported all "
              +:+ pretty (length found)
              +:+ " components in components/svgl/");
           ConsoleLog "
To use your SVG icons:";
           ConsoleLog "import { ComponentName } from 'components/svgl';";
           ConsoleLog "<ComponentName width={32} height={32} />"].
Proof.
  intros Hlen Hall Hidx s1 final found.
  assert (Hs1 : s1 = {| dir := dir s;
                        createdComponents := [];
                        console :=
                          (console s
                           ++ [SpinnerStart "Creating React components..."])
                          ++ zip_with failureLine selectedSVGs errors |}).
  { subst s1. rewrite createAll_eq.
    now rewrite (forEach_all_fail env selectedSVGs errors _ Hall). }
  assert (Hne : selectedSVGs <> []) by (intros ->; simpl in Hlen; lia).
  subst final. rewrite (generate_written env selectedSVGs s Hne Hidx).
  fold s1. rewrite Hs1. simpl. repeat split.
Qed.

Lemma all_items_fail_index_still_rebuilt_witness :
  let s1 := snd (createAll World.offline [Sample.github; World.duo] (initial ∅)) in
  let final :=
    snd (generate World.offline [Sample.github; World.duo] (initial ∅)) in
  dir s1 = ∅
  /\ createdComponents s1 = []
  /\ dir final = <["index.tsx" := indexContent []]> ∅.
Proof.
  destruct (all_items_fail_index_still_rebuilt World.offline
              [Sample.github; World.duo]
              ["Error: connect ECONNREFUSED"; "Error: connect ECONNREFUSED"]
              (initial ∅) ltac:(simpl; lia)
              ltac:(repeat constructor) eq_refl)
    as (H1 & H2 & _ & H4 & _).
  repeat split; assumption.
Defined.

(** ** When nothing is selected *)

(** X13. With a catalog at hand and nothing selected, the command writes
    nothing.  In exact-match mode with no match it prints the error, then
    the file slugs of the first ten catalog entries joined by a comma and a
    space and followed by three dots; with an empty answer to the prompt
    (which is asked when there is no token list or an empty one) it prints
    nothing more than the progress of the fetch. *)
Theorem nothing_selected_nothing_written (env : Env) (svg : iSVG)
  (svgs : list iSVG) (d : gmap string string) :
  api env = Resolved (Some (svg :: svgs)) ->
  (forall name names,
     selectExact (svg :: svgs) (name :: names) = [] ->
     run env (Some (name :: names)) d
     = {| dir := d;
          createdComponents := [];
          console :=
            [SpinnerStart "Fetching SVGs..."; SpinnerStop;
             ConsoleError "None of the requested SVGs were found.";
             ConsoleLog "Available SVGs:";
             ConsoleLog
               (Str.join ", "
                  (List.map (fun svg => kebabName (title svg))
                     (take 10 (svg :: svgs)))
                +:+ "...")] |})
  /\ (forall args,
        args = None \/ args = Some [] ->
        prompt env (choices (svg :: svgs)) = [] ->
        run env args d
        = {| dir := d;
             createdComponents := [];
             console := [SpinnerStart "Fetching SVGs..."; SpinnerStop] |}).
Proof.
  intros Hapi. split.
  - intros name names Hsel. unfold run.
    rewrite (add_with_catalog env _ svg svgs _ Hapi).
    unfold tryCatch, withCatalog, resolve, bind.
    now rewrite (selectByName_nothing _ _ _ Hsel).
  - intros args Hargs Hprompt. unfold run.
    rewrite (add_with_catalog env _ svg svgs _ Hapi).
    unfold tryCatch, withCatalog, resolve, selectInteractive, bind, ret.
    destruct Hargs as [-> | ->]; now rewrite Hprompt.
Qed.

Lemma nothing_selected_nothing_written_witness :
  run World.online (Some ["gitlab"]) ∅
  = {| dir := ∅;
       createdComponents := [];
       console :=
         [SpinnerStart "Fetching SVGs..."; SpinnerStop;
          ConsoleError "None of the requested SVGs were found.";
          ConsoleLog "Available SVGs:";
          ConsoleLog "github, github-copilot, acme-corp, duo, a-b, ab..."] |}
  /\ run World.online None ∅
     = {| dir := ∅;
          createdComponents := [];
          console := [SpinnerStart "Fetching SVGs..."; SpinnerStop] |}.
Proof.
  destruct (nothing_selected_nothing_written World.online Sample.github
              (tail World.catalog) ∅ eq_refl) as [H1 H2].
  split.
  - exact (H1 "gitlab" [] eq_refl).
  - exact (H2 None (or_introl eq_refl) eq_refl).
Defined.

(** ** The files depend on the selected icons only *)

(** Two states with the same directory and the same tracking array. *)
Definition sameFiles (s s' : State) : Prop :=
  dir s = dir s' /\ createdComponents s = createdComponents s'.

Lemma sameFiles_withFailure (svg : iSVG) (e : string) (s s' : State) :
  sameFiles s s' -> sameFiles (withFailure svg e s) (withFailure svg e s').
Proof. intros [Hd Hc]. now split. Qed.

Lemma sameFiles_withBase (svg : iSVG) (c : string) (s s' : State) :
  sameFiles s s' -> sameFiles (withBase svg c s) (withBase svg c s').
Proof. intros [Hd Hc]. split; simpl; congruence. Qed.

Lemma sameFiles_withWordmark (svg : iSVG) (w : Route) (c : string)
  (s s' : State) :
  sameFiles s s' -> sameFiles (withWordmark svg w c s) (withWordmark svg w c s').
Proof. intros [Hd Hc]. split; simpl; congruence. Qed.

(** What one iteration does to the files is decided by the icon and the
    environment, not by the state it starts in. *)
Lemma processSVG_effect (env : Env) (svg : iSVG) :
  exists f : State -> State,
    (forall s, processSVG env svg s = (Done tt, f s))
    /\ forall s s', sameFiles s s' -> sameFiles (f s) (f s').
Proof.
  destruct (outcome (componentContent env (componentName svg) (route svg)))
    as [content|e] eqn:Hc.
  2:{ exists (withFailure svg e). split; [|apply sameFiles_withFailure].
      intros s. apply processSVG_caught.
      now apply createComponent_fetch_fails. }
  destruct (writeError env (kebabName (title svg) +:+ ".tsx")) as [e|] eqn:Hw.
  { exists (withFailure svg e). split; [|apply sameFiles_withFailure].
    intros s. apply processSVG_caught.
    eapply createComponent_write_fails; eassumption. }
  pose proof (fun s => createComponent_base env svg s content Hc Hw) as Hb.
  destruct (truthy (wordmark svg)) eqn:Ht.
  2:{ exists (withBase svg content). split; [|apply sameFiles_withBase].
      intros s. apply processSVG_completed. rewrite Hb.
      now apply createWordmark_absent. }
  destruct (wordmark svg) as [w|] eqn:Hwm; [|discriminate Ht].
  destruct (outcome (wordmarkContent env (componentName svg) w))
    as [wcontent|e] eqn:Hwc.
  2:{ exists (fun s => withFailure svg e (withBase svg content s)). split.
      - intros s. apply processSVG_caught. rewrite Hb.
        eapply createWordmark_fetch_fails; eauto; now rewrite Hwm.
      - intros s s' H. now apply sameFiles_withFailure, sameFiles_withBase. }
  destruct (writeError env
              ((kebabName (title svg) +:+ "-wordmark") +:+ ".tsx"))
    as [e|] eqn:Hww.
  { exists (fun s => withFailure svg e (withBase svg content s)). split.
    - intros s. apply processSVG_caught. rewrite Hb.
      eapply createWordmark_write_fails; eauto; now rewrite Hwm.
    - intros s s' H. now apply sameFiles_withFailure, sameFiles_withBase. }
  exists (fun s => withWordmark svg w wcontent (withBase svg content s)). split.
  - intros s. apply processSVG_completed. rewrite Hb.
    eapply createWordmark_written; eauto; now rewrite Hwm.
  - intros s s' H. now apply sameFiles_withWordmark, sameFiles_withBase.
Qed.

Lemma forEach_sameFiles (env : Env) (l : list iSVG) (s s' : State) :
  sameFiles s s' ->
  sameFiles (snd (forEach l (processSVG env) s))
    (snd (forEach l (processSVG env) s')).
Proof.
  revert s s'. induction l as [|svg l IH]; intros s s' H; [exact H|].
  rewrite !forEach_cons. apply IH.
  destruct (processSVG_effect env svg) as (f & Hf & Hsame).
  rewrite !Hf. simpl. now apply Hsame.
Qed.

Lemma generate_sameFiles (env : Env) (selectedSVGs : list iSVG)
  (s s' : State) :
  dir s = dir s' ->
  fst (generate env selectedSVGs s) = fst (generate env selectedSVGs s')
  /\ dir (snd (generate env selectedSVGs s))
     = dir (snd (generate env selectedSVGs s')).
Proof.
  intros Hd. destruct selectedSVGs as [|svg rest]; [now split|].
  assert (Hloop : sameFiles (snd (createAll env (svg :: rest) s))
                    (snd (createAll env (svg :: rest) s'))).
  { rewrite !createAll_eq. apply forEach_sameFiles. now split. }
  unfold generate, bind.
  pose proof (createAll_done env (svg :: rest) s) as H1.
  pose proof (createAll_done env (svg :: rest) s') as H2.
  destruct (createAll env (svg :: rest) s) as [[[]|e1] s1]; [|discriminate H1].
  destruct (createAll env (svg :: rest) s') as [[[]|e2] s2]; [|discriminate H2].
  destruct Hloop as [Hdir Hcre]. simpl in Hdir, Hcre.
  destruct (writeError env "index.tsx") as [e|] eqn:Hw.
  - rewrite !(rebuildIndex_write_fails env _ e Hw). now split.
  - rewrite !(rebuildIndex_written env _ Hw). split; [reflexivity|].
    simpl. unfold exportedComponents. now rewrite Hdir, Hcre.
Qed.

(** X14. In exact-match mode the files the command leaves depend on the
    tokens only through the icons they select: two token lists that select
    the same icons leave the same directory, whatever else they hold.
    Tokens that match nothing, the letter case of the tokens, their order
    and their repetition therefore change the report, not the files. *)
Theorem files_depend_on_the_selected_icons (env : Env)
  (names1 names2 : list string) (d : gmap string string) :
  0 < length names1 ->
  0 < length names2 ->
  (forall svgs, api env = Resolved (Some svgs) ->
     selectExact svgs names1 = selectExact svgs names2) ->
  dir (run env (Some names1) d) = dir (run env (Some names2) d).
Proof.
  intros H1 H2 Hsel. unfold run.
  destruct (api env) as [[[|svg svgs]|]|e] eqn:E.
  1,3,4: destruct (add_without_catalog env (Some names1) (initial d))
           as (s1 & Ha1 & Hd1); [intros ? ?; congruence|];
         destruct (add_without_catalog env (Some names2) (initial d))
           as (s2 & Ha2 & Hd2); [intros ? ?; congruence|];
         rewrite Ha1, Ha2; simpl; congruence.
  specialize (Hsel _ eq_refl).
  rewrite !(add_with_catalog env _ svg svgs _ E).
  destruct names1 as [|n1 names1]; [simpl in H1; lia|].
  destruct names2 as [|n2 names2]; [simpl in H2; lia|].
  unfold tryCatch, withCatalog, resolve, bind.
  destruct (selectExact (svg :: svgs) (n1 :: names1)) as [|x sel] eqn:E1.
  - rewrite (selectByName_nothing _ _ _ E1).
    rewrite (selectByName_nothing _ (n2 :: names2)) by now rewrite <- Hsel.
    reflexivity.
  - destruct (selectByName_found (svg :: svgs) (n1 :: names1)
                (afterFetch (initial d))) as (s1 & -> & Hd1 & _);
      [congruence|].
    destruct (selectByName_found (svg :: svgs) (n2 :: names2)
                (afterFetch (initial d))) as (s2 & -> & Hd2 & _);
      [congruence|].
    rewrite <- Hsel, E1.
    destruct (generate_sameFiles env (x :: sel) s1 s2) as [Ho Hdir];
      [congruence|].
    destruct (generate env (x :: sel) s1) as [o1 t1].
    destruct (generate env (x :: sel) s2) as [o2 t2].
    simpl in Ho, Hdir. subst o2. now destruct o1 as [[]|err].
Qed.

Lemma files_depend_on_the_selected_icons_witness :
  dir (run World.online (Some ["GitHub"; "duo"]) ∅)
  = dir (run World.online (Some ["DUO"; "gitlab"; "github"; "Duo"]) ∅).
Proof.
  apply (files_depend_on_the_selected_icons World.online
           ["GitHub"; "duo"] ["DUO"; "gitlab"; "github"; "Duo"] ∅);
    [simpl; lia | simpl; lia |].
  intros svgs [= <-]. vm_compute. reflexivity.
Defined.

(** ** Where the records of a run come from *)

(** [r] is the base record or the wordmark record of an icon of [l]. *)
Definition recordOf (l : list iSVG) (r : Component) : Prop :=
  exists svg,
    In svg l
    /\ (r = baseRecord svg
        \/ exists w, wordmark svg = Some w /\ r = wordmarkRecord svg w).

Lemma recordOf_cons (svg : iSVG) (l : list iSVG) (r : Component) :
  recordOf l r -> recordOf (svg :: l) r.
Proof. intros (x & Hx & H). exists x. split; [now right | exact H]. Qed.

Lemma forEach_records (env : Env) (l : list iSVG) (s : State) :
  exists more,
    createdComponents (snd (forEach l (processSVG env) s))
    = createdComponents s ++ more
    /\ length more <= 2 * length l
    /\ forall r, In r more -> recordOf l r.
Proof.
  revert s. induction l as [|svg l IH]; intros s.
  { exists []. rewrite app_nil_r. repeat split; [simpl; lia | intros r []]. }
  rewrite forEach_cons.
  destruct (IH (snd (processSVG env svg s))) as (more & Hm & Hlen & Hrec).
  assert (Hb : recordOf (svg :: l) (baseRecord svg))
    by (exists svg; split; [now left | now left]).
  destruct (processSVG_shapes env svg s)
    as [[e He] | (c & _ & [He | [[e He] | (w & wc & Hw & _ & He)]])];
    rewrite He in Hm |- *; simpl in Hm; simpl snd.
  - exists more. split; [exact Hm|]. split; [simpl; lia|].
    intros r Hr. now apply recordOf_cons, Hrec.
  - exists (baseRecord svg :: more). split; [now rewrite Hm, <- app_assoc|].
    split; [simpl; lia|].
    intros r [<- | Hr]; [exact Hb | now apply recordOf_cons, Hrec].
  - exists (baseRecord svg :: more). split; [now rewrite Hm, <- app_assoc|].
    split; [simpl; lia|].
    intros r [<- | Hr]; [exact Hb | now apply recordOf_cons, Hrec].
  - exists (baseRecord svg :: wordmarkRecord svg w :: more).
    split; [now rewrite Hm, <- !app_assoc|]. split; [simpl; lia|].
    intros r [<- | [<- | Hr]]; [exact Hb | | now apply recordOf_cons, Hrec].
    exists svg. split; [now left|]. right. eauto.
Qed.

(** X15. The records a run tracks all come from the selection: each one is
    the base record of a selected icon, or the wordmark record of a
    selected icon that has a wordmark; there are at most two per selected
    icon, whatever the directory held before; and each carries a symbol
    made of letters and digits and a file slug without dots. *)
Theorem tracked_records_come_from_the_selection (env : Env)
  (selectedSVGs : list iSVG) (s : State) :
  let s1 := snd (createAll env selectedSVGs s) in
  length (createdComponents s1) <= 2 * length selectedSVGs
  /\ forall r, In r (createdComponents s1) ->
       (exists svg,
          In svg selectedSVGs
          /\ ((name r = componentName svg
               /\ fileName r = kebabName (title svg)
               /\ hasDarkLight r = negb (isString (route svg))
               /\ isWordmark r = None)
              \/ exists w,
                   wordmark svg = Some w
                   /\ name r = componentName svg +:+ "Wordmark"
                   /\ fileName r = kebabName (title svg) +:+ "-wordmark"
                   /\ hasDarkLight r = negb (isString w)
                   /\ isWordmark r = Some true))
       /\ Str.forallb Char.is_word (name r) = true
       /\ no_dot (fileName r) = true.
Proof.
  intros s1. subst s1. rewrite createAll_eq.
  destruct (forEach_records env selectedSVGs (loopStart s))
    as (more & Hm & Hlen & Hrec).
  simpl in Hm. rewrite Hm. split; [exact Hlen|].
  intros r Hr. destruct (Hrec r Hr) as (svg & Hin & [-> | (w & Hw & ->)]).
  - split; [|split; [apply componentName_word | apply kebabName_no_dot]].
    exists svg. split; [exact Hin|]. left. now repeat split.
  - split; [|split].
    + exists svg. split; [exact Hin|]. right. exists w. now repeat split.
    + apply word_app; [apply componentName_word | reflexivity].
    + simpl. now rewrite no_dot_app, kebabName_no_dot.
Qed.
